(** * HelloCSV: validation / transformation engine and its orchestration

    A shallow embedding of the importer's validation engine
    ([validators/index.ts]), transformer pipeline ([transformers/index.ts])
    and state builders ([importer/state.tsx]), with the properties the
    specification states about them.

    Conventions of the embedding.
    - A JS object used as a record of cells ([Record<string, ...>]) is a
      [gmap string _]; [k in row] is [is_Some (row !! k)] and [row[k]] is the
      looked-up value or [undefined].
    - [Map<string, Set<number>>] is a [gmap string (gset nat)].  Row indices
      are array positions, hence natural numbers.
    - A promise is represented by the way it settles ([Settled]): fulfilled
      with a value or rejected.  The order in which the [then] callbacks of a
      fan-out run is a permutation of the launch order. *)

From Stdlib Require Import Ascii.
From stdpp Require Import gmap strings pretty list fin_maps.

Set Default Proof Using "Type".

(** ** Cells, rows, sheets *)

(** [ImporterOutputFieldType = string | number | boolean | undefined]. *)
Inductive ImporterOutputFieldType :=
| FText (s : string)
| FNumber (n : Z)
| FBoolean (b : bool)
| FUndefined.

#[global] Instance ImporterOutputFieldType_eq_dec : EqDecision ImporterOutputFieldType.
Proof. solve_decision. Defined.

Abbreviation SheetRow := (gmap string ImporterOutputFieldType).

(** The names of the properties of [Object.prototype], which every row, a
    plain object, inherits: for such a name [name in row] holds and
    [row[name]] is the inherited value when the row has no key of its own
    with that name, and an assignment to [__proto__] adds no key. *)
Definition objectPrototypeNames : list string :=
  ["constructor"; "__defineGetter__"; "__defineSetter__"; "hasOwnProperty";
   "__lookupGetter__"; "__lookupSetter__"; "isPrototypeOf";
   "propertyIsEnumerable"; "toString"; "valueOf"; "__proto__";
   "toLocaleString"].

Definition inheritedName (id : string) : bool :=
  bool_decide (id ∈ objectPrototypeNames).

(** [row[columnId]], for a [columnId] that is no inherited name: the value
    under the row's own key, and [undefined] when the row has no such key.
    A [SheetRow] holds the own keys of the row; what the source reads under
    an inherited name is not modelled, and the properties that depend on how
    a cell is read are stated for column ids that are no such name (see
    [plainColumnIds]). *)
Definition rowGet (row : SheetRow) (columnId : string) : ImporterOutputFieldType :=
  default FUndefined (row !! columnId).

(** [columnId in row], for a [columnId] that is no inherited name: the row
    has a key of its own with that name. *)
Definition rowHas (row : SheetRow) (columnId : string) : bool :=
  bool_decide (is_Some (row !! columnId)).

Record SheetState := mkSheetState {
  ss_sheetId : string;
  ss_rows : list SheetRow
}.

(** ** Promises *)

Inductive Settled (A : Type) :=
| Fulfilled (a : A)
| Rejected.
Arguments Fulfilled {A} a.
Arguments Rejected {A}.

#[global] Instance Settled_ret : MRet Settled := λ A a, Fulfilled a.
#[global] Instance Settled_bind : MBind Settled := λ A B f m,
  match m with Fulfilled a => f a | Rejected => Rejected end.
#[global] Instance Settled_fmap : FMap Settled := λ A B f m,
  match m with Fulfilled a => Fulfilled (f a) | Rejected => Rejected end.

(** [promise.catch(() => fallback)]. *)
Definition catch {A} (m : Settled A) (fallback : A) : A :=
  match m with Fulfilled a => a | Rejected => fallback end.

(** [Promise.all]: fulfilled with every value, in the order of the promises,
    or rejected as soon as one of them is. *)
Fixpoint promiseAll {A} (ps : list (Settled A)) : Settled (list A) :=
  match ps with
  | [] => Fulfilled []
  | p :: ps' => a ← p; as' ← promiseAll ps'; mret (a :: as')
  end.

(** ** Validator and transformer definitions *)

(** The result of one [isValid] call: a message, or [null]/[undefined]
    (valid); the call may be asynchronous and may fail. *)
Abbreviation ImporterValidatorOutput := (Settled (option string)).

Record Validator := mkValidator {
  isValid : ImporterOutputFieldType → SheetRow → ImporterValidatorOutput
}.

(** The tagged union of validator definitions, discriminated by [validate]:
    ['required'], ['includes'] and the ['custom'] escape hatch. *)
Inductive ImporterValidatorDefinition :=
| RequiredValidatorDefinition (when : option (SheetRow → bool))
| IncludesValidatorDefinition (values : list ImporterOutputFieldType)
| CustomValidatorDefinition
    (validateFn : ImporterOutputFieldType → SheetRow → ImporterValidatorOutput).

(** [v.validate === 'required'] *)
Definition validateIsRequired (v : ImporterValidatorDefinition) : bool :=
  match v with RequiredValidatorDefinition _ => true | _ => false end.

(** [(v as RequiredValidatorDefinition).when == null] *)
Definition whenIsNull (v : ImporterValidatorDefinition) : bool :=
  match v with
  | RequiredValidatorDefinition (Some _) => false
  | _ => true
  end.

Inductive ImporterTransformerDefinition :=
| CustomTransformerDefinition
    (transformFn : ImporterOutputFieldType → ImporterOutputFieldType).

Record Transformer := mkTransformer {
  transform : ImporterOutputFieldType → ImporterOutputFieldType
}.

Record SelectOption := mkSelectOption {
  so_label : string;
  so_value : ImporterOutputFieldType
}.

(** The column's [type] together with its [typeArguments]. *)
Inductive ColumnType :=
| TypeString
| TypeNumber
| TypeBoolean
| TypeEnum (values : list SelectOption)
| TypeReference (sheetId : string) (sheetColumnId : string).

Record SheetColumnDefinition := mkColumn {
  col_id : string;
  col_type : ColumnType;
  col_validators : option (list ImporterValidatorDefinition);
  col_transformers : option (list ImporterTransformerDefinition)
}.

Record SheetDefinition := mkSheet {
  sd_id : string;
  sd_columns : list SheetColumnDefinition
}.

Record ImporterValidationError := mkError {
  ve_sheetId : string;
  ve_columnId : string;
  ve_rowIndex : nat;
  ve_message : string
}.

#[global] Instance ImporterValidationError_eq_dec : EqDecision ImporterValidationError.
Proof. solve_decision. Defined.

(** ** Collaborators that live outside the engine

    The engine calls helpers of [utils], [sheet/utils] and the definition
    registries.  The engine's properties are stated for any implementation of
    them. *)
Class Collaborators := {
  hasData : SheetRow → bool;
  isEmptyCell : ImporterOutputFieldType → bool;
  buildValidatorFromDefinition : ImporterValidatorDefinition → Validator;
  buildTransformerFromDefinition : ImporterTransformerDefinition → Transformer;
  extractReferenceColumnPossibleValues :
    SheetColumnDefinition → list SheetState → list ImporterOutputFieldType
}.

(** ** validators/index.ts *)

Section Validation.
Context `{Collaborators}.

Definition fieldIsRequired (columnDefinition : SheetColumnDefinition)
    (skipConditionCheck : bool) : bool :=
  match col_validators columnDefinition with
  | Some ((_ :: _) as validators) =>
      match List.find validateIsRequired validators with
      | Some isRequired =>
          if skipConditionCheck then true else whenIsNull isRequired
      | None => false
      end
  | _ => false
  end.

Definition automaticFieldValidators (columnDefinition : SheetColumnDefinition)
    (allData : list SheetState) : list ImporterValidatorDefinition :=
  match col_type columnDefinition with
  | TypeEnum values => [IncludesValidatorDefinition (so_value <$> values)]
  | TypeReference _ _ =>
      [IncludesValidatorDefinition
         (extractReferenceColumnPossibleValues columnDefinition allData)]
  | _ => []
  end.

(** [[...(columnDefinition.validators ?? []), ...automaticFieldValidators(..)]] *)
Definition validatorDefinitions (columnDefinition : SheetColumnDefinition)
    (allData : list SheetState) : list ImporterValidatorDefinition :=
  default [] (col_validators columnDefinition)
    ++ automaticFieldValidators columnDefinition allData.

(** The object built by [eachWithObject]: one entry per column id; a later
    column with the same id overwrites the entry of an earlier one. *)
Definition validatorsByColumnId (sheetDefinition : SheetDefinition)
    (allData : list SheetState) : gmap string (list Validator) :=
  foldl (λ obj columnDefinition,
           <[col_id columnDefinition :=
               buildValidatorFromDefinition
                 <$> validatorDefinitions columnDefinition allData]> obj)
        ∅ (sd_columns sheetDefinition).

(** One launched validator evaluation: where its error would go, and how the
    promise [Promise.resolve(v.isValid(value, row))] settles. *)
Record Evaluation := mkEvaluation {
  ev_sheetId : string;
  ev_columnId : string;
  ev_rowIndex : nat;
  ev_result : ImporterValidatorOutput
}.

Definition launch (sheetDefinition : SheetDefinition)
    (columnDefinition : SheetColumnDefinition) (rowIndex : nat) (row : SheetRow)
    (validators : list Validator) : list Evaluation :=
  (λ v, mkEvaluation (sd_id sheetDefinition) (col_id columnDefinition) rowIndex
          (isValid v (rowGet row (col_id columnDefinition)) row)) <$> validators.

(** The evaluations [validateSheet] launches, in launch order. *)
Definition validateSheet_launched (sheetDefinition : SheetDefinition)
    (sheetData : SheetState) (allData : list SheetState) : list Evaluation :=
  let byColumnId := validatorsByColumnId sheetDefinition allData in
  columnDefinition ← sd_columns sheetDefinition;
  concat (imap (λ rowIndex row,
    if negb (hasData row) then []
    else if negb (rowHas row (col_id columnDefinition))
            && negb (fieldIsRequired columnDefinition true) then []
    else launch sheetDefinition columnDefinition rowIndex row
           (default [] (byColumnId !! col_id columnDefinition)))
    (ss_rows sheetData)).

(** The [then] callbacks, run in the order [order]: each non-null result
    pushes one error; a rejected evaluation rejects the join. *)
Fixpoint settleAll (order : list Evaluation) : Settled (list ImporterValidationError) :=
  match order with
  | [] => Fulfilled []
  | ev :: rest =>
      result ← ev_result ev;
      errors ← settleAll rest;
      mret (match result with
            | Some message =>
                mkError (ev_sheetId ev) (ev_columnId ev) (ev_rowIndex ev) message
                  :: errors
            | None => errors
            end)
  end.

(** [validateSheet] when the evaluations resolve in launch order (always the
    case for synchronous validators). *)
Definition validateSheet (sheetDefinition : SheetDefinition)
    (sheetData : SheetState) (allData : list SheetState)
    : Settled (list ImporterValidationError) :=
  settleAll (validateSheet_launched sheetDefinition sheetData allData).

(** [sheetStates.find((state) => state.sheetId === id)] *)
Definition findSheet (sheetStates : list SheetState) (id : string)
    : option SheetState :=
  List.find (λ state, bool_decide (ss_sheetId state = id)) sheetStates.

Definition applyValidations (sheetDefinitions : list SheetDefinition)
    (sheetStates : list SheetState) : Settled (list ImporterValidationError) :=
  let promises :=
    (λ sheetDefinition,
       match findSheet sheetStates (sd_id sheetDefinition) with
       | Some sheetData => validateSheet sheetDefinition sheetData sheetStates
       | None => Fulfilled []
       end) <$> sheetDefinitions in
  allErrors ← promiseAll promises;
  mret (concat allErrors).

Definition validateSpecificRows_launched (sheetDefinition : SheetDefinition)
    (sheetData : SheetState) (allData : list SheetState)
    (rowIndices : gset nat) : list Evaluation :=
  let byColumnId := validatorsByColumnId sheetDefinition allData in
  columnDefinition ← sd_columns sheetDefinition;
  concat (imap (λ rowIndex row,
    if negb (bool_decide (rowIndex ∈ rowIndices)) then []
    else if negb (hasData row) then []
    else if negb (rowHas row (col_id columnDefinition))
            && negb (fieldIsRequired columnDefinition true) then []
    else launch sheetDefinition columnDefinition rowIndex row
           (default [] (byColumnId !! col_id columnDefinition)))
    (ss_rows sheetData)).

Definition validateSpecificRows (sheetDefinition : SheetDefinition)
    (sheetData : SheetState) (allData : list SheetState)
    (rowIndices : gset nat) : Settled (list ImporterValidationError) :=
  settleAll
    (validateSpecificRows_launched sheetDefinition sheetData allData rowIndices).

(** The template string [`${sheetId}-${rowIndex}`]. *)
Definition rowKey (sheetId : string) (rowIndex : nat) : string :=
  sheetId +:+ "-" +:+ pretty rowIndex.

(** The set filled by the two nested [forEach] over the dirty-row map. *)
Definition dirtyRowKeys (dirtyRows : gmap string (gset nat)) : gset string :=
  list_to_set
    ('(sheetId, rowIndices) ← map_to_list dirtyRows;
     rowKey sheetId <$> elements rowIndices).

(** The last step of [applyValidationsToSpecificRows]: drop the existing
    errors of dirty rows, then append the new ones. *)
Definition mergeErrors (existingErrors : list ImporterValidationError)
    (dirtyRows : gmap string (gset nat))
    (newErrors : list (list ImporterValidationError))
    : list ImporterValidationError :=
  let keys := dirtyRowKeys dirtyRows in
  let filteredExistingErrors :=
    List.filter (λ error,
      negb (bool_decide (rowKey (ve_sheetId error) (ve_rowIndex error) ∈ keys)))
      existingErrors in
  filteredExistingErrors ++ concat newErrors.

(** The per-sheet promise of [applyValidationsToSpecificRows], given the
    function that validates the chosen rows of one sheet. *)
Definition specificRowsPromise
    (dirtyRows : gmap string (gset nat)) (sheetStates : list SheetState)
    (sheetDefinition : SheetDefinition)
    : option (SheetState * gset nat) :=
  match findSheet sheetStates (sd_id sheetDefinition),
        dirtyRows !! sd_id sheetDefinition with
  | Some sheetData, Some dirtyRowIndices =>
      if bool_decide (0 < size dirtyRowIndices)
      then Some (sheetData, dirtyRowIndices) else None
  | _, _ => None
  end.

Definition applyValidationsToSpecificRows
    (sheetDefinitions : list SheetDefinition) (sheetStates : list SheetState)
    (existingErrors : list ImporterValidationError)
    (dirtyRows : gmap string (gset nat))
    : Settled (list ImporterValidationError) :=
  let promises :=
    (λ sheetDefinition,
       match specificRowsPromise dirtyRows sheetStates sheetDefinition with
       | Some (sheetData, dirtyRowIndices) =>
           validateSpecificRows sheetDefinition sheetData sheetStates
             dirtyRowIndices
       | None => Fulfilled []
       end) <$> sheetDefinitions in
  newErrors ← promiseAll promises;
  mret (mergeErrors existingErrors dirtyRows newErrors).

End Validation.

(** ** transformers/index.ts *)

Section Transformation.
Context `{Collaborators}.

(** [class Pipeline]: a series of transformations. *)
Record Pipeline := mkPipeline {
  steps : list Transformer
}.

(** [Pipeline.push] *)
Definition Pipeline_push (pipeline : Pipeline) (step : Transformer) : Pipeline :=
  mkPipeline (steps pipeline ++ [step]).

(** [Pipeline.transform]: the steps are applied one after the other, the
    first pushed first. *)
Definition Pipeline_transform (pipeline : Pipeline)
    (value : ImporterOutputFieldType) : ImporterOutputFieldType :=
  foldl (λ current step, transform step current) value (steps pipeline).

Definition buildPipelineByColumnId (sheetDefinition : SheetDefinition)
    : gmap string Pipeline :=
  foldl (λ obj columnDefinition,
           <[col_id columnDefinition :=
               match col_transformers columnDefinition with
               | None => mkPipeline []
               | Some transformers =>
                   foldl (λ pipeline transformerDefinition,
                            Pipeline_push pipeline
                              (buildTransformerFromDefinition
                                 transformerDefinition))
                         (mkPipeline []) transformers
               end]> obj)
        ∅ (sd_columns sheetDefinition).

(** [pipelineByColumnId[columnId]], for a [columnId] that has an entry.  The
    source looks up the column ids of the sheet definition the pipelines were
    built from, each of which has an entry; on a map without the entry it
    would read [undefined] and throw at [.transform], which the default does
    not model: the properties below are about maps that have an entry for
    every column id of the sheet definition (see [coversColumns]). *)
Definition pipelineOf (pipelineByColumnId : gmap string Pipeline)
    (columnId : string) : Pipeline :=
  default (mkPipeline []) (pipelineByColumnId !! columnId).

Definition transformRow (row : SheetRow)
    (pipelineByColumnId : gmap string Pipeline)
    (sheetDefinition : SheetDefinition) : SheetRow :=
  if negb (hasData row) then row
  else
    foldl (λ (transformedRow : SheetRow) columnDefinition,
             let columnId := col_id columnDefinition in
             let pipeline := pipelineOf pipelineByColumnId columnId in
             let cellValue := rowGet transformedRow columnId in
             if negb (isEmptyCell cellValue)
             then <[columnId := Pipeline_transform pipeline cellValue]>
                    transformedRow
             else transformedRow)
          row (sd_columns sheetDefinition).

Definition applyTransformationsToSingleRow
    (sheetDefinitions : list SheetDefinition) (sheetStates : list SheetState)
    (targetSheetId : string) (targetRowIndex : nat) : list SheetState :=
  (λ sheetState,
     if negb (bool_decide (ss_sheetId sheetState = targetSheetId))
     then sheetState
     else
       match List.find (λ def, bool_decide (sd_id def = targetSheetId))
               sheetDefinitions with
       | None => sheetState
       | Some sheetDefinition =>
           let pipelineByColumnId := buildPipelineByColumnId sheetDefinition in
           let newRows := ss_rows sheetState in
           match newRows !! targetRowIndex with
           | Some targetRow =>
               mkSheetState (ss_sheetId sheetState)
                 (<[targetRowIndex :=
                      transformRow targetRow pipelineByColumnId
                        sheetDefinition]> newRows)
           | None => mkSheetState (ss_sheetId sheetState) newRows
           end
       end) <$> sheetStates.

(** One turn of the column loop of [transformRow]. *)
Definition transformCell (pipelineByColumnId : gmap string Pipeline)
    (transformedRow : SheetRow) (columnDefinition : SheetColumnDefinition)
    : SheetRow :=
  let columnId := col_id columnDefinition in
  let cellValue := rowGet transformedRow columnId in
  if negb (isEmptyCell cellValue)
  then <[columnId := Pipeline_transform (pipelineOf pipelineByColumnId columnId)
                       cellValue]> transformedRow
  else transformedRow.

(** The steps of the pipeline of a column: its transformer definitions, built
    in their order. *)
Definition columnSteps (columnDefinition : SheetColumnDefinition)
    : list Transformer :=
  buildTransformerFromDefinition <$> default [] (col_transformers columnDefinition).

End Transformation.

(** ** importer/state.tsx: the importer state and its actions *)

(** The next four types are declared in [types], outside the engine; the
    engine only carries their values around. *)
Record ParsedFile := mkParsedFile {
  pf_fields : list string;
  pf_data : list (gmap string string)
}.

Record File := mkFile { file_name : string }.

Record ColumnMapping := mkColumnMapping {
  cm_csvColumnName : string;
  cm_sheetId : string;
  cm_sheetColumnId : string
}.

Record ImportStatistics := mkImportStatistics {
  is_imported : nat;
  is_failed : nat;
  is_skipped : nat
}.

Inductive ImporterMode :=
| upload | mapping | preview | submit | completed | failed.

Record ImporterState := mkImporterState {
  sheetDefinitions : list SheetDefinition;
  currentSheetId : string;
  mode : ImporterMode;
  validationErrors : list ImporterValidationError;
  sheetData : list SheetState;
  parsedFile : option ParsedFile;
  rowFile : option File;
  columnMappings : option (list ColumnMapping);
  importProgress : nat;
  validationInProgress : option bool;
  validationRunId : option string;
  importStatistics : option ImportStatistics;
  dirtyRows : option (gmap string (gset nat))
}.

(** [{ ...state, validationErrors }] *)
Definition withValidationErrors (state : ImporterState)
    (errors : list ImporterValidationError) : ImporterState :=
  mkImporterState (sheetDefinitions state) (currentSheetId state) (mode state)
    errors (sheetData state) (parsedFile state) (rowFile state)
    (columnMappings state) (importProgress state) (validationInProgress state)
    (validationRunId state) (importStatistics state) (dirtyRows state).

Record CellChangedPayload := mkCellChangedPayload {
  cc_sheetId : string;
  cc_rowIndex : nat;
  cc_value : SheetRow
}.

Record RemoveRowsPayload := mkRemoveRowsPayload {
  rr_sheetId : string;
  rr_rows : list SheetRow
}.

Inductive ImporterAction :=
| ENTER_DATA_MANUALLY (amountOfEmptyRowsToAdd : nat)
| FILE_PARSED (parsed : ParsedFile) (rowFile : File)
| UPLOAD
| COLUMN_MAPPING_CHANGED (mappings : list ColumnMapping)
| DATA_MAPPED (mappedData : list SheetState)
| CELL_CHANGED (payload : CellChangedPayload)
| REMOVE_ROWS (payload : RemoveRowsPayload)
| ADD_EMPTY_ROW
| SHEET_CHANGED (sheetId : string)
| SUBMIT
| PROGRESS (progress : nat)
| COMPLETED (importStatistics : option ImportStatistics)
| FAILED
| PREVIEW
| MAPPING
| RESET
| SET_STATE (state : ImporterState)
| VALIDATION_STARTED (runId : string)
| VALIDATION_COMPLETED (errors : list ImporterValidationError) (runId : string).

Record PersistenceConfig := mkPersistenceConfig {
  enabled : bool;
  customKey : option string
}.

(** The persistence collaborator ([importer/storage]): how a load settles,
    and whether a save throws. *)
Class Storage := {
  getIndexedDBState :
    list SheetDefinition → option string → Settled (option ImporterState);
  setIndexedDBState : ImporterState → option string → Settled unit
}.

(** [buildInitialState]; [None] stands for the [TypeError] of reading [.id] of
    [sheetDefinitions[0]] when the list is empty. *)
Definition buildInitialState (sheetDefinitions : list SheetDefinition)
    : option ImporterState :=
  first ← sheetDefinitions !! 0;
  Some {|
    sheetDefinitions := sheetDefinitions;
    currentSheetId := sd_id first;
    mode := upload;
    validationErrors := [];
    validationInProgress := Some false;
    sheetData := (λ sheet, mkSheetState (sd_id sheet) []) <$> sheetDefinitions;
    importProgress := 0;
    parsedFile := None;
    rowFile := None;
    columnMappings := None;
    validationRunId := None;
    importStatistics := None;
    dirtyRows := None
  |}.

Section BuildState.
Context `{Storage}.

(** An exception thrown in an [async] function rejects its promise. *)
Definition thrown {A} (result : option A) : Settled A :=
  match result with Some a => Fulfilled a | None => Rejected end.

Definition buildStateWithIndexedDB (sheetDefinitions : list SheetDefinition)
    (persistenceConfig : PersistenceConfig) : Settled ImporterState :=
  state ← getIndexedDBState sheetDefinitions (customKey persistenceConfig);
  match state with
  | Some state => Fulfilled state
  | None =>
      newState ← thrown (buildInitialState sheetDefinitions);
      _ ← setIndexedDBState newState (customKey persistenceConfig);
      Fulfilled newState
  end.

Definition buildState (sheetDefinitions : list SheetDefinition)
    (persistenceConfig : PersistenceConfig) : Settled ImporterState :=
  defaultState ← thrown (buildInitialState sheetDefinitions);
  (* try *)
  match (if negb (enabled persistenceConfig) then Fulfilled defaultState
         else buildStateWithIndexedDB sheetDefinitions persistenceConfig) with
  | Fulfilled state => Fulfilled state
  | Rejected => (* catch *) Fulfilled defaultState
  end.

End BuildState.

(** ** importer/state.tsx: the state builders *)

Section StateBuilder.
Context `{Collaborators}.
Variable reducer : ImporterState → ImporterAction → ImporterState.

(** [class StateBuilder]; [importerDefinition] is kept by its [sheets]. *)
Record StateBuilder := mkStateBuilder {
  initialState : ImporterState;
  importerDefinition_sheets : list SheetDefinition;
  buildSteps : list ImporterAction
}.

(** The state after [buildSteps.forEach((step) => state = reducer(state, step))]. *)
Definition foldedState (builder : StateBuilder) : ImporterState :=
  foldl reducer (initialState builder) (buildSteps builder).

(** [state.dirtyRows && Array.from(state.dirtyRows.values()).some((set) => set.size > 0)] *)
Definition hasDirtyRows (state : ImporterState) : bool :=
  match dirtyRows state with
  | Some dirtyRows =>
      existsb (λ entry, bool_decide (0 < size (entry.2 : gset nat)))
        (map_to_list dirtyRows)
  | None => false
  end.

(** The validation run [getState] starts on the folded state. *)
Definition chosenValidation (builder : StateBuilder) (state : ImporterState)
    : Settled (list ImporterValidationError) :=
  if hasDirtyRows state
  then applyValidationsToSpecificRows (importerDefinition_sheets builder)
         (sheetData state) (validationErrors state)
         (default ∅ (dirtyRows state))
  else applyValidations (importerDefinition_sheets builder) (sheetData state).

(** [getState], the evaluations resolving in launch order.  The promise it
    returns is always fulfilled. *)
Definition getState (builder : StateBuilder) : ImporterState :=
  let state := foldedState builder in
  let validationErrors :=
    catch (chosenValidation builder state) (validationErrors state) in
  withValidationErrors state validationErrors.

(** [changeCell], [removeRows], [setMappings], [setEnterDataManually]. *)
Definition pushStep (builder : StateBuilder) (step : ImporterAction)
    : StateBuilder :=
  mkStateBuilder (initialState builder) (importerDefinition_sheets builder)
    (buildSteps builder ++ [step]).

(** *** The interactive builder and the event loop around it *)

(** [class InnerStateBuilder extends StateBuilder]; the id of a pending
    timeout is never falsy. *)
Record InnerStateBuilder := mkInnerStateBuilder {
  base : StateBuilder;
  validationTimeoutId : option positive
}.

(** [actionTypesThatRequireValidation.has(step.type)] *)
Definition requiresValidation (step : ImporterAction) : bool :=
  match step with
  | DATA_MAPPED _ | CELL_CHANGED _ | REMOVE_ROWS _ => true
  | _ => false
  end.

(** A scheduled timeout: its id and the [runId] its callback captured. *)
Record Timeout := mkTimeout {
  timeout_id : positive;
  timeout_runId : string
}.

(** A [runValidation] call suspended at [await this.getState()]: the
    [runId] it was called with and the state [getState] will resolve to. *)
Record PendingValidation := mkPendingValidation {
  pending_runId : string;
  pending_finalState : ImporterState
}.

(** What surrounds the builder: the state held by the reducer hook that
    [dispatch] feeds, the history of dispatches (each action with the state it
    was applied to), the timeouts not yet fired nor cleared, and the
    validations in flight. *)
Record Runtime := mkRuntime {
  store : ImporterState;
  history : list (ImporterState * ImporterAction);
  orchestrator : InnerStateBuilder;
  timeouts : list Timeout;
  nextTimeoutId : positive;
  inFlight : list PendingValidation
}.

(** [dispatch(action)] *)
Definition dispatch (action : ImporterAction) (w : Runtime) : Runtime :=
  mkRuntime (reducer (store w) action) (history w ++ [(store w, action)])
    (orchestrator w) (timeouts w) (nextTimeoutId w) (inFlight w).

(** [clearTimeout(id)] *)
Definition clearTimeout (id : positive) (timeouts : list Timeout)
    : list Timeout :=
  List.filter (λ t, negb (bool_decide (timeout_id t = id))) timeouts.

(** [dispatchChange(dispatch)], given the id [generateValidationRunId()]
    returns. *)
Definition dispatchChange (runId : string) (w : Runtime) : Runtime :=
  let steps := buildSteps (base (orchestrator w)) in
  let shouldValidate := existsb requiresValidation steps in
  let w1 := if shouldValidate then dispatch (VALIDATION_STARTED runId) w else w in
  let w2 := foldl (λ w step, dispatch step w) w1 steps in
  if shouldValidate then
    let cleared :=
      match validationTimeoutId (orchestrator w2) with
      | Some id => clearTimeout id (timeouts w2)
      | None => timeouts w2
      end in
    let id := nextTimeoutId w2 in
    mkRuntime (store w2) (history w2)
      (mkInnerStateBuilder (base (orchestrator w2)) (Some id))
      (cleared ++ [mkTimeout id runId]) (Pos.succ id) (inFlight w2)
  else w2.

(** The callback of a timeout fires: [runValidation] starts and suspends at
    [await this.getState()], then [validationTimeoutId] is reset. *)
Definition timeoutFires (id : positive) (w : Runtime) : option Runtime :=
  t ← List.find (λ t, bool_decide (timeout_id t = id)) (timeouts w);
  Some (mkRuntime (store w) (history w)
          (mkInnerStateBuilder (base (orchestrator w)) None)
          (clearTimeout id (timeouts w)) (nextTimeoutId w)
          (inFlight w
             ++ [mkPendingValidation (timeout_runId t)
                   (getState (base (orchestrator w)))])).

(** The [k]-th validation in flight resumes and dispatches its result. *)
Definition validationResumes (k : nat) (w : Runtime) : option Runtime :=
  p ← inFlight w !! k;
  Some (dispatch
          (VALIDATION_COMPLETED (validationErrors (pending_finalState p))
             (pending_runId p))
          (mkRuntime (store w) (history w) (orchestrator w) (timeouts w)
             (nextTimeoutId w) (delete k (inFlight w)))).

(** A method of the builder that pushes build steps. *)
Definition push (steps : list ImporterAction) (w : Runtime) : Runtime :=
  mkRuntime (store w) (history w)
    (mkInnerStateBuilder
       (foldl pushStep (base (orchestrator w)) steps)
       (validationTimeoutId (orchestrator w)))
    (timeouts w) (nextTimeoutId w) (inFlight w).

(** What can happen next: a call of one of the builder's methods (with what
    the parser, the mapper or the id generator returned), a timeout firing,
    a validation in flight finishing. *)
Inductive Event :=
| UploadFile (parsed : ParsedFile) (file : File) (mappings : list ColumnMapping)
| SetEnterDataManually (amountOfEmptyRowsToAdd : nat)
| SetMappings (mappings : list ColumnMapping)
| ConfirmMappings (mappedData : list SheetState)
| ChangeCell (payload : CellChangedPayload)
| RemoveRows (payload : RemoveRowsPayload)
| DispatchChange (runId : string)
| TimeoutFires (id : positive)
| ValidationResumes (k : nat).

Definition step (w : Runtime) (event : Event) : option Runtime :=
  match event with
  | UploadFile parsed file mappings =>
      Some (push [FILE_PARSED parsed file; COLUMN_MAPPING_CHANGED mappings] w)
  | SetEnterDataManually amount => Some (push [ENTER_DATA_MANUALLY amount] w)
  | SetMappings mappings => Some (push [COLUMN_MAPPING_CHANGED mappings] w)
  | ConfirmMappings mappedData => Some (push [DATA_MAPPED mappedData] w)
  | ChangeCell payload => Some (push [CELL_CHANGED payload] w)
  | RemoveRows payload => Some (push [REMOVE_ROWS payload] w)
  | DispatchChange runId => Some (dispatchChange runId w)
  | TimeoutFires id => timeoutFires id w
  | ValidationResumes k => validationResumes k w
  end.

Fixpoint run (w : Runtime) (events : list Event) : option Runtime :=
  match events with
  | [] => Some w
  | event :: events' => w' ← step w event; run w' events'
  end.

(** A runtime around a fresh [InnerStateBuilder]. *)
Definition newRuntime (sheets : list SheetDefinition)
    (state : ImporterState) : Runtime :=
  mkRuntime state []
    (mkInnerStateBuilder (mkStateBuilder state sheets []) None)
    [] 1%positive [].

End StateBuilder.

(** ** The collaborators, as the specification describes them *)

Module SpecModel.

(** Modelled from the spec: [isEmptyCell] ([utils]) is not among the sources;
    a cell is empty when it holds no value: [undefined] or the empty text. *)
Definition isEmptyCell (value : ImporterOutputFieldType) : bool :=
  match value with
  | FUndefined => true
  | FText s => bool_decide (s = "")
  | _ => false
  end.

(** Modelled from the spec: [hasData] ([utils/functional]) is not among the
    sources; a row has data when at least one of its cells is non-empty. *)
Definition hasData (row : SheetRow) : bool :=
  existsb (λ entry, negb (isEmptyCell entry.2)) (map_to_list row).

Definition requiredMessage : string := "validators.required".
Definition includesMessage : string := "validators.includes".

(** Modelled from the spec: the validator registry
    ([validator_definitions]) is not among the sources.  A [required]
    validator applies when it has no [when] predicate or the predicate holds
    of the row, and then fails on an empty cell; an [includes] validator
    rejects any value not in its allowed set and accepts every value in it; a
    [custom] validator is the user's function. *)
Definition buildValidatorFromDefinition
    (definition : ImporterValidatorDefinition) : Validator :=
  match definition with
  | RequiredValidatorDefinition when =>
      mkValidator (λ value row,
        if negb (default (λ _, true) when row) then Fulfilled None
        else if isEmptyCell value then Fulfilled (Some requiredMessage)
        else Fulfilled None)
  | IncludesValidatorDefinition values =>
      mkValidator (λ value _,
        if bool_decide (value ∈ values) then Fulfilled None
        else Fulfilled (Some includesMessage))
  | CustomValidatorDefinition validateFn => mkValidator validateFn
  end.

(** Modelled from the spec: the transformer registry
    ([transformer_definitions]) is not among the sources; a [custom]
    transformer is the user's pure function. *)
Definition buildTransformerFromDefinition
    (definition : ImporterTransformerDefinition) : Transformer :=
  match definition with
  | CustomTransformerDefinition transformFn => mkTransformer transformFn
  end.

(** Modelled from the spec: [extractReferenceColumnPossibleValues]
    ([sheet/utils]) is not among the sources; it scans all sheets for the
    referenced column and collects that column's distinct present values. *)
Definition extractReferenceColumnPossibleValues
    (columnDefinition : SheetColumnDefinition) (allData : list SheetState)
    : list ImporterOutputFieldType :=
  match col_type columnDefinition with
  | TypeReference sheetId sheetColumnId =>
      remove_dups
        (sheetState ← allData;
         if bool_decide (ss_sheetId sheetState = sheetId)
         then List.filter (λ value, negb (isEmptyCell value))
                ((λ row, rowGet row sheetColumnId) <$> ss_rows sheetState)
         else [])
  | _ => []
  end.

Definition collaborators : Collaborators :=
  Build_Collaborators hasData isEmptyCell buildValidatorFromDefinition
    buildTransformerFromDefinition extractReferenceColumnPossibleValues.

Definition withMode (state : ImporterState) (mode' : ImporterMode)
    : ImporterState :=
  mkImporterState (sheetDefinitions state) (currentSheetId state) mode'
    (validationErrors state) (sheetData state) (parsedFile state)
    (rowFile state) (columnMappings state) (importProgress state)
    (validationInProgress state) (validationRunId state)
    (importStatistics state) (dirtyRows state).

Definition withSheetData (state : ImporterState) (data : list SheetState)
    (dirty : option (gmap string (gset nat))) : ImporterState :=
  mkImporterState (sheetDefinitions state) (currentSheetId state) (mode state)
    (validationErrors state) data (parsedFile state) (rowFile state)
    (columnMappings state) (importProgress state) (validationInProgress state)
    (validationRunId state) (importStatistics state) dirty.

(** Apply [f] to the rows of the sheet [sheetId]. *)
Definition onSheet (sheetId : string) (f : list SheetRow → list SheetRow)
    (data : list SheetState) : list SheetState :=
  (λ sheetState,
     if bool_decide (ss_sheetId sheetState = sheetId)
     then mkSheetState (ss_sheetId sheetState) (f (ss_rows sheetState))
     else sheetState) <$> data.

(** Mark (sheetId, rowIndex) dirty. *)
Definition markDirty (sheetId : string) (rowIndex : nat)
    (dirty : option (gmap string (gset nat))) : gmap string (gset nat) :=
  let current := default ∅ dirty in
  <[sheetId := {[rowIndex]} ∪ default ∅ (current !! sheetId)]> current.

(** Modelled from the spec: the reducer ([importer/reducer]) is not among the
    sources.  Each action has the effect the specification's action table
    gives it, on the fields the table names and on no other; in particular
    VALIDATION_STARTED sets [validationInProgress] and records the run id,
    and VALIDATION_COMPLETED applies the errors and clears
    [validationInProgress] only if its run id is the one the state holds. *)
Definition reducer (state : ImporterState) (action : ImporterAction)
    : ImporterState :=
  match action with
  | ENTER_DATA_MANUALLY amountOfEmptyRowsToAdd =>
      withMode
        (withSheetData state
           ((λ sheet, mkSheetState (sd_id sheet)
                        (replicate amountOfEmptyRowsToAdd ∅))
              <$> sheetDefinitions state)
           (dirtyRows state))
        preview
  | FILE_PARSED parsed file =>
      mkImporterState (sheetDefinitions state) (currentSheetId state) mapping
        (validationErrors state) (sheetData state) (Some parsed) (Some file)
        (columnMappings state) (importProgress state)
        (validationInProgress state) (validationRunId state)
        (importStatistics state) (dirtyRows state)
  | UPLOAD => withMode state upload
  | COLUMN_MAPPING_CHANGED mappings =>
      mkImporterState (sheetDefinitions state) (currentSheetId state)
        (mode state) (validationErrors state) (sheetData state)
        (parsedFile state) (rowFile state) (Some mappings)
        (importProgress state) (validationInProgress state)
        (validationRunId state) (importStatistics state) (dirtyRows state)
  | DATA_MAPPED mappedData =>
      withMode (withSheetData state mappedData (dirtyRows state)) preview
  | CELL_CHANGED payload =>
      withSheetData state
        (onSheet (cc_sheetId payload)
           (λ rows, <[cc_rowIndex payload := cc_value payload]> rows)
           (sheetData state))
        (Some (markDirty (cc_sheetId payload) (cc_rowIndex payload)
                 (dirtyRows state)))
  | REMOVE_ROWS payload =>
      withSheetData state
        (onSheet (rr_sheetId payload)
           (λ rows, List.filter
                      (λ row, negb (bool_decide (row ∈ rr_rows payload))) rows)
           (sheetData state))
        (dirtyRows state)
  | ADD_EMPTY_ROW =>
      withSheetData state
        (onSheet (currentSheetId state) (λ rows, rows ++ [∅]) (sheetData state))
        (dirtyRows state)
  | SHEET_CHANGED sheetId =>
      mkImporterState (sheetDefinitions state) sheetId (mode state)
        (validationErrors state) (sheetData state) (parsedFile state)
        (rowFile state) (columnMappings state) (importProgress state)
        (validationInProgress state) (validationRunId state)
        (importStatistics state) (dirtyRows state)
  | SUBMIT => withMode state submit
  | PROGRESS progress =>
      mkImporterState (sheetDefinitions state) (currentSheetId state)
        (mode state) (validationErrors state) (sheetData state)
        (parsedFile state) (rowFile state) (columnMappings state) progress
        (validationInProgress state) (validationRunId state)
        (importStatistics state) (dirtyRows state)
  | COMPLETED statistics =>
      mkImporterState (sheetDefinitions state) (currentSheetId state) completed
        (validationErrors state) (sheetData state) (parsedFile state)
        (rowFile state) (columnMappings state) (importProgress state)
        (validationInProgress state) (validationRunId state) statistics
        (dirtyRows state)
  | FAILED => withMode state failed
  | PREVIEW => withMode state preview
  | MAPPING => withMode state mapping
  | RESET => default state (buildInitialState (sheetDefinitions state))
  | SET_STATE state' => state'
  | VALIDATION_STARTED runId =>
      mkImporterState (sheetDefinitions state) (currentSheetId state)
        (mode state) (validationErrors state) (sheetData state)
        (parsedFile state) (rowFile state) (columnMappings state)
        (importProgress state) (Some true) (Some runId)
        (importStatistics state) (dirtyRows state)
  | VALIDATION_COMPLETED errors runId =>
      if bool_decide (validationRunId state = Some runId)
      then mkImporterState (sheetDefinitions state) (currentSheetId state)
             (mode state) errors (sheetData state) (parsedFile state)
             (rowFile state) (columnMappings state) (importProgress state)
             (Some false) (validationRunId state) (importStatistics state)
             (dirtyRows state)
      else state
  end.

End SpecModel.

(** * Notions used to state the properties *)

(** No ['-'] occurs in the string. *)
Fixpoint dashFree (s : string) : bool :=
  match s with
  | EmptyString => true
  | String c s' => negb (bool_decide (c = "-"%char)) && dashFree s'
  end.

(** The row is dirty: the map has a set for the sheet that holds the index. *)
Definition isDirty (dirtyRows : gmap string (gset nat)) (sheetId : string)
    (rowIndex : nat) : Prop :=
  ∃ rowIndices, dirtyRows !! sheetId = Some rowIndices ∧ rowIndex ∈ rowIndices.

#[global] Instance isDirty_dec dirtyRows sheetId rowIndex :
  Decision (isDirty dirtyRows sheetId rowIndex).
Proof.
  unfold isDirty. destruct (dirtyRows !! sheetId) as [rowIndices|].
  - destruct (decide (rowIndex ∈ rowIndices)) as [Hin|Hnin].
    + left. eauto.
    + right. intros (? & [= <-] & ?). done.
  - right. intros (? & [=] & _).
Defined.

(** Every row index of every sheet state is marked dirty. *)
Definition allRowsDirty (sheetStates : list SheetState)
    (dirtyRows : gmap string (gset nat)) : Prop :=
  Forall (λ sheetState,
    Forall (λ rowIndex, isDirty dirtyRows (ss_sheetId sheetState) rowIndex)
      (seq 0 (length (ss_rows sheetState)))) sheetStates.

(** Every error sits on a dirty row. *)
Definition coveredBy (errors : list ImporterValidationError)
    (dirtyRows : gmap string (gset nat)) : Prop :=
  Forall (λ error, isDirty dirtyRows (ve_sheetId error) (ve_rowIndex error))
    errors.

(** Every per-sheet set of the map is empty. *)
Definition allSetsEmpty (dirtyRows : gmap string (gset nat)) : Prop :=
  map_Forall (λ _ rowIndices, rowIndices = (∅ : gset nat)) dirtyRows.

(** The map names no sheet present in the states. *)
Definition namesNoSheetOf (dirtyRows : gmap string (gset nat))
    (sheetStates : list SheetState) : Prop :=
  Forall (λ sheetState, dirtyRows !! ss_sheetId sheetState = None) sheetStates.

#[global] Instance allRowsDirty_dec sheetStates dirtyRows :
  Decision (allRowsDirty sheetStates dirtyRows).
Proof. unfold allRowsDirty. apply _. Defined.

#[global] Instance coveredBy_dec errors dirtyRows :
  Decision (coveredBy errors dirtyRows).
Proof. unfold coveredBy. apply _. Defined.

#[global] Instance allSetsEmpty_dec dirtyRows : Decision (allSetsEmpty dirtyRows).
Proof. unfold allSetsEmpty. apply _. Defined.

#[global] Instance namesNoSheetOf_dec dirtyRows sheetStates :
  Decision (namesNoSheetOf dirtyRows sheetStates).
Proof. unfold namesNoSheetOf. apply _. Defined.

(** No column id of the sheet definition is the name of a property rows
    inherit: the cells of its columns are read and written through the own
    keys of the rows. *)
Definition plainColumnIds (sheetDefinition : SheetDefinition) : Prop :=
  Forall (λ columnDefinition, inheritedName (col_id columnDefinition) = false)
    (sd_columns sheetDefinition).

#[global] Instance plainColumnIds_dec sheetDefinition :
  Decision (plainColumnIds sheetDefinition).
Proof. unfold plainColumnIds. apply _. Defined.

(** The map has a pipeline for every column id of the sheet definition. *)
Definition coversColumns (pipelineByColumnId : gmap string Pipeline)
    (sheetDefinition : SheetDefinition) : Prop :=
  Forall (λ columnDefinition,
            is_Some (pipelineByColumnId !! col_id columnDefinition))
    (sd_columns sheetDefinition).

#[global] Instance coversColumns_dec pipelineByColumnId sheetDefinition :
  Decision (coversColumns pipelineByColumnId sheetDefinition).
Proof. unfold coversColumns. apply _. Defined.

(** At most one validator definition of the list is a ['required'] one. *)
Definition atMostOneRequired (validators : list ImporterValidatorDefinition)
    : Prop :=
  length (List.filter validateIsRequired validators) ≤ 1.

(** The error is on the cell (columnId, rowIndex). *)
Definition onCell (columnId : string) (rowIndex : nat)
    (e : ImporterValidationError) : Prop :=
  ve_columnId e = columnId ∧ ve_rowIndex e = rowIndex.

#[global] Instance onCell_dec columnId rowIndex e :
  Decision (onCell columnId rowIndex e).
Proof. unfold onCell. apply _. Defined.

(** The dispatched action is a VALIDATION_COMPLETED that the state it met
    accepts: its run id is the one the state holds. *)
Definition appliedCompletion (entry : ImporterState * ImporterAction)
    : option (string * list ImporterValidationError) :=
  match entry with
  | (state, VALIDATION_COMPLETED errors runId) =>
      if bool_decide (validationRunId state = Some runId)
      then Some (runId, errors) else None
  | _ => None
  end.

(** The run ids the id generator returned, in the order of the
    [dispatchChange] calls. *)
Definition generatedRunIds (events : list Event) : list string :=
  omap (λ event,
          match event with DispatchChange runId => Some runId | _ => None end)
       events.

Definition isDispatchChange (event : Event) : bool :=
  match event with DispatchChange _ => true | _ => false end.

Definition isTimeoutFires (event : Event) : bool :=
  match event with TimeoutFires _ => true | _ => false end.

(** A build step of a kind the methods of the builder push. *)
Definition pushedByBuilder (step : ImporterAction) : bool :=
  match step with
  | FILE_PARSED _ _ | COLUMN_MAPPING_CHANGED _ | ENTER_DATA_MANUALLY _
  | DATA_MAPPED _ | CELL_CHANGED _ | REMOVE_ROWS _ => true
  | _ => false
  end.

(** The run ids held by the scheduled timeouts and the validations in
    flight. *)
Definition pendingRunIds (w : Runtime) : list string :=
  (timeout_runId <$> timeouts w) ++ (pending_runId <$> inFlight w).

(** The builder's timeout id is the id of the one scheduled timeout, if any. *)
Definition timeoutRegistered (w : Runtime) : Prop :=
  match validationTimeoutId (orchestrator w) with
  | Some id => ∃ runId, timeouts w = [mkTimeout id runId]
  | None => timeouts w = []
  end.

(** Since the history [before]: the state holds [runId]; the run id is held
    by exactly one timeout or validation in flight, or has been applied
    once; nothing else has been applied; and once it is applied the state
    shows its errors and no validation in progress. *)
Definition awaitingCommit (runId : string)
    (before : list (ImporterState * ImporterAction)) (w : Runtime) : Prop :=
  ∃ later,
    history w = before ++ later
    ∧ validationRunId (store w) = Some runId
    ∧ length (filter (λ r, r = runId) (pendingRunIds w))
      + length (omap appliedCompletion later) = 1
    ∧ (∀ entry, entry ∈ omap appliedCompletion later → entry.1 = runId)
    ∧ match omap appliedCompletion later with
      | [] => True
      | (_, errors) :: _ =>
          validationErrors (store w) = errors
          ∧ validationInProgress (store w) = Some false
      end.

(** Nothing is scheduled and nothing is in flight. *)
Definition quiescent (w : Runtime) : Prop :=
  timeouts w = [] ∧ inFlight w = [].

Section Settling.
Context `{Collaborators}.

(** The error one validator contributes for a cell, if it resolves to a
    message. *)
Definition validatorError (sheetId columnId : string) (rowIndex : nat)
    (value : ImporterOutputFieldType) (row : SheetRow)
    (definition : ImporterValidatorDefinition) : option ImporterValidationError :=
  match isValid (buildValidatorFromDefinition definition) value row with
  | Fulfilled (Some message) => Some (mkError sheetId columnId rowIndex message)
  | _ => None
  end.

(** The error an evaluation pushes when it resolves. *)
Definition evaluationError (ev : Evaluation) : option ImporterValidationError :=
  match ev_result ev with
  | Fulfilled (Some message) =>
      Some (mkError (ev_sheetId ev) (ev_columnId ev) (ev_rowIndex ev) message)
  | _ => None
  end.

(** The evaluation is for the cell (columnId, rowIndex). *)
Definition evaluationOnCell (columnId : string) (rowIndex : nat)
    (ev : Evaluation) : Prop :=
  ev_columnId ev = columnId ∧ ev_rowIndex ev = rowIndex.

#[global] Instance evaluationOnCell_dec columnId rowIndex ev :
  Decision (evaluationOnCell columnId rowIndex ev).
Proof. unfold evaluationOnCell. apply _. Defined.

(** The row is validated for the column: it has data, and the cell is present
    or the column is required (whatever its condition). *)
Definition validatedCell (columnDefinition : SheetColumnDefinition)
    (row : SheetRow) : bool :=
  hasData row
  && (rowHas row (col_id columnDefinition)
      || fieldIsRequired columnDefinition true).

(** Every evaluation an [applyValidationsToSpecificRows] call launches. *)
Definition applyValidationsToSpecificRows_launched
    (sheetDefinitions : list SheetDefinition) (sheetStates : list SheetState)
    (dirtyRows : gmap string (gset nat)) : list Evaluation :=
  sheetDefinition ← sheetDefinitions;
  match specificRowsPromise dirtyRows sheetStates sheetDefinition with
  | Some (sheetData, dirtyRowIndices) =>
      validateSpecificRows_launched sheetDefinition sheetData sheetStates
        dirtyRowIndices
  | None => []
  end.

(** The join of a fan-out may settle to [o]: the callbacks ran in some order
    of the launched evaluations. *)
Definition settlesTo (launched : list Evaluation)
    (o : Settled (list ImporterValidationError)) : Prop :=
  ∃ order, order ≡ₚ launched ∧ o = settleAll order.

(** A way [applyValidations] may settle, for any resolution order inside
    each sheet. *)
Definition applyValidations_settles (sheetDefinitions : list SheetDefinition)
    (sheetStates : list SheetState)
    (o : Settled (list ImporterValidationError)) : Prop :=
  ∃ outs,
    Forall2 (λ sheetDefinition out,
      match findSheet sheetStates (sd_id sheetDefinition) with
      | Some sheetData =>
          settlesTo (validateSheet_launched sheetDefinition sheetData sheetStates) out
      | None => out = Fulfilled []
      end) sheetDefinitions outs
    ∧ o = (allErrors ← promiseAll outs; mret (concat allErrors)).

(** The same for [applyValidationsToSpecificRows]. *)
Definition applyValidationsToSpecificRows_settles
    (sheetDefinitions : list SheetDefinition) (sheetStates : list SheetState)
    (existingErrors : list ImporterValidationError)
    (dirtyRows : gmap string (gset nat))
    (o : Settled (list ImporterValidationError)) : Prop :=
  ∃ outs,
    Forall2 (λ sheetDefinition out,
      match specificRowsPromise dirtyRows sheetStates sheetDefinition with
      | Some (sheetData, dirtyRowIndices) =>
          settlesTo (validateSpecificRows_launched sheetDefinition sheetData
                       sheetStates dirtyRowIndices) out
      | None => out = Fulfilled []
      end) sheetDefinitions outs
    ∧ o = (newErrors ← promiseAll outs;
           mret (mergeErrors existingErrors dirtyRows newErrors)).

(** Both settle the same way, with the same errors up to their order. *)
Definition sameOutcome (o1 o2 : Settled (list ImporterValidationError)) : Prop :=
  match o1, o2 with
  | Fulfilled errors1, Fulfilled errors2 => errors1 ≡ₚ errors2
  | Rejected, Rejected => True
  | _, _ => False
  end.

(** Both settle the same way, with the same set of errors. *)
Definition sameErrorSet (o1 o2 : Settled (list ImporterValidationError)) : Prop :=
  match o1, o2 with
  | Fulfilled errors1, Fulfilled errors2 => ∀ e, e ∈ errors1 ↔ e ∈ errors2
  | Rejected, Rejected => True
  | _, _ => False
  end.

End Settling.

Section GetStateSettling.
Context `{Collaborators}.
Variable reducer : ImporterState → ImporterAction → ImporterState.

(** Every evaluation an [applyValidations] call launches. *)
Definition applyValidations_launched
    (sheetDefinitions : list SheetDefinition) (sheetStates : list SheetState)
    : list Evaluation :=
  sheetDefinition ← sheetDefinitions;
  match findSheet sheetStates (sd_id sheetDefinition) with
  | Some sheetData => validateSheet_launched sheetDefinition sheetData sheetStates
  | None => []
  end.

(** Every evaluation the run chosen by [getState] launches. *)
Definition chosenValidation_launched (builder : StateBuilder)
    (state : ImporterState) : list Evaluation :=
  if hasDirtyRows state
  then applyValidationsToSpecificRows_launched
         (importerDefinition_sheets builder) (sheetData state)
         (default ∅ (dirtyRows state))
  else applyValidations_launched (importerDefinition_sheets builder)
         (sheetData state).

(** A way the run chosen by [getState] may settle. *)
Definition chosenValidation_settles (builder : StateBuilder)
    (state : ImporterState) (o : Settled (list ImporterValidationError)) : Prop :=
  if hasDirtyRows state
  then applyValidationsToSpecificRows_settles
         (importerDefinition_sheets builder) (sheetData state)
         (validationErrors state) (default ∅ (dirtyRows state)) o
  else applyValidations_settles (importerDefinition_sheets builder)
         (sheetData state) o.

(** A state [getState] may resolve to, for any resolution order of the
    validator evaluations. *)
Definition getState_settles (builder : StateBuilder) (result : ImporterState)
    : Prop :=
  let state := foldedState reducer builder in
  ∃ o, chosenValidation_settles builder state o
       ∧ result
         = withValidationErrors state (catch o (validationErrors state)).

End GetStateSettling.

(** * A worked example

    One sheet of people with a text column [name] (to which a transformer
    appends a mark), a required number column [age] and an enum column
    [status]. *)

Module Fixture.

Definition exclaim (value : ImporterOutputFieldType) : ImporterOutputFieldType :=
  match value with FText s => FText (s +:+ "!") | _ => value end.

Definition name : SheetColumnDefinition :=
  mkColumn "name" TypeString None (Some [CustomTransformerDefinition exclaim]).

Definition age : SheetColumnDefinition :=
  mkColumn "age" TypeNumber (Some [RequiredValidatorDefinition None]) None.

Definition status : SheetColumnDefinition :=
  mkColumn "status"
    (TypeEnum [mkSelectOption "Active" (FText "active");
               mkSelectOption "Inactive" (FText "inactive")])
    None None.

Definition people : SheetDefinition := mkSheet "people" [name; age; status].

(** No [age] key. *)
Definition ann : SheetRow := {[ "name" := FText "Ann" ]}.

(** A status outside the enumeration. *)
Definition bob : SheetRow :=
  {[ "name" := FText "Bob"; "age" := FNumber 30; "status" := FText "pending" ]}.

Definition cy : SheetRow :=
  {[ "name" := FText "Cy"; "age" := FNumber 41; "status" := FText "active" ]}.

Definition sheetStates : list SheetState := [mkSheetState "people" [ann; bob; cy]].

Definition everyRow : gmap string (gset nat) := {[ "people" := {[0; 1; 2]} ]}.

Definition staleErrors : list ImporterValidationError :=
  [mkError "people" "age" 1 "stale"].

Definition noRow : gmap string (gset nat) := {[ "people" := ∅ ]}.

(** A map that names a sheet for which there is no sheet state. *)
Definition elsewhere : gmap string (gset nat) := {[ "archive" := {[0]} ]}.

Definition archiveErrors : list ImporterValidationError :=
  [mkError "archive" "age" 0 "old"].

Definition archive : SheetDefinition := mkSheet "archive" [age].

(** A column with two ['required'] definitions, the first conditional. *)
Definition twiceRequired : SheetColumnDefinition :=
  mkColumn "age" TypeNumber
    (Some [RequiredValidatorDefinition (Some (λ _, true));
           RequiredValidatorDefinition None])
    None.

Definition startState : ImporterState :=
  mkImporterState [people] "people" preview [] sheetStates None None None 0
    (Some false) None None None.

Definition edit (rowIndex : nat) (n : Z) : Event :=
  ChangeCell (mkCellChangedPayload "people" rowIndex
                {[ "name" := FText "Ann"; "age" := FNumber n ]}).

(** Three edits dispatched one after the other, before any timeout fires. *)
Definition twoEdits : list Event :=
  [edit 0 1; DispatchChange "run-1"; edit 0 2; DispatchChange "run-2"; edit 0 3].

(** Then the one timeout fires and its validation finishes. *)
Definition settle : list Event := [TimeoutFires 3; ValidationResumes 0].

(** A sheet whose column refers to the names of the people sheet. *)
Definition team : SheetDefinition :=
  mkSheet "team" [mkColumn "lead" (TypeReference "people" "name") None None].

Definition onBob : SheetRow := {[ "lead" := FText "Bob" ]}.

(** A sheet whose only column has a validator that fails to settle. *)
Definition flaky : SheetDefinition :=
  mkSheet "people"
    [mkColumn "name" TypeString
       (Some [CustomValidatorDefinition (λ _ _, Rejected)]) None].

Definition flakyBuilder : StateBuilder :=
  mkStateBuilder
    (mkImporterState [flaky] "people" preview staleErrors sheetStates None None
       None 0 (Some false) None None None)
    [flaky]
    [CELL_CHANGED (mkCellChangedPayload "people" 0 ann)].

(** A storage in which nothing can be loaded. *)
Definition brokenStorage : Storage :=
  Build_Storage (λ _ _, Rejected) (λ _ _, Fulfilled ()).

End Fixture.

(** * The rest of the engine *)

(** ** transformers/index.ts: the whole-sheet transform *)

Section BatchTransformation.
Context `{Collaborators}.

(** One turn of the row loop of [transformSheet], on the row as the earlier
    columns left it. *)
Definition transformSheetCell (pipelineByColumnId : gmap string Pipeline)
    (columnDefinition : SheetColumnDefinition) (row : SheetRow) : SheetRow :=
  if negb (hasData row) then row
  else transformCell pipelineByColumnId row columnDefinition.

(** [transformSheet]: the rows are rewritten in place, column after column;
    the value is the rows after the last column. *)
Definition transformSheet (sheetDefinition : SheetDefinition)
    (sheetData : SheetState) : list SheetRow :=
  let pipelineByColumnId := buildPipelineByColumnId sheetDefinition in
  foldl (λ rows columnDefinition,
           transformSheetCell pipelineByColumnId columnDefinition <$> rows)
        (ss_rows sheetData) (sd_columns sheetDefinition).

(** The position of the sheet state [sheetStates.find] returns. *)
Fixpoint findSheetIndex (sheetStates : list SheetState) (id : string)
    : option nat :=
  match sheetStates with
  | [] => None
  | sheetState :: rest =>
      if bool_decide (ss_sheetId sheetState = id) then Some 0
      else S <$> findSheetIndex rest id
  end.

(** [applyTransformations].  The rows of the sheet states handed in are
    rewritten in place, and each new sheet state holds the row array of the
    sheet state it was made from: [am_store] is what the caller's sheet
    states hold afterwards, [am_made] the new sheet states, each by its id and
    the position of the sheet state whose rows it shares.  The sheet states
    of the list, and their rows, are taken to be distinct objects. *)
Record Transformed := mkTransformed {
  am_store : list SheetState;
  am_made : list (string * nat)
}.

Definition applyTransformations_loop
    (sheetDefinitions : list SheetDefinition) (sheetStates : list SheetState)
    : Transformed :=
  foldl (λ acc sheetDefinition,
           match findSheetIndex (am_store acc) (sd_id sheetDefinition) with
           | Some k =>
               match am_store acc !! k with
               | Some sheetData =>
                   mkTransformed
                     (<[k := mkSheetState (ss_sheetId sheetData)
                               (transformSheet sheetDefinition sheetData)]>
                        (am_store acc))
                     (am_made acc ++ [(sd_id sheetDefinition, k)])
               | None => acc
               end
           | None => acc
           end)
        (mkTransformed sheetStates []) sheetDefinitions.

(** A new sheet state, read in the store: its id, and the rows of the sheet
    state it was made from as they are now. *)
Definition resolveMade (store : list SheetState) (made : string * nat)
    : option SheetState :=
  sheetData ← store !! made.2; Some (mkSheetState made.1 (ss_rows sheetData)).

(** The new sheet states [applyTransformations] returns. *)
Definition applyTransformations (sheetDefinitions : list SheetDefinition)
    (sheetStates : list SheetState) : list SheetState :=
  let done := applyTransformations_loop sheetDefinitions sheetStates in
  omap (resolveMade (am_store done)) (am_made done).

(** What the column loop of [transformSheet] does to one row. *)
Definition transformSheetRow (pipelineByColumnId : gmap string Pipeline)
    (sheetDefinition : SheetDefinition) (row : SheetRow) : SheetRow :=
  foldl (λ row columnDefinition,
           transformSheetCell pipelineByColumnId columnDefinition row)
        row (sd_columns sheetDefinition).

(** No transformer of the sheet turns a row that has data into one that has
    none. *)
Definition keepsData (sheetDefinition : SheetDefinition) : Prop :=
  ∀ row columnDefinition,
    columnDefinition ∈ sd_columns sheetDefinition →
    hasData row = true →
    hasData (transformCell (buildPipelineByColumnId sheetDefinition) row
               columnDefinition) = true.

(** The last column of the list that carries the id. *)
Definition lastColumnWithId (columns : list SheetColumnDefinition)
    (id : string) : option SheetColumnDefinition :=
  List.find (λ c, bool_decide (col_id c = id)) (rev columns).

(** The error is on a cell that exists: a column of a sheet definition and a
    row of the sheet state found for it. *)
Definition wellPlaced (sheetDefinitions : list SheetDefinition)
    (sheetStates : list SheetState) (e : ImporterValidationError) : Prop :=
  ∃ sheetDefinition sheetData columnDefinition,
    sheetDefinition ∈ sheetDefinitions
    ∧ sd_id sheetDefinition = ve_sheetId e
    ∧ findSheet sheetStates (ve_sheetId e) = Some sheetData
    ∧ columnDefinition ∈ sd_columns sheetDefinition
    ∧ col_id columnDefinition = ve_columnId e
    ∧ ve_rowIndex e < length (ss_rows sheetData).

End BatchTransformation.

(** The error is not on a dirty row. *)
Definition notDirty (dirtyRows : gmap string (gset nat))
    (e : ImporterValidationError) : Prop :=
  ¬ isDirty dirtyRows (ve_sheetId e) (ve_rowIndex e).

(** The error is on a dirty row. *)
Definition onDirtyRow (dirtyRows : gmap string (gset nat))
    (e : ImporterValidationError) : Prop :=
  isDirty dirtyRows (ve_sheetId e) (ve_rowIndex e).

#[global] Instance notDirty_dec dirtyRows e : Decision (notDirty dirtyRows e).
Proof. unfold notDirty. apply _. Defined.

#[global] Instance onDirtyRow_dec dirtyRows e : Decision (onDirtyRow dirtyRows e).
Proof. unfold onDirtyRow. apply _. Defined.

(** ** importer/state.tsx: what one [dispatchChange] call dispatches *)

(** [VALIDATION_STARTED] when a build step requires validation, then the
    build steps. *)
Definition dispatched (runId : string) (steps : list ImporterAction)
    : list ImporterAction :=
  (if existsb requiresValidation steps then [VALIDATION_STARTED runId] else [])
  ++ steps.

(** ** More of the worked example *)

Module Scenario.
Import Fixture.

(** A sheet state whose rows hold nothing. *)
Definition blank : list SheetState := [mkSheetState "people" [∅; ∅]].

(** A builder over a state with an old error on row 1, and one edit of
    row 0. *)
Definition editedBuilder : StateBuilder :=
  mkStateBuilder
    (mkImporterState [people] "people" preview staleErrors sheetStates None None
       None 0 (Some false) None None None)
    [people]
    [CELL_CHANGED (mkCellChangedPayload "people" 0 ann)].

(** A storage that holds a state. *)
Definition loadedStorage : Storage :=
  Build_Storage (λ _ _, Fulfilled (Some startState)) (λ _ _, Fulfilled ()).

(** A fresh builder after one edit, and after one change of the mappings. *)
Definition afterEdit : Runtime :=
  push [CELL_CHANGED (mkCellChangedPayload "people" 0 ann)]
    (newRuntime [people] startState).

Definition afterMapping : Runtime :=
  push [COLUMN_MAPPING_CHANGED []] (newRuntime [people] startState).

End Scenario.
(** * Properties *)

(** ** The row key is injective *)

Lemma dashFree_pretty_N_go (x : N) (s : string) :
  dashFree s = true → dashFree (pretty_N_go x s) = true.
Proof.
  revert s. induction (N.lt_wf_0 x) as [x _ IH]. intros s Hs.
  destruct (decide (x = 0)%N) as [->|Hx].
  - by rewrite pretty_N_go_0.
  - rewrite pretty_N_go_step by lia.
    apply IH; [apply N.div_lt; lia|].
    simpl. rewrite Hs, andb_true_r.
    unfold pretty_N_char. by repeat case_match.
Qed.

Lemma dashFree_pretty_nat (n : nat) : dashFree (pretty n) = true.
Proof.
  unfold pretty, pretty_nat, pretty, pretty_N.
  case_decide; [done|]. by apply dashFree_pretty_N_go.
Qed.

Lemma append_nil_l (t : string) : "" +:+ t = t.
Proof. reflexivity. Qed.

Lemma append_cons (c : ascii) (s t : string) :
  String c s +:+ t = String c (s +:+ t).
Proof. reflexivity. Qed.

Lemma dashFree_app_dash (s t : string) :
  dashFree (s +:+ String "-" t) = false.
Proof.
  induction s as [|c s IH].
  - by rewrite append_nil_l.
  - rewrite append_cons. simpl. by rewrite IH, andb_false_r.
Qed.

(** A string splits in only one way around its last ['-']. *)
Lemma app_dash_inj (s1 s2 t1 t2 : string) :
  dashFree t1 = true → dashFree t2 = true →
  s1 +:+ String "-" t1 = s2 +:+ String "-" t2 → s1 = s2 ∧ t1 = t2.
Proof.
  intros Ht1 Ht2. revert s2.
  induction s1 as [|c1 s1 IH]; intros [|c2 s2];
    rewrite ?append_cons, ?append_nil_l; intros Heq; simplify_eq.
  - done.
  - by rewrite dashFree_app_dash in Ht1.
  - by rewrite dashFree_app_dash in Ht2.
  - by destruct (IH s2) as [-> ->].
Qed.

Lemma rowKey_inj (sheetId1 sheetId2 : string) (rowIndex1 rowIndex2 : nat) :
  rowKey sheetId1 rowIndex1 = rowKey sheetId2 rowIndex2 →
  sheetId1 = sheetId2 ∧ rowIndex1 = rowIndex2.
Proof.
  unfold rowKey. intros Heq.
  change (sheetId1 +:+ String "-" (pretty rowIndex1)
          = sheetId2 +:+ String "-" (pretty rowIndex2)) in Heq.
  apply app_dash_inj in Heq as [-> Hp]; auto using dashFree_pretty_nat.
  split; [done|]. by apply (inj pretty).
Qed.

Lemma elem_of_dirtyRowKeys (dirtyRows : gmap string (gset nat))
    (sheetId : string) (rowIndex : nat) :
  rowKey sheetId rowIndex ∈ dirtyRowKeys dirtyRows
  ↔ isDirty dirtyRows sheetId rowIndex.
Proof.
  unfold dirtyRowKeys, isDirty. rewrite elem_of_list_to_set, list_elem_of_bind.
  split.
  - intros ([sheetId' rowIndices] & Hkey & Hentry).
    apply list_elem_of_fmap in Hkey as (rowIndex' & Hkey & Hidx).
    apply rowKey_inj in Hkey as [-> ->].
    apply elem_of_map_to_list in Hentry. apply elem_of_elements in Hidx. eauto.
  - intros (rowIndices & Hentry & Hidx).
    exists (sheetId, rowIndices). split.
    + apply list_elem_of_fmap. exists rowIndex. by rewrite elem_of_elements.
    + by apply elem_of_map_to_list.
Qed.

(** ** Resolution order of a fan-out *)

Section Settling.
Context `{Collaborators}.

#[global] Instance sameOutcome_equiv : Equivalence sameOutcome.
Proof.
  split.
  - intros [?|]; simpl; done.
  - intros [?|] [?|]; simpl; done.
  - intros [?|] [?|] [?|]; simpl; try done. by intros -> ->.
Qed.

Lemma sameOutcome_sameErrorSet o1 o2 : sameOutcome o1 o2 → sameErrorSet o1 o2.
Proof.
  destruct o1, o2; simpl; try done. intros Hp e. by rewrite Hp.
Qed.

Lemma settleAll_Permutation (order1 order2 : list Evaluation) :
  order1 ≡ₚ order2 → sameOutcome (settleAll order1) (settleAll order2).
Proof.
  induction 1 as [|ev l1 l2 _ IH|ev1 ev2 l|l1 l2 l3 _ IH1 _ IH2]; simpl.
  - done.
  - destruct (ev_result ev) as [[message|]|]; simpl; [| |done];
      destruct (settleAll l1), (settleAll l2); simpl in *; try done.
    by constructor.
  - destruct (ev_result ev1) as [[m1|]|], (ev_result ev2) as [[m2|]|];
      simpl; try done; destruct (settleAll l); simpl; try done.
    apply Permutation_swap.
  - by etrans.
Qed.

Lemma settlesTo_sameOutcome (launched : list Evaluation) o :
  settlesTo launched o → sameOutcome o (settleAll launched).
Proof. intros (order & Hp & ->). by apply settleAll_Permutation. Qed.

Lemma settlesTo_launch_order (launched : list Evaluation) :
  settlesTo launched (settleAll launched).
Proof. by exists launched. Qed.

Lemma settlesTo_nil o : settlesTo [] o ↔ o = Fulfilled [].
Proof.
  split.
  - intros (order & Hp & ->). by apply Permutation_nil_r in Hp as ->.
  - intros ->. by exists [].
Qed.

Lemma promiseAll_sameOutcome (outs1 outs2 : list (Settled (list ImporterValidationError))) :
  Forall2 sameOutcome outs1 outs2 →
  sameOutcome (allErrors ← promiseAll outs1; mret (concat allErrors))
              (allErrors ← promiseAll outs2; mret (concat allErrors)).
Proof.
  induction 1 as [|o1 o2 outs1 outs2 Ho _ IH]; simpl; [done|].
  destruct o1 as [e1|], o2 as [e2|]; simpl in *; try done.
  destruct (promiseAll outs1), (promiseAll outs2); simpl in *; try done.
  by f_equiv.
Qed.

Lemma applyValidations_settles_launch_order sheetDefinitions sheetStates :
  applyValidations_settles sheetDefinitions sheetStates
    (applyValidations sheetDefinitions sheetStates).
Proof.
  eexists. split; [|reflexivity].
  apply Forall2_fmap_r, Forall_Forall2_diag, Forall_forall. intros def _.
  simpl. destruct (findSheet _ _); [apply settlesTo_launch_order|done].
Qed.

Lemma applyValidationsToSpecificRows_settles_launch_order
    sheetDefinitions sheetStates existingErrors dirtyRows :
  applyValidationsToSpecificRows_settles sheetDefinitions sheetStates
    existingErrors dirtyRows
    (applyValidationsToSpecificRows sheetDefinitions sheetStates
       existingErrors dirtyRows).
Proof.
  eexists. split; [|reflexivity].
  apply Forall2_fmap_r, Forall_Forall2_diag, Forall_forall. intros def _.
  simpl. destruct (specificRowsPromise _ _ _) as [[??]|];
    [apply settlesTo_launch_order|done].
Qed.

(** Whatever the resolution order, full validation settles like the run in
    launch order, up to the order of the errors. *)
Lemma applyValidations_settles_sameOutcome sheetDefinitions sheetStates o :
  applyValidations_settles sheetDefinitions sheetStates o →
  sameOutcome o (applyValidations sheetDefinitions sheetStates).
Proof.
  intros (outs & Houts & ->). unfold applyValidations.
  apply promiseAll_sameOutcome, Forall2_fmap_r, Forall2_flip.
  eapply Forall2_impl; [exact Houts|]. simpl.
  intros def out Hout. destruct (findSheet _ _).
  - by apply settlesTo_sameOutcome.
  - by subst.
Qed.

End Settling.

(** ** Incremental validation and the merge *)

Section Incremental.
Context `{Collaborators}.

Lemma findSheet_Some (sheetStates : list SheetState) (id : string) sheetData :
  findSheet sheetStates id = Some sheetData →
  sheetData ∈ sheetStates ∧ ss_sheetId sheetData = id.
Proof.
  intros Hfind. apply find_some in Hfind as [Hin Hid].
  split; [by apply list_elem_of_In|]. by apply bool_decide_eq_true in Hid.
Qed.

Lemma findSheet_None (sheetStates : list SheetState) (id : string) sheetData :
  findSheet sheetStates id = None → sheetData ∈ sheetStates →
  ss_sheetId sheetData ≠ id.
Proof.
  intros Hfind Hin Hid. apply list_elem_of_In in Hin.
  pose proof (find_none _ _ Hfind _ Hin) as Hf. simpl in Hf.
  by apply bool_decide_eq_false in Hf.
Qed.

Lemma list_bind_nil_all {A B} (f : A → list B) (l : list A) :
  (∀ x, x ∈ l → f x = []) → l ≫= f = [].
Proof.
  induction l as [|x l IH]; intros Hf; [done|]. rewrite !bind_cons.
  rewrite Hf by left. rewrite IH; [done|]. intros y Hy. apply Hf. by right.
Qed.

Lemma list_bind_ext_in {A B} (f g : A → list B) (l : list A) :
  (∀ x, x ∈ l → f x = g x) → l ≫= f = l ≫= g.
Proof.
  induction l as [|x l IH]; intros Hf; [done|]. rewrite !bind_cons.
  rewrite Hf by left. rewrite IH; [done|]. intros y Hy. apply Hf. by right.
Qed.

(** With every row of the sheet in the set, the row test of
    [validateSpecificRows] never fires. *)
Lemma validateSpecificRows_launched_all sheetDefinition sheetData allData
    (rowIndices : gset nat) :
  (∀ i, i < length (ss_rows sheetData) → i ∈ rowIndices) →
  validateSpecificRows_launched sheetDefinition sheetData allData rowIndices
  = validateSheet_launched sheetDefinition sheetData allData.
Proof.
  intros Hall. unfold validateSpecificRows_launched, validateSheet_launched.
  apply list_bind_ext_in. intros columnDefinition _. f_equal.
  apply imap_ext. intros i row Hrow. simpl.
  rewrite bool_decide_eq_true_2; [done|].
  apply Hall. by eapply lookup_lt_Some.
Qed.

Lemma validateSheet_launched_no_rows sheetDefinition sheetData allData :
  ss_rows sheetData = [] →
  validateSheet_launched sheetDefinition sheetData allData = [].
Proof.
  intros Hrows. unfold validateSheet_launched. rewrite Hrows.
  by apply list_bind_nil_all.
Qed.

Lemma validateSpecificRows_launched_empty sheetDefinition sheetData allData :
  validateSpecificRows_launched sheetDefinition sheetData allData ∅ = [].
Proof.
  unfold validateSpecificRows_launched.
  apply list_bind_nil_all. intros columnDefinition _.
  induction (ss_rows sheetData) as [|row rows IH] using rev_ind; [done|].
  rewrite imap_app, concat_app, IH. simpl.
  by rewrite bool_decide_eq_false_2 by set_solver.
Qed.

(** What the incremental run does for one sheet when every row is dirty: it
    launches what the full run launches. *)
Lemma specificRowsPromise_all_rows sheetStates dirtyRows sheetDefinition :
  allRowsDirty sheetStates dirtyRows →
  match specificRowsPromise dirtyRows sheetStates sheetDefinition with
  | Some (sheetData, dirtyRowIndices) =>
      findSheet sheetStates (sd_id sheetDefinition) = Some sheetData
      ∧ validateSpecificRows_launched sheetDefinition sheetData sheetStates
          dirtyRowIndices
        = validateSheet_launched sheetDefinition sheetData sheetStates
  | None =>
      match findSheet sheetStates (sd_id sheetDefinition) with
      | Some sheetData =>
          validateSheet_launched sheetDefinition sheetData sheetStates = []
      | None => True
      end
  end.
Proof.
  intros Hall. unfold specificRowsPromise.
  destruct (findSheet sheetStates (sd_id sheetDefinition)) as [sheetData|] eqn:Hfind;
    [|done].
  apply findSheet_Some in Hfind as [Hin Hid].
  unfold allRowsDirty in Hall. rewrite Forall_forall in Hall.
  specialize (Hall _ Hin). rewrite Forall_forall, Hid in Hall.
  assert (∀ i, i < length (ss_rows sheetData) →
               isDirty dirtyRows (sd_id sheetDefinition) i) as Hdirty.
  { intros i Hi. apply Hall, elem_of_seq. lia. }
  assert (dirtyRows !! sd_id sheetDefinition = None
          ∨ dirtyRows !! sd_id sheetDefinition = Some ∅ →
          ss_rows sheetData = []) as Hnone.
  { intros Hd. destruct (ss_rows sheetData) as [|row rows]; [done|].
    destruct (Hdirty 0) as (rowIndices & Hlook & Hzero); [simpl; lia|].
    destruct Hd as [Hd|Hd]; rewrite Hd in Hlook; [done|].
    injection Hlook as <-. set_solver. }
  destruct (dirtyRows !! sd_id sheetDefinition) as [rowIndices|] eqn:Hlook.
  - case_bool_decide as Hsize.
    + split; [done|]. apply validateSpecificRows_launched_all.
      intros i Hi. destruct (Hdirty i Hi) as (r & Heq & Hr).
      rewrite Hlook in Heq. by simplify_eq.
    + apply validateSheet_launched_no_rows, Hnone. right. f_equal.
      apply leibniz_equiv, size_empty_iff. lia.
  - apply validateSheet_launched_no_rows, Hnone. by left.
Qed.

Lemma list_filter_bool_decide {A} (P : A → Prop) `{!∀ x, Decision (P x)}
    (l : list A) :
  List.filter (λ x, bool_decide (P x)) l = filter P l.
Proof.
  induction l as [|x l IH]; [done|]. simpl. rewrite filter_cons, IH.
  by destruct (decide (P x)) as [HP|HP];
    [rewrite bool_decide_eq_true_2|rewrite bool_decide_eq_false_2].
Qed.

(** The merge, without the string keys. *)
Lemma mergeErrors_spec existingErrors dirtyRows newErrors :
  mergeErrors existingErrors dirtyRows newErrors
  = filter (λ e, ¬ isDirty dirtyRows (ve_sheetId e) (ve_rowIndex e))
      existingErrors ++ concat newErrors.
Proof.
  unfold mergeErrors. f_equal. rewrite <-list_filter_bool_decide.
  induction existingErrors as [|e errors IH]; [done|]. simpl. rewrite IH.
  assert (negb (bool_decide (rowKey (ve_sheetId e) (ve_rowIndex e)
                               ∈ dirtyRowKeys dirtyRows))
          = bool_decide (¬ isDirty dirtyRows (ve_sheetId e) (ve_rowIndex e)))
    as ->; [|done].
  rewrite <-bool_decide_not. apply bool_decide_ext.
  by rewrite elem_of_dirtyRowKeys.
Qed.

Lemma mergeErrors_covered existingErrors dirtyRows newErrors :
  coveredBy existingErrors dirtyRows →
  mergeErrors existingErrors dirtyRows newErrors = concat newErrors.
Proof.
  intros Hcov. rewrite mergeErrors_spec.
  replace (filter _ existingErrors) with (@nil ImporterValidationError); [done|].
  symmetry. induction Hcov as [|e errors He _ IH]; [done|].
  by rewrite filter_cons_False by tauto.
Qed.

Lemma mergeErrors_untouched existingErrors dirtyRows newErrors :
  Forall (λ e, ¬ isDirty dirtyRows (ve_sheetId e) (ve_rowIndex e))
    existingErrors →
  mergeErrors existingErrors dirtyRows newErrors
  = existingErrors ++ concat newErrors.
Proof.
  intros Hclean. rewrite mergeErrors_spec. f_equal.
  induction Hclean as [|e errors He _ IH]; [done|].
  by rewrite filter_cons_True, IH.
Qed.

(** With every row dirty and every old error on a dirty row, each way the
    incremental run may settle is a way the full run may settle. *)
Lemma applyValidationsToSpecificRows_settles_all_rows
    sheetDefinitions sheetStates existingErrors dirtyRows o :
  allRowsDirty sheetStates dirtyRows →
  coveredBy existingErrors dirtyRows →
  applyValidationsToSpecificRows_settles sheetDefinitions sheetStates
    existingErrors dirtyRows o →
  applyValidations_settles sheetDefinitions sheetStates o.
Proof.
  intros Hall Hcov (outs & Houts & ->). exists outs. split.
  - eapply Forall2_impl; [exact Houts|]. simpl. intros def out Hout.
    pose proof (specificRowsPromise_all_rows sheetStates dirtyRows def Hall) as Hdef.
    destruct (specificRowsPromise _ _ _) as [[sheetData rowIndices]|].
    + destruct Hdef as [-> <-]. done.
    + subst out. destruct (findSheet _ _); [|done].
      rewrite Hdef. by apply settlesTo_nil.
  - destruct (promiseAll outs); simpl; [|done].
    by rewrite mergeErrors_covered.
Qed.

Lemma applyValidationsToSpecificRows_all_rows
    sheetDefinitions sheetStates existingErrors dirtyRows :
  allRowsDirty sheetStates dirtyRows →
  coveredBy existingErrors dirtyRows →
  applyValidationsToSpecificRows sheetDefinitions sheetStates existingErrors
    dirtyRows
  = applyValidations sheetDefinitions sheetStates.
Proof.
  intros Hall Hcov. unfold applyValidationsToSpecificRows, applyValidations.
  match goal with
  | |- (_ ← promiseAll ?ps1; _) = (_ ← promiseAll ?ps2; _) =>
      assert (ps1 = ps2) as ->
  end.
  { apply list_fmap_ext. intros _ def _.
    pose proof (specificRowsPromise_all_rows sheetStates dirtyRows def Hall) as Hdef.
    destruct (specificRowsPromise _ _ _) as [[sheetData rowIndices]|].
    - destruct Hdef as [-> Heq]. unfold validateSpecificRows, validateSheet.
      by rewrite Heq.
    - destruct (findSheet _ _); [|done]. unfold validateSheet. by rewrite Hdef. }
  destruct (promiseAll _); simpl; [|done].
  by rewrite mergeErrors_covered.
Qed.

(** C1.  With a dirty-row map that marks every row index of every sheet
    state, and existing errors that all sit on marked rows, incremental
    validation and full validation agree: run in launch order they return
    the same list, and however the validator evaluations of either run
    resolve, the two runs settle alike with the same set of
    (sheetId, columnId, rowIndex, message) errors. *)
Theorem incremental_all_dirty_agrees_with_full
    sheetDefinitions sheetStates existingErrors dirtyRows :
  allRowsDirty sheetStates dirtyRows →
  coveredBy existingErrors dirtyRows →
  applyValidationsToSpecificRows sheetDefinitions sheetStates existingErrors
    dirtyRows
  = applyValidations sheetDefinitions sheetStates
  ∧ ∀ oFull oIncremental,
      applyValidations_settles sheetDefinitions sheetStates oFull →
      applyValidationsToSpecificRows_settles sheetDefinitions sheetStates
        existingErrors dirtyRows oIncremental →
      sameErrorSet oFull oIncremental.
Proof.
  intros Hall Hcov. split.
  - by apply applyValidationsToSpecificRows_all_rows.
  - intros oFull oInc HFull HInc.
    apply applyValidationsToSpecificRows_settles_all_rows in HInc; [|done..].
    apply sameOutcome_sameErrorSet.
    apply applyValidations_settles_sameOutcome in HFull, HInc.
    by rewrite HFull, HInc.
Qed.

(** C2.  The merge of [applyValidationsToSpecificRows] returns the existing
    errors whose (sheetId, rowIndex) is not in the dirty-row map, unchanged
    and in their original order, followed by the freshly computed errors. *)
Theorem incremental_merge_replaces_dirty_rows
    (sheetDefinitions : list SheetDefinition) (sheetStates : list SheetState)
    (existingErrors : list ImporterValidationError)
    (dirtyRows : gmap string (gset nat)) :
  let kept :=
    filter (λ e, ¬ isDirty dirtyRows (ve_sheetId e) (ve_rowIndex e))
      existingErrors in
  (∀ newErrors,
     mergeErrors existingErrors dirtyRows newErrors = kept ++ concat newErrors)
  ∧ applyValidationsToSpecificRows sheetDefinitions sheetStates existingErrors
      dirtyRows
    = (fresh ← applyValidationsToSpecificRows sheetDefinitions sheetStates []
                 dirtyRows;
       mret (kept ++ fresh))
  ∧ (∀ o,
       applyValidationsToSpecificRows_settles sheetDefinitions sheetStates
         existingErrors dirtyRows o
       ↔ ∃ oFresh,
           applyValidationsToSpecificRows_settles sheetDefinitions sheetStates
             [] dirtyRows oFresh
           ∧ o = (fresh ← oFresh; mret (kept ++ fresh)))
  ∧ kept `sublist_of` existingErrors
  ∧ (∀ e, e ∈ kept
          ↔ e ∈ existingErrors
            ∧ ¬ isDirty dirtyRows (ve_sheetId e) (ve_rowIndex e)).
Proof.
  intros kept. split_and!.
  - intros newErrors. apply mergeErrors_spec.
  - unfold applyValidationsToSpecificRows.
    destruct (promiseAll _) as [newErrors|]; simpl; [|done].
    by rewrite !mergeErrors_spec.
  - intros o. split.
    + intros (outs & Houts & ->). eexists. split; [by exists outs|].
      destruct (promiseAll outs) as [newErrors|]; simpl; [|done].
      by rewrite !mergeErrors_spec.
    + intros (oFresh & (outs & Houts & ->) & ->). exists outs. split; [done|].
      destruct (promiseAll outs) as [newErrors|]; simpl; [|done].
      by rewrite !mergeErrors_spec.
  - apply sublist_filter.
  - intros e. unfold kept. by rewrite list_elem_of_filter, (comm and).
Qed.

Lemma applyValidationsToSpecificRows_launched_nil
    (sheetDefinitions : list SheetDefinition) (sheetStates : list SheetState)
    (dirtyRows : gmap string (gset nat)) :
  allSetsEmpty dirtyRows ∨ namesNoSheetOf dirtyRows sheetStates →
  ∀ sheetDefinition,
    specificRowsPromise dirtyRows sheetStates sheetDefinition = None.
Proof.
  intros Hnothing def. unfold specificRowsPromise.
  destruct (findSheet _ _) as [sheetData|] eqn:Hfind; [|done].
  destruct (dirtyRows !! sd_id def) as [rowIndices|] eqn:Hlook; [|done].
  destruct Hnothing as [Hempty|Hnames].
  - by rewrite (Hempty _ _ Hlook), size_empty.
  - apply findSheet_Some in Hfind as [Hin Hid].
    unfold namesNoSheetOf in Hnames. rewrite Forall_forall in Hnames.
    specialize (Hnames _ Hin). rewrite Hid in Hnames. congruence.
Qed.

(** C9 (amended).  When every per-sheet set of the dirty-row map is empty, or
    the map names no sheet present in the states, the incremental run
    launches no validator evaluation and returns the existing errors that
    are not on a row of the map, in their order; this is the whole list [E],
    element for element, when every set is empty or no error of [E] is on a
    row of the map. *)
Theorem incremental_with_nothing_to_validate
    (sheetDefinitions : list SheetDefinition) (sheetStates : list SheetState)
    (existingErrors : list ImporterValidationError)
    (dirtyRows : gmap string (gset nat)) :
  allSetsEmpty dirtyRows ∨ namesNoSheetOf dirtyRows sheetStates →
  applyValidationsToSpecificRows_launched sheetDefinitions sheetStates dirtyRows
  = []
  ∧ applyValidationsToSpecificRows sheetDefinitions sheetStates existingErrors
      dirtyRows
    = Fulfilled
        (filter (λ e, ¬ isDirty dirtyRows (ve_sheetId e) (ve_rowIndex e))
           existingErrors)
  ∧ (allSetsEmpty dirtyRows
     ∨ Forall (λ e, ¬ isDirty dirtyRows (ve_sheetId e) (ve_rowIndex e))
         existingErrors →
     applyValidationsToSpecificRows sheetDefinitions sheetStates existingErrors
       dirtyRows
     = Fulfilled existingErrors).
Proof.
  intros Hnothing.
  pose proof (applyValidationsToSpecificRows_launched_nil sheetDefinitions
                sheetStates dirtyRows Hnothing) as Hnone.
  assert (applyValidationsToSpecificRows sheetDefinitions sheetStates
            existingErrors dirtyRows
          = Fulfilled (mergeErrors existingErrors dirtyRows
                         (replicate (length sheetDefinitions) []))) as Hrun.
  { unfold applyValidationsToSpecificRows.
    match goal with
    | |- (_ ← promiseAll ?ps; _) = _ =>
        assert (promiseAll ps
                = Fulfilled (replicate (length sheetDefinitions) [])) as ->;
          [|done]
    end.
    induction sheetDefinitions as [|def defs IH]; [done|].
    rewrite fmap_cons, Hnone. simpl. by rewrite IH. }
  assert (concat (replicate (length sheetDefinitions)
                    (@nil ImporterValidationError)) = []) as Hconcat.
  { generalize (length sheetDefinitions). intros n.
    induction n as [|n IH]; [done|]. exact IH. }
  split_and!.
  - unfold applyValidationsToSpecificRows_launched.
    apply list_bind_nil_all. intros def _. by rewrite Hnone.
  - by rewrite Hrun, mergeErrors_spec, Hconcat, app_nil_r.
  - intros Hclean. rewrite Hrun, mergeErrors_untouched, Hconcat, app_nil_r; [done|].
    destruct Hclean as [Hempty|Hclean]; [|done].
    apply Forall_forall. intros e _ (rowIndices & Hlook & Hin).
    rewrite (Hempty _ _ Hlook) in Hin. set_solver.
Qed.

End Incremental.

(** ** fieldIsRequired *)

Section FieldIsRequired.
Context `{Collaborators}.

Lemma find_Some_split {A} (p : A → bool) (l : list A) (x : A) :
  List.find p l = Some x
  ↔ ∃ before after,
      l = before ++ x :: after ∧ Forall (λ y, p y = false) before ∧ p x = true.
Proof.
  induction l as [|y l IH]; simpl.
  - split; [done|]. intros (before & after & Heq & _). by destruct before.
  - destruct (p y) eqn:Hy.
    + split.
      * intros [= <-]. by exists [], l.
      * intros ([|z before] & after & Heq & Hbefore & Hx); simplify_eq/=; [done|].
        apply Forall_cons in Hbefore as [Hz _]. congruence.
    + rewrite IH. split.
      * intros (before & after & -> & Hbefore & Hx).
        exists (y :: before), after. by repeat constructor.
      * intros ([|z before] & after & Heq & Hbefore & Hx); simplify_eq/=;
          [congruence|].
        apply Forall_cons in Hbefore as [_ Hbefore]. eauto.
Qed.

Lemma find_is_Some {A} (p : A → bool) (l : list A) :
  is_Some (List.find p l) ↔ ∃ x, x ∈ l ∧ p x = true.
Proof.
  split.
  - intros [x Hx]. apply find_some in Hx as [Hin Hp].
    exists x. by rewrite list_elem_of_In.
  - intros (x & Hin & Hp). destruct (List.find p l) eqn:Hfind; [done|].
    apply list_elem_of_In in Hin. pose proof (find_none _ _ Hfind _ Hin).
    congruence.
Qed.

Lemma fieldIsRequired_unfold (columnDefinition : SheetColumnDefinition)
    (skipConditionCheck : bool) :
  fieldIsRequired columnDefinition skipConditionCheck
  = match List.find validateIsRequired
            (default [] (col_validators columnDefinition)) with
    | Some isRequired =>
        if skipConditionCheck then true else whenIsNull isRequired
    | None => false
    end.
Proof.
  unfold fieldIsRequired. by destruct (col_validators _) as [[|v l]|].
Qed.

(** C5.  With [skipConditionCheck] true, [fieldIsRequired] holds exactly when
    the column has a validator definition with [validate = 'required'],
    whatever its [when]; with [skipConditionCheck] false (or omitted, which
    reads as false), it holds exactly when such a definition exists and the
    one the lookup finds (the first in the list) has no [when] predicate.
    For a column with at most one ['required'] definition this is: some
    ['required'] definition of the column has no [when]. *)
Theorem fieldIsRequired_spec (columnDefinition : SheetColumnDefinition) :
  let validators := default [] (col_validators columnDefinition) in
  (fieldIsRequired columnDefinition true = true
   ↔ ∃ v, v ∈ validators ∧ validateIsRequired v = true)
  ∧ (fieldIsRequired columnDefinition false = true
     ↔ ∃ before after,
         validators = before ++ RequiredValidatorDefinition None :: after
         ∧ Forall (λ v, validateIsRequired v = false) before)
  ∧ (atMostOneRequired validators →
     (fieldIsRequired columnDefinition false = true
      ↔ ∃ v, v ∈ validators ∧ validateIsRequired v = true
             ∧ whenIsNull v = true)).
Proof.
  intros validators.
  assert (fieldIsRequired columnDefinition false = true
          ↔ ∃ before after,
              validators = before ++ RequiredValidatorDefinition None :: after
              ∧ Forall (λ v, validateIsRequired v = false) before) as Hfirst.
  { rewrite fieldIsRequired_unfold. fold validators. split.
    - destruct (List.find _ _) as [v|] eqn:Hfind; [|done]. intros Hwhen.
      apply find_Some_split in Hfind as (before & after & -> & Hbefore & Hv).
      destruct v as [[when|]| |]; try done. eauto.
    - intros (before & after & Heq & Hbefore).
      assert (List.find validateIsRequired validators
              = Some (RequiredValidatorDefinition None)) as ->; [|done].
      apply find_Some_split. eauto 6. }
  split_and!; [|done|].
  - rewrite fieldIsRequired_unfold. fold validators.
    rewrite <-find_is_Some.
    destruct (List.find _ _); (split; [|done]); first [done|by eauto].
  - intros Hone. rewrite Hfirst. split.
    + intros (before & after & -> & Hbefore).
      exists (RequiredValidatorDefinition None). split_and!; try done.
      apply elem_of_app. right. left.
    + intros (v & Hin & Hreq & Hwhen).
      destruct v as [[when|]| |]; try done.
      apply list_elem_of_split in Hin as (before & after & Heq).
      exists before, after. split; [done|].
      unfold atMostOneRequired in Hone. rewrite Heq, List.filter_app in Hone.
      simpl in Hone. rewrite length_app in Hone. simpl in Hone.
      assert (length (List.filter validateIsRequired before) = 0) as Hlen by lia.
      apply length_zero_iff_nil in Hlen.
      apply Forall_forall. intros u Hu.
      destruct (validateIsRequired u) eqn:Hreqb; [|done].
      assert (In u (List.filter validateIsRequired before)) as Hf.
      { apply filter_In. by rewrite <-list_elem_of_In. }
      rewrite Hlen in Hf. done.
Qed.

End FieldIsRequired.

(** ** Full validation, cell by cell *)

Section ValidateSheet.
Context `{Collaborators}.

Lemma settleAll_Fulfilled (order : list Evaluation) errors :
  settleAll order = Fulfilled errors → errors = omap evaluationError order.
Proof.
  revert errors. induction order as [|ev order IH]; intros errors; simpl.
  - by intros [= <-].
  - unfold evaluationError at 1.
    destruct (ev_result ev) as [[message|]|]; simpl; [| |done];
      destruct (settleAll order) as [errors'|]; simpl; try done;
      intros [= <-]; by rewrite (IH errors').
Qed.

Lemma filter_bind {A B} (P : B → Prop) `{!∀ x, Decision (P x)}
    (f : A → list B) (l : list A) :
  filter P (l ≫= f) = l ≫= (λ x, filter P (f x)).
Proof.
  induction l as [|x l IH]; [done|]. by rewrite !bind_cons, filter_app, IH.
Qed.

Lemma filter_nil_all {A} (P : A → Prop) `{!∀ x, Decision (P x)} (l : list A) :
  (∀ x, x ∈ l → ¬ P x) → filter P l = [].
Proof.
  induction l as [|x l IH]; intros HP; [done|].
  rewrite filter_cons_False by (apply HP; left).
  apply IH. intros y Hy. apply HP. by right.
Qed.

Lemma filter_all {A} (P : A → Prop) `{!∀ x, Decision (P x)} (l : list A) :
  (∀ x, x ∈ l → P x) → filter P l = l.
Proof.
  induction l as [|x l IH]; intros HP; [done|].
  rewrite filter_cons_True by (apply HP; left).
  f_equal. apply IH. intros y Hy. apply HP. by right.
Qed.

(** In a list with distinct keys, a bind that is empty on every other key is
    the function at the one element. *)
Lemma bind_unique_key {A B} `{EqDecision K} (key : A → K) (g : A → list B)
    (l : list A) (x : A) :
  NoDup (key <$> l) → x ∈ l →
  (∀ y, y ∈ l → key y ≠ key x → g y = []) →
  l ≫= g = g x.
Proof.
  induction l as [|y l IH]; intros Hnd Hin Hg; [by apply elem_of_nil in Hin|].
  rewrite fmap_cons in Hnd. apply NoDup_cons in Hnd as [Hy Hnd].
  rewrite bind_cons. apply elem_of_cons in Hin as [->|Hin].
  - rewrite list_bind_nil_all, app_nil_r; [done|].
    intros z Hz. apply Hg; [by right|]. intros Heq. apply Hy.
    rewrite <-Heq. by apply list_elem_of_fmap_2.
  - rewrite Hg, IH; try done.
    + intros z Hz. apply Hg. by right.
    + by left.
    + intros Heq. apply Hy. rewrite Heq. by apply list_elem_of_fmap_2.
Qed.

Lemma elem_of_concat {A} (x : A) (ls : list (list A)) :
  x ∈ concat ls ↔ ∃ l, x ∈ l ∧ l ∈ ls.
Proof.
  rewrite list_elem_of_In, in_concat. split.
  - intros (l & Hl & Hx). exists l. by rewrite !list_elem_of_In.
  - intros (l & Hx & Hl). exists l. by rewrite <-!list_elem_of_In.
Qed.

(** Of the per-row lists of an indexed map, a filter that fixes the index
    keeps the list of that row only. *)
Lemma filter_concat_imap_index {A B} (P : B → Prop) `{!∀ x, Decision (P x)}
    (index : B → nat) (h : nat → A → list B) (l : list A) (i n : nat) (x : A) :
  l !! i = Some x →
  (∀ j y b, b ∈ h j y → index b = n + j) →
  (∀ b, P b → index b = n + i) →
  filter P (concat (imap h l)) = filter P (h i x).
Proof.
  revert h i n. induction l as [|y l IH]; intros h i n Hlook Hindex HP; [done|].
  rewrite imap_cons. simpl. rewrite filter_app. destruct i as [|i]; simpl in Hlook.
  - injection Hlook as ->.
    rewrite (filter_nil_all P (concat _)), app_nil_r; [done|].
    intros b Hb HPb. apply elem_of_concat in Hb as (bs & Hb & Hbs).
    apply elem_of_lookup_imap in Hbs as (j & z & -> & _).
    apply Hindex in Hb. apply HP in HPb. simpl in Hb. lia.
  - rewrite (filter_nil_all P (h 0 y)); simpl.
    + apply (IH (h ∘ S) i (S n) Hlook).
      * intros j z b Hb. apply Hindex in Hb. lia.
      * intros b HPb. apply HP in HPb. lia.
    + intros b Hb HPb. apply Hindex in Hb. apply HP in HPb. lia.
Qed.

Lemma foldl_insert_lookup_notin {A V} (key : A → string) (val : A → V)
    (l : list A) (m : gmap string V) (k : string) :
  k ∉ key <$> l →
  foldl (λ obj x, <[key x := val x]> obj) m l !! k = m !! k.
Proof.
  revert m. induction l as [|x l IH]; intros m Hk; [done|]. simpl.
  rewrite fmap_cons in Hk. apply not_elem_of_cons in Hk as [Hne Hk].
  rewrite IH by done. by rewrite lookup_insert_ne.
Qed.

Lemma foldl_insert_lookup_NoDup {A V} (key : A → string) (val : A → V)
    (l : list A) (m : gmap string V) (x : A) :
  NoDup (key <$> l) → x ∈ l →
  foldl (λ obj x, <[key x := val x]> obj) m l !! key x = Some (val x).
Proof.
  revert m. induction l as [|y l IH]; intros m Hnd Hin;
    [by apply elem_of_nil in Hin|].
  rewrite fmap_cons in Hnd. apply NoDup_cons in Hnd as [Hy Hnd]. simpl.
  apply elem_of_cons in Hin as [->|Hin]; [|by apply IH].
  rewrite foldl_insert_lookup_notin by done. apply lookup_insert_eq.
Qed.

(** With distinct column ids, the entry of a column holds the validators built
    from its own explicit and automatic definitions. *)
Lemma validatorsByColumnId_lookup sheetDefinition allData columnDefinition :
  NoDup (col_id <$> sd_columns sheetDefinition) →
  columnDefinition ∈ sd_columns sheetDefinition →
  validatorsByColumnId sheetDefinition allData !! col_id columnDefinition
  = Some (buildValidatorFromDefinition
            <$> validatorDefinitions columnDefinition allData).
Proof.
  intros Hnd Hin. unfold validatorsByColumnId.
  by apply (foldl_insert_lookup_NoDup col_id
              (λ c, buildValidatorFromDefinition <$> validatorDefinitions c allData)).
Qed.

(** The body of the row loop of [validateSheet] is [launch] on the validated
    cells. *)
Lemma validateSheet_row_body sheetDefinition columnDefinition rowIndex
    (row : SheetRow) (validators : list Validator) :
  (if negb (hasData row) then []
   else if negb (rowHas row (col_id columnDefinition))
           && negb (fieldIsRequired columnDefinition true) then []
   else launch sheetDefinition columnDefinition rowIndex row validators)
  = if validatedCell columnDefinition row
    then launch sheetDefinition columnDefinition rowIndex row validators
    else [].
Proof.
  unfold validatedCell.
  by destruct (hasData row), (rowHas row _), (fieldIsRequired _ _).
Qed.

Lemma elem_of_launch sheetDefinition columnDefinition rowIndex (row : SheetRow)
    (validators : list Validator) ev :
  ev ∈ launch sheetDefinition columnDefinition rowIndex row validators →
  ev_sheetId ev = sd_id sheetDefinition
  ∧ ev_columnId ev = col_id columnDefinition
  ∧ ev_rowIndex ev = rowIndex.
Proof.
  unfold launch. intros Hin. by apply list_elem_of_fmap in Hin as (v & -> & _).
Qed.

(** Every launched evaluation is for a validated cell of the sheet. *)
Lemma elem_of_validateSheet_launched sheetDefinition sheetData allData ev :
  ev ∈ validateSheet_launched sheetDefinition sheetData allData →
  ev_sheetId ev = sd_id sheetDefinition
  ∧ ∃ columnDefinition row,
      columnDefinition ∈ sd_columns sheetDefinition
      ∧ ss_rows sheetData !! ev_rowIndex ev = Some row
      ∧ ev_columnId ev = col_id columnDefinition
      ∧ validatedCell columnDefinition row = true.
Proof.
  unfold validateSheet_launched. intros Hin.
  apply list_elem_of_bind in Hin as (columnDefinition & Hin & Hcol).
  apply elem_of_concat in Hin as (evs & Hin & Hevs).
  apply elem_of_lookup_imap in Hevs as (rowIndex & row & -> & Hrow).
  rewrite validateSheet_row_body in Hin.
  destruct (validatedCell columnDefinition row) eqn:Hvalidated;
    [|by apply elem_of_nil in Hin].
  apply elem_of_launch in Hin as (Hsheet & Hcolumn & Hindex).
  split; [done|]. exists columnDefinition, row. by rewrite Hindex.
Qed.

(** The evaluations launched for one cell. *)
Lemma validateSheet_launched_cell sheetDefinition sheetData allData
    columnDefinition rowIndex (row : SheetRow) :
  NoDup (col_id <$> sd_columns sheetDefinition) →
  columnDefinition ∈ sd_columns sheetDefinition →
  ss_rows sheetData !! rowIndex = Some row →
  filter (evaluationOnCell (col_id columnDefinition) rowIndex)
    (validateSheet_launched sheetDefinition sheetData allData)
  = if validatedCell columnDefinition row
    then launch sheetDefinition columnDefinition rowIndex row
           (buildValidatorFromDefinition
              <$> validatorDefinitions columnDefinition allData)
    else [].
Proof.
  intros Hnd Hcol Hrow. unfold validateSheet_launched.
  rewrite filter_bind.
  rewrite (bind_unique_key col_id _ _ columnDefinition Hnd Hcol).
  - rewrite (filter_concat_imap_index _ ev_rowIndex _ _ rowIndex 0 row Hrow).
    + rewrite validateSheet_row_body, validatorsByColumnId_lookup by done.
      simpl. destruct (validatedCell columnDefinition row); [|done].
      apply filter_all. intros ev Hev.
      apply elem_of_launch in Hev as (_ & ? & ?). done.
    + intros j r ev Hev. rewrite validateSheet_row_body in Hev.
      destruct (validatedCell columnDefinition r); [|by apply elem_of_nil in Hev].
      by apply elem_of_launch in Hev as (_ & _ & ->).
    + by intros ev [_ ->].
  - intros other _ Hother. apply filter_nil_all. intros ev Hev [Hid _].
    apply elem_of_concat in Hev as (evs & Hev & Hevs).
    apply elem_of_lookup_imap in Hevs as (j & r & -> & _).
    rewrite validateSheet_row_body in Hev.
    destruct (validatedCell other r); [|by apply elem_of_nil in Hev].
    apply elem_of_launch in Hev as (_ & Hid' & _). congruence.
Qed.

Lemma omap_cons {A B} (f : A → option B) (x : A) (l : list A) :
  omap f (x :: l)
  = match f x with Some y => y :: omap f l | None => omap f l end.
Proof. reflexivity. Qed.

Lemma evaluationError_onCell columnId rowIndex ev e :
  evaluationError ev = Some e →
  onCell columnId rowIndex e ↔ evaluationOnCell columnId rowIndex ev.
Proof.
  unfold evaluationError. destruct (ev_result ev) as [[message|]|]; try done.
  by intros [= <-].
Qed.

Lemma filter_omap_evaluationError columnId rowIndex (order : list Evaluation) :
  filter (onCell columnId rowIndex) (omap evaluationError order)
  = omap evaluationError (filter (evaluationOnCell columnId rowIndex) order).
Proof.
  induction order as [|ev order IH]; [done|].
  rewrite filter_cons, omap_cons.
  destruct (evaluationError ev) as [e|] eqn:He.
  - pose proof (evaluationError_onCell columnId rowIndex ev e He) as Hiff.
    destruct (decide (evaluationOnCell columnId rowIndex ev)) as [Hon|Hoff].
    + rewrite filter_cons_True, omap_cons, He, IH by tauto. done.
    + rewrite filter_cons_False, IH by tauto. done.
  - destruct (decide (evaluationOnCell columnId rowIndex ev)); [|done].
    by rewrite omap_cons, He.
Qed.

Lemma omap_evaluationError_launch sheetDefinition columnDefinition rowIndex
    (row : SheetRow) (definitions : list ImporterValidatorDefinition) :
  omap evaluationError
    (launch sheetDefinition columnDefinition rowIndex row
       (buildValidatorFromDefinition <$> definitions))
  = omap (validatorError (sd_id sheetDefinition) (col_id columnDefinition)
            rowIndex (rowGet row (col_id columnDefinition)) row) definitions.
Proof.
  unfold launch. induction definitions as [|definition definitions IH]; [done|].
  rewrite !fmap_cons, !omap_cons, IH.
  unfold evaluationError, validatorError. simpl.
  by destruct (isValid _ _ _) as [[message|]|].
Qed.

(** The errors of one cell, whatever the resolution order. *)
Lemma validateSheet_cell sheetDefinition sheetData allData errors
    columnDefinition rowIndex (row : SheetRow) :
  NoDup (col_id <$> sd_columns sheetDefinition) →
  settlesTo (validateSheet_launched sheetDefinition sheetData allData)
    (Fulfilled errors) →
  columnDefinition ∈ sd_columns sheetDefinition →
  ss_rows sheetData !! rowIndex = Some row →
  filter (onCell (col_id columnDefinition) rowIndex) errors
  ≡ₚ if validatedCell columnDefinition row
     then omap (validatorError (sd_id sheetDefinition)
                  (col_id columnDefinition) rowIndex
                  (rowGet row (col_id columnDefinition)) row)
            (validatorDefinitions columnDefinition allData)
     else [].
Proof.
  intros Hnd (order & Hperm & Hsettle) Hcol Hrow.
  symmetry in Hsettle. apply settleAll_Fulfilled in Hsettle as ->.
  rewrite filter_omap_evaluationError, Hperm.
  rewrite (validateSheet_launched_cell _ _ _ _ _ row) by done.
  destruct (validatedCell columnDefinition row); [|done].
  by rewrite omap_evaluationError_launch.
Qed.

(** C6.  Full validation of a sheet whose column ids are distinct and none
    of them the name of a property rows inherit from [Object.prototype], so
    that a column is in a row exactly when the row has a key of its own for
    it.  For each column and row, the validator evaluations launched for the
    cell are none when the row has no data ([hasData] false) or the column is
    absent from the row and not required (ignoring [when]), and otherwise one
    per validator of the column (explicit, then automatic), each on
    (cell value, row).  When the run is fulfilled, in whatever order the
    evaluations resolve: every error is on a row that has data and on a
    column present in the row or required; the errors of a cell are one per
    validator of the column that returned a message; and in particular a
    number column whose only validator is [required], absent from a row that
    has data, gets exactly one error, with the message of the required
    validator. *)
Theorem validateSheet_validates_each_cell
    (sheetDefinition : SheetDefinition) (sheetData : SheetState)
    (allData : list SheetState) :
  NoDup (col_id <$> sd_columns sheetDefinition) →
  plainColumnIds sheetDefinition →
  (∀ columnDefinition rowIndex row,
     columnDefinition ∈ sd_columns sheetDefinition →
     ss_rows sheetData !! rowIndex = Some row →
     filter (evaluationOnCell (col_id columnDefinition) rowIndex)
       (validateSheet_launched sheetDefinition sheetData allData)
     = if hasData row
          && (rowHas row (col_id columnDefinition)
              || fieldIsRequired columnDefinition true)
       then launch sheetDefinition columnDefinition rowIndex row
              (buildValidatorFromDefinition
                 <$> validatorDefinitions columnDefinition allData)
       else [])
  ∧ ∀ errors,
      settlesTo (validateSheet_launched sheetDefinition sheetData allData)
        (Fulfilled errors) →
      (∀ e, e ∈ errors →
         ve_sheetId e = sd_id sheetDefinition
         ∧ ∃ columnDefinition row,
             columnDefinition ∈ sd_columns sheetDefinition
             ∧ ss_rows sheetData !! ve_rowIndex e = Some row
             ∧ ve_columnId e = col_id columnDefinition
             ∧ hasData row = true
             ∧ (rowHas row (col_id columnDefinition) = false →
                fieldIsRequired columnDefinition true = true))
      ∧ (∀ columnDefinition rowIndex row,
           columnDefinition ∈ sd_columns sheetDefinition →
           ss_rows sheetData !! rowIndex = Some row →
           filter (onCell (col_id columnDefinition) rowIndex) errors
           ≡ₚ if hasData row
                 && (rowHas row (col_id columnDefinition)
                     || fieldIsRequired columnDefinition true)
              then omap (validatorError (sd_id sheetDefinition)
                           (col_id columnDefinition) rowIndex
                           (rowGet row (col_id columnDefinition)) row)
                     (validatorDefinitions columnDefinition allData)
              else [])
      ∧ (∀ columnDefinition rowIndex row message,
           columnDefinition ∈ sd_columns sheetDefinition →
           ss_rows sheetData !! rowIndex = Some row →
           col_type columnDefinition = TypeNumber →
           col_validators columnDefinition
           = Some [RequiredValidatorDefinition None] →
           hasData row = true →
           row !! col_id columnDefinition = None →
           isValid (buildValidatorFromDefinition
                      (RequiredValidatorDefinition None))
             FUndefined row = Fulfilled (Some message) →
           filter (onCell (col_id columnDefinition) rowIndex) errors
           = [mkError (sd_id sheetDefinition) (col_id columnDefinition)
                rowIndex message]).
Proof.
  intros Hnd _. split.
  { intros columnDefinition rowIndex row Hcol Hrow.
    by apply validateSheet_launched_cell. }
  intros errors Hsettles. split_and!.
  - intros e He. destruct Hsettles as (order & Hperm & Hsettle).
    symmetry in Hsettle. apply settleAll_Fulfilled in Hsettle as ->.
    apply list_elem_of_omap in He as (ev & Hev & Herr).
    rewrite Hperm in Hev.
    apply elem_of_validateSheet_launched in Hev
      as (Hsheet & columnDefinition & row & Hcol & Hrow & Hid & Hvalidated).
    unfold evaluationError in Herr.
    destruct (ev_result ev) as [[message|]|]; try done.
    injection Herr as <-. simpl. split; [done|].
    exists columnDefinition, row. split_and!; try done.
    + unfold validatedCell in Hvalidated. by destruct (hasData row).
    + intros Habsent. unfold validatedCell in Hvalidated.
      rewrite Habsent in Hvalidated. by destruct (hasData row).
  - intros columnDefinition rowIndex row Hcol Hrow.
    by apply (validateSheet_cell _ sheetData).
  - intros columnDefinition rowIndex row message Hcol Hrow Htype Hvalidators
      Hdata Habsent Hrequired.
    apply Permutation_singleton_r.
    rewrite (validateSheet_cell _ _ _ _ _ _ row Hnd Hsettles Hcol Hrow).
    unfold validatedCell, validatorDefinitions, automaticFieldValidators.
    rewrite fieldIsRequired_unfold, Hdata, Htype, Hvalidators.
    simpl. rewrite orb_true_r. unfold validatorError, rowGet.
    rewrite Habsent. simpl. by rewrite Hrequired.
Qed.

End ValidateSheet.

(** ** Automatic validators of enum and reference columns *)

Section AutomaticValidators.

Lemma SpecModel_includes_isValid (values : list ImporterOutputFieldType)
    (value : ImporterOutputFieldType) (row : SheetRow) :
  isValid (SpecModel.buildValidatorFromDefinition
             (IncludesValidatorDefinition values)) value row
  = if bool_decide (value ∈ values) then Fulfilled None
    else Fulfilled (Some SpecModel.includesMessage).
Proof. reflexivity. Qed.

Lemma SpecModel_extractReference_elem_of columnDefinition
    (sheetId sheetColumnId : string) (allData : list SheetState)
    (value : ImporterOutputFieldType) :
  col_type columnDefinition = TypeReference sheetId sheetColumnId →
  value ∈ SpecModel.extractReferenceColumnPossibleValues columnDefinition allData
  ↔ ∃ sheetState row,
      sheetState ∈ allData ∧ ss_sheetId sheetState = sheetId
      ∧ row ∈ ss_rows sheetState
      ∧ rowGet row sheetColumnId = value
      ∧ SpecModel.isEmptyCell value = false.
Proof.
  intros Htype. unfold SpecModel.extractReferenceColumnPossibleValues.
  rewrite Htype, elem_of_remove_dups, list_elem_of_bind. split.
  - intros (sheetState & Hin & Hsheet).
    case_bool_decide as Hid; [|by apply elem_of_nil in Hin].
    apply list_elem_of_In, filter_In in Hin as [Hin Hpresent].
    apply list_elem_of_In, list_elem_of_fmap in Hin as (row & -> & Hrow).
    exists sheetState, row. split_and!; try done.
    by apply negb_true_iff.
  - intros (sheetState & row & Hsheet & Hid & Hrow & Hvalue & Hpresent).
    exists sheetState. split; [|done].
    rewrite bool_decide_eq_true_2 by done.
    apply list_elem_of_In, filter_In. split.
    + apply list_elem_of_In, list_elem_of_fmap. eauto.
    + by rewrite Hpresent.
Qed.

(** C7.  An enum column automatically gets one [includes] validator whose
    allowed values are the declared ones, and a reference column one whose
    allowed values are what [extractReferenceColumnPossibleValues] returns on
    the sheet states passed to this validation call.  With the validators of
    the specification, validating a present cell of an enum column without
    explicit validators gives one [includes] error when the value is not a
    declared one and no error when it is; and the allowed values of a
    reference column are the distinct present values of the referenced
    column in the sheet states of the call. *)
Theorem automatic_validators_of_enum_and_reference :
  (∀ (C : Collaborators) columnDefinition values allData,
     col_type columnDefinition = TypeEnum values →
     automaticFieldValidators columnDefinition allData
     = [IncludesValidatorDefinition (so_value <$> values)])
  ∧ (∀ (C : Collaborators) columnDefinition sheetId sheetColumnId allData,
       col_type columnDefinition = TypeReference sheetId sheetColumnId →
       automaticFieldValidators columnDefinition allData
       = [IncludesValidatorDefinition
            (extractReferenceColumnPossibleValues columnDefinition allData)])
  ∧ (∀ sheetDefinition sheetData allData errors columnDefinition values
       rowIndex (row : SheetRow) value,
       NoDup (col_id <$> sd_columns sheetDefinition) →
       settlesTo
         (validateSheet_launched (H := SpecModel.collaborators)
            sheetDefinition sheetData allData)
         (Fulfilled errors) →
       columnDefinition ∈ sd_columns sheetDefinition →
       col_type columnDefinition = TypeEnum values →
       col_validators columnDefinition = None →
       ss_rows sheetData !! rowIndex = Some row →
       row !! col_id columnDefinition = Some value →
       SpecModel.hasData row = true →
       filter (onCell (col_id columnDefinition) rowIndex) errors
       = if bool_decide (value ∈ so_value <$> values) then []
         else [mkError (sd_id sheetDefinition) (col_id columnDefinition)
                 rowIndex SpecModel.includesMessage])
  ∧ (∀ columnDefinition sheetId sheetColumnId allData,
       col_type columnDefinition = TypeReference sheetId sheetColumnId →
       NoDup (SpecModel.extractReferenceColumnPossibleValues
                columnDefinition allData)
       ∧ ∀ value,
           value ∈ SpecModel.extractReferenceColumnPossibleValues
                     columnDefinition allData
           ↔ ∃ sheetState row,
               sheetState ∈ allData ∧ ss_sheetId sheetState = sheetId
               ∧ row ∈ ss_rows sheetState
               ∧ rowGet row sheetColumnId = value
               ∧ SpecModel.isEmptyCell value = false).
Proof.
  split_and!.
  - intros C columnDefinition values allData Htype.
    unfold automaticFieldValidators. by rewrite Htype.
  - intros C columnDefinition sheetId sheetColumnId allData Htype.
    unfold automaticFieldValidators. by rewrite Htype.
  - intros sheetDefinition sheetData allData errors columnDefinition values
      rowIndex row value Hnd Hsettles Hcol Htype Hvalidators Hrow Hcell Hpresent.
    pose proof (validateSheet_cell (H := SpecModel.collaborators)
                  _ _ _ _ _ _ row Hnd Hsettles Hcol Hrow) as Hcellerrors.
    assert (validatedCell (H := SpecModel.collaborators) columnDefinition row
            = true) as Hvalidated.
    { unfold validatedCell, rowHas. rewrite Hcell.
      by rewrite bool_decide_eq_true_2, orb_true_l, andb_true_r by eauto. }
    rewrite Hvalidated in Hcellerrors.
    unfold validatorDefinitions, automaticFieldValidators in Hcellerrors.
    rewrite Hvalidators, Htype in Hcellerrors. simpl in Hcellerrors.
    unfold validatorError, rowGet in Hcellerrors.
    rewrite Hcell in Hcellerrors. simpl in Hcellerrors.
    case_bool_decide.
    + by apply Permutation_nil_r in Hcellerrors.
    + by apply Permutation_singleton_r in Hcellerrors.
  - intros columnDefinition sheetId sheetColumnId allData Htype. split.
    + unfold SpecModel.extractReferenceColumnPossibleValues.
      rewrite Htype. apply NoDup_remove_dups.
    + intros value. by apply SpecModel_extractReference_elem_of.
Qed.

End AutomaticValidators.

(** ** Single-row transformation *)

Section SingleRow.
Context `{Collaborators}.

Lemma foldl_Pipeline_push (pipeline : Pipeline)
    (transformers : list ImporterTransformerDefinition) :
  foldl (λ pipeline transformerDefinition,
           Pipeline_push pipeline
             (buildTransformerFromDefinition transformerDefinition))
        pipeline transformers
  = mkPipeline (steps pipeline ++ (buildTransformerFromDefinition <$> transformers)).
Proof.
  revert pipeline.
  induction transformers as [|t transformers IH]; intros [steps0]; simpl.
  - by rewrite app_nil_r.
  - rewrite IH. simpl. by rewrite <-app_assoc.
Qed.

(** With distinct column ids, the pipeline of a column is made of its own
    transformers, in their order. *)
Lemma buildPipelineByColumnId_lookup sheetDefinition columnDefinition :
  NoDup (col_id <$> sd_columns sheetDefinition) →
  columnDefinition ∈ sd_columns sheetDefinition →
  pipelineOf (buildPipelineByColumnId sheetDefinition) (col_id columnDefinition)
  = mkPipeline (columnSteps columnDefinition).
Proof.
  intros Hnd Hcol. unfold pipelineOf, buildPipelineByColumnId.
  rewrite (foldl_insert_lookup_NoDup col_id
             (λ c, match col_transformers c with
                   | None => mkPipeline []
                   | Some transformers =>
                       foldl (λ pipeline transformerDefinition,
                                Pipeline_push pipeline
                                  (buildTransformerFromDefinition
                                     transformerDefinition))
                             (mkPipeline []) transformers
                   end)) by done.
  simpl. unfold columnSteps.
  destruct (col_transformers columnDefinition) as [transformers|]; [|done].
  by rewrite foldl_Pipeline_push.
Qed.

Lemma transformCell_other pipelineByColumnId (transformedRow : SheetRow)
    columnDefinition (columnId : string) :
  col_id columnDefinition ≠ columnId →
  transformCell pipelineByColumnId transformedRow columnDefinition !! columnId
  = transformedRow !! columnId.
Proof.
  intros Hne. unfold transformCell. simpl.
  destruct (isEmptyCell _); simpl; [done|]. by rewrite lookup_insert_ne.
Qed.

Lemma transformCell_empty pipelineByColumnId (transformedRow : SheetRow)
    columnDefinition (columnId : string) :
  isEmptyCell (rowGet transformedRow columnId) = true →
  transformCell pipelineByColumnId transformedRow columnDefinition !! columnId
  = transformedRow !! columnId.
Proof.
  intros Hempty.
  destruct (decide (col_id columnDefinition = columnId)) as [<-|Hne];
    [|by apply transformCell_other].
  unfold transformCell. simpl. by rewrite Hempty.
Qed.

Lemma foldl_transformCell_notin pipelineByColumnId
    (columns : list SheetColumnDefinition) (row : SheetRow) (columnId : string) :
  columnId ∉ col_id <$> columns →
  foldl (transformCell pipelineByColumnId) row columns !! columnId
  = row !! columnId.
Proof.
  revert row. induction columns as [|c columns IH]; intros row Hnotin; [done|].
  rewrite fmap_cons in Hnotin. apply not_elem_of_cons in Hnotin as [Hne Hnotin].
  simpl. rewrite IH by done. by apply transformCell_other.
Qed.

Lemma foldl_transformCell_empty pipelineByColumnId
    (columns : list SheetColumnDefinition) (row : SheetRow) (columnId : string) :
  isEmptyCell (rowGet row columnId) = true →
  foldl (transformCell pipelineByColumnId) row columns !! columnId
  = row !! columnId.
Proof.
  revert row. induction columns as [|c columns IH]; intros row Hempty; [done|].
  simpl. rewrite IH.
  - by apply transformCell_empty.
  - unfold rowGet. by rewrite transformCell_empty.
Qed.

Lemma foldl_transformCell_NoDup pipelineByColumnId
    (columns : list SheetColumnDefinition) (row : SheetRow) columnDefinition :
  NoDup (col_id <$> columns) → columnDefinition ∈ columns →
  isEmptyCell (rowGet row (col_id columnDefinition)) = false →
  foldl (transformCell pipelineByColumnId) row columns !! col_id columnDefinition
  = Some (Pipeline_transform
            (pipelineOf pipelineByColumnId (col_id columnDefinition))
            (rowGet row (col_id columnDefinition))).
Proof.
  revert row. induction columns as [|c columns IH]; intros row Hnd Hcol Hpresent;
    [by apply elem_of_nil in Hcol|].
  rewrite fmap_cons in Hnd. apply NoDup_cons in Hnd as [Hc Hnd]. simpl.
  apply elem_of_cons in Hcol as [->|Hcol].
  - rewrite foldl_transformCell_notin by done.
    unfold transformCell. simpl. rewrite Hpresent. simpl.
    apply lookup_insert_eq.
  - assert (col_id c ≠ col_id columnDefinition) as Hne.
    { intros Heq. apply Hc. rewrite Heq. by apply list_elem_of_fmap_2. }
    rewrite IH; try done; unfold rowGet; by rewrite transformCell_other.
Qed.

Lemma transformRow_unfold (row : SheetRow) pipelineByColumnId sheetDefinition :
  transformRow row pipelineByColumnId sheetDefinition
  = if hasData row
    then foldl (transformCell pipelineByColumnId) row (sd_columns sheetDefinition)
    else row.
Proof. unfold transformRow. by destruct (hasData row). Qed.

(** The cells of a transformed row. *)
Lemma transformRow_cells (row : SheetRow) sheetDefinition :
  let row' :=
    transformRow row (buildPipelineByColumnId sheetDefinition) sheetDefinition in
  (∀ columnId, isEmptyCell (rowGet row columnId) = true →
     row' !! columnId = row !! columnId)
  ∧ (∀ columnId, row' !! columnId ≠ row !! columnId →
       hasData row = true
       ∧ isEmptyCell (rowGet row columnId) = false
       ∧ ∃ columnDefinition,
           columnDefinition ∈ sd_columns sheetDefinition
           ∧ col_id columnDefinition = columnId)
  ∧ (∀ columnDefinition,
       NoDup (col_id <$> sd_columns sheetDefinition) →
       columnDefinition ∈ sd_columns sheetDefinition →
       hasData row = true →
       isEmptyCell (rowGet row (col_id columnDefinition)) = false →
       row' !! col_id columnDefinition
       = Some (foldl (λ current step, transform step current)
                 (rowGet row (col_id columnDefinition))
                 (columnSteps columnDefinition))).
Proof.
  intros row'. unfold row'. rewrite transformRow_unfold. split_and!.
  - intros columnId Hempty. destruct (hasData row); [|done].
    by apply foldl_transformCell_empty.
  - intros columnId Hchanged. destruct (hasData row); [|done].
    split; [done|].
    destruct (isEmptyCell (rowGet row columnId)) eqn:Hempty.
    { by rewrite foldl_transformCell_empty in Hchanged. }
    split; [done|].
    destruct (decide (columnId ∈ col_id <$> sd_columns sheetDefinition))
      as [Hin|Hnotin].
    + apply list_elem_of_fmap in Hin as (columnDefinition & -> & Hin). eauto.
    + by rewrite foldl_transformCell_notin in Hchanged.
  - intros columnDefinition Hnd Hcol Hdata Hpresent. rewrite Hdata.
    rewrite foldl_transformCell_NoDup by done.
    by rewrite buildPipelineByColumnId_lookup.
Qed.

(** C8.  [applyTransformationsToSingleRow] returns one sheet state per input
    sheet state, at the same position and with the same id.  A sheet state
    whose id is not the target id is returned as it is.  In a target sheet
    the rows keep their number and every row at another index is unchanged.
    For sheet definitions none of whose column ids is the name of a
    property rows inherit from [Object.prototype], so that cells are read
    and written through the own keys of the row: in the row at the target
    index, a cell that is empty is left as it is; a cell changes only if the
    row has data, the cell is non-empty and its key is a column id of the
    sheet definition; and, column ids being distinct, a non-empty cell of a
    column becomes the value of the column's transformers applied one after
    the other, the first first. *)
Theorem applyTransformationsToSingleRow_frame
    (sheetDefinitions : list SheetDefinition) (sheetStates : list SheetState)
    (targetSheetId : string) (targetRowIndex : nat) :
  let result :=
    applyTransformationsToSingleRow sheetDefinitions sheetStates targetSheetId
      targetRowIndex in
  length result = length sheetStates
  ∧ ∀ k sheetState,
      sheetStates !! k = Some sheetState →
      ∃ sheetState',
        result !! k = Some sheetState'
        ∧ ss_sheetId sheetState' = ss_sheetId sheetState
        ∧ (ss_sheetId sheetState ≠ targetSheetId → sheetState' = sheetState)
        ∧ length (ss_rows sheetState') = length (ss_rows sheetState)
        ∧ (∀ j, j ≠ targetRowIndex →
             ss_rows sheetState' !! j = ss_rows sheetState !! j)
        ∧ (∀ row,
             ss_rows sheetState !! targetRowIndex = Some row →
             ∃ row',
               ss_rows sheetState' !! targetRowIndex = Some row'
               ∧ (Forall plainColumnIds sheetDefinitions →
                  (∀ columnId, isEmptyCell (rowGet row columnId) = true →
                     row' !! columnId = row !! columnId)
                  ∧ (∀ columnId, row' !! columnId ≠ row !! columnId →
                       ss_sheetId sheetState = targetSheetId
                       ∧ hasData row = true
                       ∧ isEmptyCell (rowGet row columnId) = false
                       ∧ ∃ sheetDefinition columnDefinition,
                           sheetDefinition ∈ sheetDefinitions
                           ∧ sd_id sheetDefinition = targetSheetId
                           ∧ columnDefinition ∈ sd_columns sheetDefinition
                           ∧ col_id columnDefinition = columnId)
                  ∧ (∀ sheetDefinition columnDefinition,
                       ss_sheetId sheetState = targetSheetId →
                       List.find
                         (λ def, bool_decide (sd_id def = targetSheetId))
                         sheetDefinitions = Some sheetDefinition →
                       NoDup (col_id <$> sd_columns sheetDefinition) →
                       columnDefinition ∈ sd_columns sheetDefinition →
                       hasData row = true →
                       isEmptyCell (rowGet row (col_id columnDefinition))
                       = false →
                       row' !! col_id columnDefinition
                       = Some (foldl (λ current step, transform step current)
                                 (rowGet row (col_id columnDefinition))
                                 (columnSteps columnDefinition))))).
Proof.
  intros result. split; [apply length_fmap|].
  intros k sheetState Hk. unfold result, applyTransformationsToSingleRow.
  rewrite list_lookup_fmap, Hk. simpl. eexists. split; [reflexivity|].
  case_bool_decide as Hid; simpl.
  2:{ split_and!; try done. intros row Hrow. exists row. by split_and!. }
  destruct (List.find _ sheetDefinitions) as [sheetDefinition|] eqn:Hfind.
  2:{ split_and!; try done. intros row Hrow. exists row. by split_and!. }
  destruct (ss_rows sheetState !! targetRowIndex) as [targetRow|] eqn:Htarget.
  2:{ simpl. split_and!; try done. }
  simpl. split_and!; try done.
  - by rewrite length_insert.
  - intros j Hj. by rewrite list_lookup_insert_ne.
  - intros row [= <-]. eexists. split.
    { apply list_lookup_insert_eq. by eapply lookup_lt_Some. }
    destruct (transformRow_cells targetRow sheetDefinition)
      as (Hempty & Hchanged & Hvalue).
    intros _. split_and!; try done.
    + intros columnId Hne. destruct (Hchanged _ Hne) as (? & ? & col & ? & ?).
      split_and!; try done. exists sheetDefinition, col.
      apply find_some in Hfind as [Hin Hdef].
      apply bool_decide_eq_true in Hdef. by rewrite list_elem_of_In.
    + intros def col _ [= <-]. apply Hvalue.
Qed.

End SingleRow.

(** ** The initial state *)

Section InitialState.
Context `{Storage}.

(** C10.  [buildInitialState] fails (with a [TypeError]) exactly on the empty
    list of sheet definitions.  On a non-empty list it returns the state with
    mode [upload], no validation errors, [validationInProgress] false,
    [importProgress] 0, the id of the first definition as current sheet, and
    one sheet state per definition, in order, each without rows.  [buildState]
    resolves to that same state when persistence is disabled, when loading
    the persisted state fails, and also when nothing is persisted. *)
Theorem buildInitialState_spec (definitions : list SheetDefinition) :
  (buildInitialState definitions = None ↔ definitions = [])
  ∧ (∀ first rest,
       definitions = first :: rest →
       ∃ state,
         buildInitialState definitions = Some state
         ∧ mode state = upload
         ∧ validationErrors state = []
         ∧ validationInProgress state = Some false
         ∧ importProgress state = 0
         ∧ currentSheetId state = sd_id first
         ∧ sheetDefinitions state = definitions
         ∧ sheetData state
           = (λ sheet, mkSheetState (sd_id sheet) []) <$> definitions
         ∧ length (sheetData state) = length definitions
         ∧ (∀ k sheet, definitions !! k = Some sheet →
              sheetData state !! k = Some (mkSheetState (sd_id sheet) [])))
  ∧ (∀ persistenceConfig state,
       buildInitialState definitions = Some state →
       enabled persistenceConfig = false
       ∨ getIndexedDBState definitions (customKey persistenceConfig) = Rejected
       ∨ getIndexedDBState definitions (customKey persistenceConfig)
         = Fulfilled None →
       buildState definitions persistenceConfig = Fulfilled state).
Proof.
  split_and!.
  - unfold buildInitialState. by destruct definitions.
  - intros first rest ->. eexists. split; [reflexivity|]. simpl.
    split_and!; try done.
    + by rewrite length_fmap.
    + intros k sheet Hk.
      pose proof (list_lookup_fmap (λ sheet, mkSheetState (sd_id sheet) [])
                    (first :: rest) k) as Hlookup.
      rewrite Hk in Hlookup. exact Hlookup.
  - intros persistenceConfig state Hinitial Hcase.
    unfold buildState, buildStateWithIndexedDB. rewrite Hinitial. simpl.
    destruct (enabled persistenceConfig); simpl; [|done].
    destruct Hcase as [?|[->| ->]]; try done. simpl.
    by destruct (setIndexedDBState _ _).
Qed.

End InitialState.

(** ** getState *)

Section GetState.
Context `{Collaborators}.
Variable reducer : ImporterState → ImporterAction → ImporterState.

Lemma hasDirtyRows_spec (state : ImporterState) :
  hasDirtyRows state = true
  ↔ ∃ dirty sheetId (rowIndices : gset nat),
      dirtyRows state = Some dirty
      ∧ dirty !! sheetId = Some rowIndices
      ∧ rowIndices ≠ ∅.
Proof.
  unfold hasDirtyRows. destruct (dirtyRows state) as [dirty|].
  - rewrite existsb_exists. split.
    + intros ([sheetId rowIndices] & Hin & Hsize).
      apply list_elem_of_In, elem_of_map_to_list in Hin.
      apply bool_decide_eq_true in Hsize. simpl in Hsize.
      exists dirty, sheetId, rowIndices. split_and!; try done.
      intros ->. rewrite size_empty in Hsize. lia.
    + intros (dirty' & sheetId & rowIndices & [= <-] & Hlook & Hne).
      exists (sheetId, rowIndices). split.
      * by apply list_elem_of_In, elem_of_map_to_list.
      * apply bool_decide_eq_true. simpl.
        destruct (decide (size rowIndices = 0)) as [Hzero|]; [|lia].
        by apply size_empty_inv, leibniz_equiv in Hzero.
  - split; [done|]. by intros (? & ? & ? & ? & _).
Qed.

Lemma settleAll_rejected (order : list Evaluation) ev :
  ev ∈ order → ev_result ev = Rejected → settleAll order = Rejected.
Proof.
  intros Hin Hrejected. induction Hin as [ev order|ev ev' order _ IH]; simpl.
  - by rewrite Hrejected.
  - rewrite IH by done. by destruct (ev_result ev') as [[?|]|].
Qed.

Lemma settlesTo_rejected (launched : list Evaluation) o ev :
  settlesTo launched o → ev ∈ launched → ev_result ev = Rejected →
  o = Rejected.
Proof.
  intros (order & Hperm & ->) Hin Hrejected.
  apply (settleAll_rejected _ ev); [|done]. by rewrite Hperm.
Qed.

Lemma promiseAll_rejected {A} (outs : list (Settled A)) :
  Rejected ∈ outs → promiseAll outs = Rejected.
Proof.
  induction outs as [|o outs IH]; intros Hin; [by apply elem_of_nil in Hin|].
  apply elem_of_cons in Hin as [<-|Hin]; [done|]. simpl.
  rewrite IH by done. by destruct o.
Qed.

(** One rejected evaluation rejects the whole full run. *)
Lemma applyValidations_settles_rejected sheetDefinitions sheetStates o ev :
  applyValidations_settles sheetDefinitions sheetStates o →
  ev ∈ applyValidations_launched sheetDefinitions sheetStates →
  ev_result ev = Rejected →
  o = Rejected.
Proof.
  intros (outs & Houts & ->) Hin Hrejected.
  apply list_elem_of_bind in Hin as (def & Hin & Hdef).
  apply list_elem_of_lookup in Hdef as [k Hk].
  destruct (Forall2_lookup_l _ _ _ _ _ Houts Hk) as (out & Hout & Hsettles).
  destruct (findSheet _ _); [|by apply elem_of_nil in Hin].
  apply (settlesTo_rejected _ _ ev) in Hsettles as ->; [|done..].
  rewrite promiseAll_rejected; [done|]. by eapply list_elem_of_lookup_2.
Qed.

(** One rejected evaluation rejects the whole incremental run. *)
Lemma applyValidationsToSpecificRows_settles_rejected
    sheetDefinitions sheetStates existingErrors dirty o ev :
  applyValidationsToSpecificRows_settles sheetDefinitions sheetStates
    existingErrors dirty o →
  ev ∈ applyValidationsToSpecificRows_launched sheetDefinitions sheetStates dirty →
  ev_result ev = Rejected →
  o = Rejected.
Proof.
  intros (outs & Houts & ->) Hin Hrejected.
  apply list_elem_of_bind in Hin as (def & Hin & Hdef).
  apply list_elem_of_lookup in Hdef as [k Hk].
  destruct (Forall2_lookup_l _ _ _ _ _ Houts Hk) as (out & Hout & Hsettles).
  destruct (specificRowsPromise _ _ _) as [[??]|]; [|by apply elem_of_nil in Hin].
  apply (settlesTo_rejected _ _ ev) in Hsettles as ->; [|done..].
  rewrite promiseAll_rejected; [done|]. by eapply list_elem_of_lookup_2.
Qed.

Lemma getState_settles_launch_order (builder : StateBuilder) :
  getState_settles reducer builder (getState reducer builder).
Proof.
  exists (chosenValidation builder (foldedState reducer builder)).
  split; [|done]. unfold chosenValidation_settles, chosenValidation.
  destruct (hasDirtyRows _).
  - apply applyValidationsToSpecificRows_settles_launch_order.
  - apply applyValidations_settles_launch_order.
Qed.

(** C4.  [getState] folds the pending actions through the reducer from the
    base state.  It runs incremental validation if the folded state has a
    dirty-row map with at least one non-empty set, and full validation
    otherwise.  The state it resolves to is the folded state with the errors
    of that run; if the run is rejected (as it is whenever one of its
    validator evaluations is), the state keeps the errors the folded state
    already had. *)
Theorem getState_spec (builder : StateBuilder) :
  let state := foldl reducer (initialState builder) (buildSteps builder) in
  let sheets := importerDefinition_sheets builder in
  (hasDirtyRows state = true
   ↔ ∃ dirty sheetId (rowIndices : gset nat),
       dirtyRows state = Some dirty
       ∧ dirty !! sheetId = Some rowIndices
       ∧ rowIndices ≠ ∅)
  ∧ getState_settles reducer builder (getState reducer builder)
  ∧ ∀ result,
      getState_settles reducer builder result →
      (∃ o,
         (if hasDirtyRows state
          then ∃ dirty,
                 dirtyRows state = Some dirty
                 ∧ applyValidationsToSpecificRows_settles sheets
                     (sheetData state) (validationErrors state) dirty o
          else applyValidations_settles sheets (sheetData state) o)
         ∧ result
           = withValidationErrors state
               match o with
               | Fulfilled errors => errors
               | Rejected => validationErrors state
               end)
      ∧ (∀ ev, ev ∈ chosenValidation_launched builder state →
               ev_result ev = Rejected →
               result = state).
Proof.
  intros state sheets. split_and!.
  - apply hasDirtyRows_spec.
  - apply getState_settles_launch_order.
  - intros result (o & Hsettles & ->). unfold foldedState in Hsettles |- *.
    fold state in Hsettles |- *. split.
    + exists o. split; [|by destruct o].
      unfold chosenValidation_settles in Hsettles. fold sheets in Hsettles.
      destruct (hasDirtyRows state) eqn:Hdirty; [|done].
      apply hasDirtyRows_spec in Hdirty as (dirty & _ & _ & Hsome & _).
      exists dirty. split; [done|]. by rewrite Hsome in Hsettles.
    + intros ev Hev Hrejected.
      unfold chosenValidation_settles in Hsettles.
      unfold chosenValidation_launched in Hev.
      assert (o = Rejected) as ->.
      { destruct (hasDirtyRows state).
        - by eapply applyValidationsToSpecificRows_settles_rejected.
        - by eapply applyValidations_settles_rejected. }
      simpl. by destruct state.
Qed.

End GetState.

(** ** The interactive builder: debounce and run ids *)

Section Debounce.
Context `{Collaborators}.

#[local] Abbreviation dispatch := (dispatch SpecModel.reducer).
#[local] Abbreviation dispatchChange := (dispatchChange SpecModel.reducer).
#[local] Abbreviation step := (step SpecModel.reducer).
#[local] Abbreviation run := (run SpecModel.reducer).

Lemma run_app (w : Runtime) (events1 events2 : list Event) :
  run w (events1 ++ events2) = w' ← run w events1; run w' events2.
Proof.
  revert w. induction events1 as [|e events1 IH]; intros w; [done|]. simpl.
  destruct (step w e) as [w'|]; simpl; [apply IH|done].
Qed.

Lemma reducer_pushedByBuilder_runId (state : ImporterState) step :
  pushedByBuilder step = true →
  validationRunId (SpecModel.reducer state step) = validationRunId state.
Proof. by destruct step. Qed.

Lemma foldl_reducer_runId (state : ImporterState) (steps : list ImporterAction) :
  Forall (λ step, pushedByBuilder step = true) steps →
  validationRunId (foldl SpecModel.reducer state steps) = validationRunId state.
Proof.
  intros Hsteps. revert state.
  induction Hsteps as [|step steps Hstep _ IH]; intros state; [done|]. simpl.
  by rewrite IH, reducer_pushedByBuilder_runId.
Qed.

(** What a batch of dispatches changes. *)
Lemma foldl_dispatch (w : Runtime) (steps : list ImporterAction) :
  let w' := foldl (λ w step, dispatch step w) w steps in
  store w' = foldl SpecModel.reducer (store w) steps
  ∧ (history w').*2 = (history w).*2 ++ steps
  ∧ (∃ entries, history w' = history w ++ entries)
  ∧ orchestrator w' = orchestrator w
  ∧ timeouts w' = timeouts w
  ∧ nextTimeoutId w' = nextTimeoutId w
  ∧ inFlight w' = inFlight w.
Proof.
  revert w. induction steps as [|a steps IH]; intros w; simpl.
  - rewrite app_nil_r. split_and!; try done. exists []. by rewrite app_nil_r.
  - destruct (IH (dispatch a w)) as (Hstore & Hactions & [entries Hhist] & ? & ? & ? & ?).
    split_and!; try done.
    + rewrite Hactions. simpl. by rewrite fmap_app, <-app_assoc.
    + exists ((store w, a) :: entries). rewrite Hhist. simpl.
      by rewrite <-app_assoc.
Qed.

Lemma timeoutRegistered_cleared (w : Runtime) :
  timeoutRegistered w →
  match validationTimeoutId (orchestrator w) with
  | Some id => clearTimeout id (timeouts w)
  | None => timeouts w
  end = [].
Proof.
  unfold timeoutRegistered. destruct (validationTimeoutId _) as [id|]; [|done].
  intros [runId ->]. unfold clearTimeout. simpl.
  by rewrite bool_decide_eq_true_2.
Qed.

(** What a validating [dispatchChange] leaves behind. *)
Lemma dispatchChange_validating (runId : string) (w : Runtime) :
  existsb requiresValidation (buildSteps (base (orchestrator w))) = true →
  timeoutRegistered w →
  let steps := buildSteps (base (orchestrator w)) in
  let w' := dispatchChange runId w in
  store w'
  = foldl SpecModel.reducer
      (SpecModel.reducer (store w) (VALIDATION_STARTED runId)) steps
  ∧ (history w').*2 = (history w).*2 ++ VALIDATION_STARTED runId :: steps
  ∧ timeouts w' = [mkTimeout (nextTimeoutId w) runId]
  ∧ orchestrator w'
    = mkInnerStateBuilder (base (orchestrator w)) (Some (nextTimeoutId w))
  ∧ nextTimeoutId w' = Pos.succ (nextTimeoutId w)
  ∧ inFlight w' = inFlight w.
Proof.
  intros Hvalidate Hregistered steps w'. unfold w', dispatchChange.
  cbv zeta. rewrite Hvalidate. fold steps.
  destruct (foldl_dispatch (dispatch (VALIDATION_STARTED runId) w) steps)
    as (Hstore & Hactions & _ & Horch & Htimeouts & Hnext & Hflight).
  simpl in *. rewrite Horch, Htimeouts, Hnext, Hflight.
  rewrite (timeoutRegistered_cleared w Hregistered).
  split_and!; try done.
  rewrite Hactions, fmap_app. simpl. by rewrite <-app_assoc.
Qed.

Lemma dispatchChange_not_validating (runId : string) (w : Runtime) :
  existsb requiresValidation (buildSteps (base (orchestrator w))) = false →
  let w' := dispatchChange runId w in
  orchestrator w' = orchestrator w
  ∧ timeouts w' = timeouts w
  ∧ inFlight w' = inFlight w.
Proof.
  intros Hvalidate w'. unfold w', dispatchChange. cbv zeta. rewrite Hvalidate.
  destruct (foldl_dispatch w (buildSteps (base (orchestrator w))))
    as (_ & _ & _ & ? & ? & _ & ?). done.
Qed.

Lemma foldl_pushStep_buildSteps (builder : StateBuilder)
    (steps : list ImporterAction) :
  buildSteps (foldl pushStep builder steps) = buildSteps builder ++ steps.
Proof.
  revert builder. induction steps as [|a steps IH]; intros builder; simpl.
  - by rewrite app_nil_r.
  - rewrite IH. simpl. by rewrite <-app_assoc.
Qed.

Lemma push_invariant (w : Runtime) (steps : list ImporterAction) :
  Forall (λ a, pushedByBuilder a = true) steps →
  Forall (λ a, pushedByBuilder a = true) (buildSteps (base (orchestrator w))) →
  timeoutRegistered w →
  Forall (λ a, pushedByBuilder a = true)
    (buildSteps (base (orchestrator (push steps w))))
  ∧ timeoutRegistered (push steps w)
  ∧ pendingRunIds (push steps w) = pendingRunIds w.
Proof.
  intros Hnew Hsteps Hregistered. split_and!; try done.
  simpl. rewrite foldl_pushStep_buildSteps. by apply Forall_app.
Qed.

(** What holds of every runtime the events lead to. *)
Lemma step_invariant (w w' : Runtime) (event : Event) :
  step w event = Some w' →
  Forall (λ a, pushedByBuilder a = true) (buildSteps (base (orchestrator w))) →
  timeoutRegistered w →
  Forall (λ a, pushedByBuilder a = true) (buildSteps (base (orchestrator w')))
  ∧ timeoutRegistered w'
  ∧ ∀ r, r ∈ pendingRunIds w' →
         r ∈ pendingRunIds w ∨ event = DispatchChange r.
Proof.
  intros Hstep Hsteps Hregistered.
  destruct event
    as [parsed file mappings|amount|mappings|mappedData|payload|payload
       |runId|id|k];
    simpl in Hstep;
    try (injection Hstep as <-;
         match goal with
         | |- context [push ?steps w] =>
             destruct (push_invariant w steps) as (? & ? & ->);
               [by repeat constructor|done|done|]
         end;
         split_and!; [done|done|by left]).
  - injection Hstep as <-.
    destruct (existsb requiresValidation (buildSteps (base (orchestrator w))))
      eqn:Hvalidate.
    + destruct (dispatchChange_validating runId w Hvalidate Hregistered)
        as (_ & _ & Htimeouts & Horch & _ & Hflight).
      unfold timeoutRegistered, pendingRunIds.
      rewrite Horch, Htimeouts, Hflight. simpl. split_and!; [done|by eauto|].
      intros r [->|Hr]%elem_of_cons; [by right|left].
      apply elem_of_app. by right.
    + destruct (dispatchChange_not_validating runId w Hvalidate)
        as (Horch & Htimeouts & Hflight).
      unfold timeoutRegistered, pendingRunIds.
      rewrite Horch, Htimeouts, Hflight. split_and!; try done. by left.
  - unfold timeoutFires in Hstep.
    destruct (List.find _ (timeouts w)) as [t|] eqn:Hfind; [|done].
    injection Hstep as <-. apply find_some in Hfind as [Hin Hid].
    apply bool_decide_eq_true in Hid.
    unfold timeoutRegistered in Hregistered.
    destruct (validationTimeoutId (orchestrator w)) as [id'|];
      [|by rewrite Hregistered in Hin].
    destruct Hregistered as [runId Htimeouts]. rewrite Htimeouts in Hin.
    destruct Hin as [<- | []]. simpl in Hid. subst id'.
    unfold timeoutRegistered, pendingRunIds, clearTimeout. simpl.
    rewrite Htimeouts. simpl. rewrite bool_decide_eq_true_2 by done. simpl.
    split_and!; try done. intros r Hr. left.
    rewrite fmap_app in Hr. simpl in Hr.
    apply elem_of_app in Hr as [Hr|Hr%list_elem_of_singleton].
    + by right.
    + subst r. by left.
  - unfold validationResumes in Hstep.
    destruct (inFlight w !! k) as [p|] eqn:Hk; [|done].
    injection Hstep as <-. unfold timeoutRegistered, pendingRunIds. simpl.
    split_and!; try done. intros r Hr. left.
    apply elem_of_app in Hr as [Hr|Hr]; apply elem_of_app; [by left|right].
    rewrite list_fmap_delete in Hr. by eapply list_elem_of_delete_inv.
Qed.

Lemma run_invariant (w w' : Runtime) (events : list Event) :
  run w events = Some w' →
  Forall (λ a, pushedByBuilder a = true) (buildSteps (base (orchestrator w))) →
  timeoutRegistered w →
  Forall (λ a, pushedByBuilder a = true) (buildSteps (base (orchestrator w')))
  ∧ timeoutRegistered w'
  ∧ ∀ r, r ∈ pendingRunIds w' →
         r ∈ pendingRunIds w ∨ r ∈ generatedRunIds events.
Proof.
  revert w. induction events as [|e events IH]; intros w Hrun Hsteps Hregistered.
  - injection Hrun as <-. split_and!; try done. by left.
  - simpl in Hrun. destruct (step w e) as [w1|] eqn:Hstep; [|done].
    simpl in Hrun.
    destruct (step_invariant _ _ _ Hstep Hsteps Hregistered)
      as (Hsteps1 & Hregistered1 & Hids1).
    destruct (IH _ Hrun Hsteps1 Hregistered1) as (? & ? & Hids).
    split_and!; try done. intros r Hr.
    destruct (Hids r Hr) as [Hr1|Hr1].
    + destruct (Hids1 r Hr1) as [? | ->]; [by left|right].
      unfold generatedRunIds. rewrite omap_cons. by left.
    + right. unfold generatedRunIds. rewrite omap_cons.
      destruct e; try done. by right.
Qed.

Lemma filter_eq_notin (r : string) (ids : list string) :
  r ∉ ids → filter (λ x, x = r) ids = [].
Proof. intros Hnotin. apply filter_nil_all. by intros x Hx ->. Qed.

(** Right after a validating [dispatchChange] with a fresh run id. *)
Lemma awaitingCommit_start (runId : string) (w : Runtime) :
  existsb requiresValidation (buildSteps (base (orchestrator w))) = true →
  Forall (λ a, pushedByBuilder a = true) (buildSteps (base (orchestrator w))) →
  timeoutRegistered w →
  runId ∉ pendingRunIds w →
  awaitingCommit runId (history (dispatchChange runId w))
    (dispatchChange runId w).
Proof.
  intros Hvalidate Hsteps Hregistered Hfresh.
  destruct (dispatchChange_validating runId w Hvalidate Hregistered)
    as (Hstore & _ & Htimeouts & _ & _ & Hflight).
  exists []. rewrite app_nil_r. simpl. split_and!; try done.
  - by rewrite Hstore, foldl_reducer_runId.
  - unfold pendingRunIds. rewrite Htimeouts, Hflight. simpl.
    rewrite filter_cons_True by done. simpl.
    rewrite filter_eq_notin; [done|].
    intros Hin. apply Hfresh, elem_of_app. by right.
  - intros entry Hentry. by apply elem_of_nil in Hentry.
Qed.

Lemma awaitingCommit_step (runId : string)
    (before : list (ImporterState * ImporterAction)) (w w' : Runtime)
    (event : Event) :
  awaitingCommit runId before w →
  timeoutRegistered w →
  isDispatchChange event = false →
  step w event = Some w' →
  awaitingCommit runId before w'.
Proof.
  intros (later & Hhistory & Hstore & Hcount & Hids & Hshown) Hregistered
    Hevent Hstep.
  destruct event
    as [parsed file mappings|amount|mappings|mappedData|payload|payload
       |runId'|id|k];
    simpl in Hstep; try done;
    try (injection Hstep as <-; by exists later).
  - unfold timeoutFires in Hstep.
    destruct (List.find _ (timeouts w)) as [t|] eqn:Hfind; [|done].
    injection Hstep as <-. apply find_some in Hfind as [Hin Hid].
    apply bool_decide_eq_true in Hid.
    unfold timeoutRegistered in Hregistered.
    destruct (validationTimeoutId (orchestrator w)) as [id'|];
      [|by rewrite Hregistered in Hin].
    destruct Hregistered as [r Htimeouts]. rewrite Htimeouts in Hin.
    destruct Hin as [<- | []]. simpl in Hid. subst id'.
    exists later. split_and!; try done.
    rewrite <-Hcount. f_equal. unfold pendingRunIds, clearTimeout. simpl.
    rewrite Htimeouts. simpl. rewrite bool_decide_eq_true_2 by done. simpl.
    rewrite fmap_app. simpl.
    apply Permutation_length. f_equiv.
    by rewrite <-Permutation_cons_append.
  - unfold validationResumes in Hstep.
    destruct (inFlight w !! k) as [p|] eqn:Hk; [|done].
    injection Hstep as <-.
    exists (later ++ [(store w,
                       VALIDATION_COMPLETED
                         (validationErrors (pending_finalState p))
                         (pending_runId p))]).
    assert (length (filter (λ r, r = runId) (pendingRunIds w))
            = length (filter (λ r, r = runId)
                        (pending_runId p
                         :: (timeout_runId <$> timeouts w)
                            ++ (pending_runId <$> delete k (inFlight w)))))
      as Hperm.
    { apply Permutation_length. f_equiv. unfold pendingRunIds.
      rewrite (delete_Permutation (inFlight w) k p Hk) at 1.
      rewrite fmap_cons. by rewrite <-Permutation_middle. }
    rewrite Hperm in Hcount. clear Hperm.
    unfold pendingRunIds. simpl. rewrite omap_app. simpl.
    rewrite Hstore.
    destruct (decide (pending_runId p = runId)) as [Heq|Hne].
    + rewrite Heq in *. rewrite filter_cons_True in Hcount by done.
      simpl in Hcount. rewrite !bool_decide_eq_true_2 by done.
      assert (omap appliedCompletion later = []) as Hnone.
      { apply length_zero_iff_nil. lia. }
      rewrite Hnone in *. simpl. split_and!; try done.
      * by rewrite Hhistory, <-app_assoc.
      * simpl in Hcount. lia.
      * by intros entry ->%list_elem_of_singleton.
    + rewrite filter_cons_False in Hcount by done.
      rewrite !bool_decide_eq_false_2 by congruence.
      rewrite app_nil_r. split_and!; try done.
      by rewrite Hhistory, <-app_assoc.
Qed.

Lemma awaitingCommit_run (runId : string)
    (before : list (ImporterState * ImporterAction)) (w w' : Runtime)
    (events : list Event) :
  awaitingCommit runId before w →
  Forall (λ a, pushedByBuilder a = true) (buildSteps (base (orchestrator w))) →
  timeoutRegistered w →
  forallb (λ event, negb (isDispatchChange event)) events = true →
  run w events = Some w' →
  awaitingCommit runId before w'.
Proof.
  revert w. induction events as [|e events IH];
    intros w Hawaiting Hsteps Hregistered Hevents Hrun.
  - by injection Hrun as <-.
  - simpl in Hevents, Hrun. apply andb_true_iff in Hevents as [He Hevents].
    apply negb_true_iff in He.
    destruct (step w e) as [w1|] eqn:Hstep; [|done]. simpl in Hrun.
    destruct (step_invariant _ _ _ Hstep Hsteps Hregistered) as (? & ? & _).
    apply (IH w1); try done. by eapply awaitingCommit_step.
Qed.

Lemma newRuntime_invariant sheets state :
  Forall (λ a, pushedByBuilder a = true)
    (buildSteps (base (orchestrator (newRuntime sheets state))))
  ∧ timeoutRegistered (newRuntime sheets state)
  ∧ pendingRunIds (newRuntime sheets state) = [].
Proof. by split_and!. Qed.

Lemma appliedCompletion_pushedByBuilder (entries : list (ImporterState * ImporterAction)) :
  Forall (λ a, pushedByBuilder a = true) entries.*2 →
  omap appliedCompletion entries = [].
Proof.
  induction entries as [|[st a] entries IH]; [done|]. rewrite fmap_cons.
  intros [Ha Hrest]%Forall_cons. rewrite omap_cons, IH by done.
  by destruct a.
Qed.

(** A validating or non-validating [dispatchChange] applies no completion. *)
Lemma dispatchChange_applies_nothing (runId : string) (w : Runtime) :
  Forall (λ a, pushedByBuilder a = true) (buildSteps (base (orchestrator w))) →
  omap appliedCompletion (history (dispatchChange runId w))
  = omap appliedCompletion (history w).
Proof.
  intros Hsteps. unfold dispatchChange. cbv zeta.
  set (steps := buildSteps (base (orchestrator w))) in *.
  assert (∀ w0, omap appliedCompletion
                  (history (foldl (λ w step, dispatch step w) w0 steps))
                = omap appliedCompletion (history w0)) as Hbatch.
  { intros w0.
    destruct (foldl_dispatch w0 steps) as (_ & Hactions & [entries Hhistory] & _).
    rewrite Hhistory, fmap_app in Hactions.
    apply app_inv_head in Hactions.
    rewrite Hhistory, omap_app, (appliedCompletion_pushedByBuilder entries),
      app_nil_r; [done|by rewrite Hactions]. }
  destruct (existsb requiresValidation steps); simpl; rewrite Hbatch; [|done].
  simpl. by rewrite omap_app, app_nil_r.
Qed.

(** While no timeout fires, no validation is in flight and no completion is
    applied. *)
Lemma run_without_timeout (w w' : Runtime) (events : list Event) :
  run w events = Some w' →
  forallb (λ event, negb (isTimeoutFires event)) events = true →
  Forall (λ a, pushedByBuilder a = true) (buildSteps (base (orchestrator w))) →
  timeoutRegistered w →
  inFlight w = [] →
  inFlight w' = []
  ∧ omap appliedCompletion (history w') = omap appliedCompletion (history w).
Proof.
  revert w. induction events as [|e events IH];
    intros w Hrun Hevents Hsteps Hregistered Hflight.
  - by injection Hrun as <-.
  - simpl in Hevents, Hrun. apply andb_true_iff in Hevents as [He Hevents].
    destruct (step w e) as [w1|] eqn:Hstep; [|done]. simpl in Hrun.
    destruct (step_invariant _ _ _ Hstep Hsteps Hregistered) as (Hsteps1 & Hregistered1 & _).
    assert (inFlight w1 = []
            ∧ omap appliedCompletion (history w1)
              = omap appliedCompletion (history w)) as [Hflight1 Happlied1].
    { destruct e
        as [parsed file mappings|amount|mappings|mappedData|payload|payload
           |runId|id|k];
        simpl in Hstep, He; try done; try (by injection Hstep as <-).
      - injection Hstep as <-. split.
        + destruct (existsb requiresValidation
                      (buildSteps (base (orchestrator w)))) eqn:Hvalidate.
          * destruct (dispatchChange_validating runId w Hvalidate Hregistered)
              as (_ & _ & _ & _ & _ & ->). done.
          * destruct (dispatchChange_not_validating runId w Hvalidate)
              as (_ & _ & ->). done.
        + by apply dispatchChange_applies_nothing.
      - unfold validationResumes in Hstep. by rewrite Hflight in Hstep. }
    destruct (IH w1 Hrun Hevents Hsteps1 Hregistered1 Hflight1) as [? ->].
    done.
Qed.

(** C3.  For an interactive builder driven by any sequence of calls of its
    methods, timeouts firing and validations finishing:
    - a [dispatchChange] whose pending steps include a DATA_MAPPED,
      CELL_CHANGED or REMOVE_ROWS step dispatches VALIDATION_STARTED with
      the generated run id, then the pending steps in their order, and
      leaves exactly one timeout scheduled, the new one;
    - at most one timeout is scheduled at any time;
    - after such a [dispatchChange] whose run id differs from all those
      generated before it, and until the next [dispatchChange], every
      VALIDATION_COMPLETED that the state accepts carries that run id and
      there is at most one; once nothing is scheduled or in flight there is
      exactly one, and the state shows its errors, no validation in
      progress, and that run id;
    - if moreover no timeout fired before that [dispatchChange] (the
      dispatches fall within one debounce window), no other
      VALIDATION_COMPLETED was applied before it either. *)
Theorem dispatchChange_debounces_validation
    (sheets : list SheetDefinition) (state : ImporterState) :
  let start := newRuntime sheets state in
  (∀ events w runId,
     run start events = Some w →
     existsb requiresValidation (buildSteps (base (orchestrator w))) = true →
     (history (dispatchChange runId w)).*2
     = (history w).*2
       ++ VALIDATION_STARTED runId :: buildSteps (base (orchestrator w))
     ∧ timeouts (dispatchChange runId w)
       = [mkTimeout (nextTimeoutId w) runId])
  ∧ (∀ events w, run start events = Some w → length (timeouts w) ≤ 1)
  ∧ (∀ earlier runId later w1 w,
       run start earlier = Some w1 →
       existsb requiresValidation (buildSteps (base (orchestrator w1))) = true →
       NoDup (generatedRunIds earlier ++ [runId]) →
       forallb (λ event, negb (isDispatchChange event)) later = true →
       run (dispatchChange runId w1) later = Some w →
       ∃ entries,
         history w = history (dispatchChange runId w1) ++ entries
         ∧ (∀ entry, entry ∈ omap appliedCompletion entries →
                     entry.1 = runId)
         ∧ length (omap appliedCompletion entries) ≤ 1
         ∧ (quiescent w →
            ∃ errors,
              omap appliedCompletion entries = [(runId, errors)]
              ∧ validationErrors (store w) = errors
              ∧ validationInProgress (store w) = Some false
              ∧ validationRunId (store w) = Some runId)
         ∧ (forallb (λ event, negb (isTimeoutFires event)) earlier = true →
            omap appliedCompletion (history w)
            = omap appliedCompletion entries)).
Proof.
  intros start.
  destruct (newRuntime_invariant sheets state) as (Hsteps0 & Hregistered0 & Hids0).
  fold start in Hsteps0, Hregistered0, Hids0.
  split_and!.
  - intros events w runId Hrun Hvalidate.
    destruct (run_invariant _ _ _ Hrun Hsteps0 Hregistered0) as (_ & Hregistered & _).
    destruct (dispatchChange_validating runId w Hvalidate Hregistered)
      as (_ & ? & ? & _). done.
  - intros events w Hrun.
    destruct (run_invariant _ _ _ Hrun Hsteps0 Hregistered0) as (_ & Hregistered & _).
    unfold timeoutRegistered in Hregistered.
    destruct (validationTimeoutId _); [destruct Hregistered as [? ->]|rewrite Hregistered];
      simpl; lia.
  - intros earlier runId later w1 w Hearlier Hvalidate Hfresh Hlater Hrun.
    destruct (run_invariant _ _ _ Hearlier Hsteps0 Hregistered0)
      as (Hsteps1 & Hregistered1 & Hids1).
    assert (runId ∉ pendingRunIds w1) as Hnotin.
    { intros Hin. destruct (Hids1 _ Hin) as [Hin'|Hin'].
      - rewrite Hids0 in Hin'. by apply elem_of_nil in Hin'.
      - apply NoDup_app in Hfresh as (_ & Hdisjoint & _).
        apply (Hdisjoint _ Hin'). by left. }
    pose proof (awaitingCommit_start runId w1 Hvalidate Hsteps1 Hregistered1
                  Hnotin) as Hawaiting.
    assert (step w1 (DispatchChange runId) = Some (dispatchChange runId w1))
      as Hstep by done.
    destruct (step_invariant _ _ _ Hstep Hsteps1 Hregistered1)
      as (Hsteps2 & Hregistered2 & _).
    destruct (awaitingCommit_run _ _ _ _ _ Hawaiting Hsteps2 Hregistered2
                Hlater Hrun)
      as (entries & Hhistory & Hstore & Hcount & Hids & Hshown).
    exists entries. split_and!; try done; [lia| |].
    + intros [Htimeouts Hflight].
      unfold pendingRunIds in Hcount. rewrite Htimeouts, Hflight in Hcount.
      simpl in Hcount.
      destruct (omap appliedCompletion entries) as [|[r errors] [|??]] eqn:Happlied;
        simpl in Hcount; try lia.
      exists errors. pose proof (Hids (r, errors)) as Hr. simpl in Hr.
      rewrite Hr by left. destruct Hshown as [? ?]. done.
    + intros Hwindow.
      destruct (run_without_timeout _ _ _ Hearlier Hwindow Hsteps0 Hregistered0
                  eq_refl) as [_ Hnone].
      rewrite Hhistory, omap_app, dispatchChange_applies_nothing, Hnone by done.
      done.
Qed.

End Debounce.

(** * Further properties of the engine *)

(** ** Incremental validation against full validation *)

Section IncrementalSoundness.
Context `{Collaborators}.

Lemma filter_concat {A} (P : A → Prop) `{!∀ x, Decision (P x)}
    (ls : list (list A)) :
  filter P (concat ls) = concat (filter P <$> ls).
Proof.
  induction ls as [|l ls IH]; [done|]. simpl. by rewrite filter_app, IH.
Qed.

Lemma fmap_imap_list {A B C} (f : B → C) (g : nat → A → B) (l : list A) :
  f <$> imap g l = imap (λ i x, f (g i x)) l.
Proof.
  revert g. induction l as [|x l IH]; intros g; [done|].
  rewrite !imap_cons, fmap_cons. f_equal. apply IH.
Qed.

Lemma filter_iff_in {A} (P Q : A → Prop) `{!∀ x, Decision (P x)}
    `{!∀ x, Decision (Q x)} (l : list A) :
  (∀ x, x ∈ l → (P x ↔ Q x)) → filter P l = filter Q l.
Proof.
  induction l as [|x l IH]; intros HPQ; [done|].
  rewrite !filter_cons, IH by (intros y Hy; apply HPQ; by right).
  destruct (decide (P x)), (decide (Q x)); try done;
    exfalso; pose proof (HPQ x (list_elem_of_here _ _)); tauto.
Qed.

Lemma validateSpecificRows_launched_as_filter
    (sheetDefinition : SheetDefinition) (sheetData : SheetState)
    (allData : list SheetState) (rowIndices : gset nat) :
  validateSpecificRows_launched sheetDefinition sheetData allData rowIndices
  = filter (λ ev, ev_rowIndex ev ∈ rowIndices)
      (validateSheet_launched sheetDefinition sheetData allData).
Proof.
  unfold validateSpecificRows_launched, validateSheet_launched.
  rewrite filter_bind. apply list_bind_ext_in. intros columnDefinition _.
  rewrite filter_concat, fmap_imap_list. f_equal.
  apply imap_ext. intros i row _. simpl.
  rewrite !validateSheet_row_body.
  destruct (decide (i ∈ rowIndices)) as [Hin|Hout].
  - rewrite bool_decide_eq_true_2 by done. simpl. symmetry.
    apply filter_all. intros ev Hev.
    destruct (validatedCell columnDefinition row); [|by apply elem_of_nil in Hev].
    by apply elem_of_launch in Hev as (_ & _ & ->).
  - rewrite bool_decide_eq_false_2 by done. simpl. symmetry.
    apply filter_nil_all. intros ev Hev.
    destruct (validatedCell columnDefinition row); [|by apply elem_of_nil in Hev].
    by apply elem_of_launch in Hev as (_ & _ & ->).
Qed.

(** X2.  [validateSpecificRows] launches the evaluations [validateSheet]
    launches for the rows of the set, and no other, in the same order: each
    is for the sheet of the definition and a row of the set that the sheet
    state has, and an empty set launches nothing. *)
Theorem validateSpecificRows_launched_filter
    (sheetDefinition : SheetDefinition) (sheetData : SheetState)
    (allData : list SheetState) (rowIndices : gset nat) :
  validateSpecificRows_launched sheetDefinition sheetData allData rowIndices
  = filter (λ ev, ev_rowIndex ev ∈ rowIndices)
      (validateSheet_launched sheetDefinition sheetData allData)
  ∧ validateSpecificRows_launched sheetDefinition sheetData allData rowIndices
    `sublist_of` validateSheet_launched sheetDefinition sheetData allData
  ∧ (∀ ev,
       ev ∈ validateSpecificRows_launched sheetDefinition sheetData allData
              rowIndices →
       ev_sheetId ev = sd_id sheetDefinition
       ∧ ev_rowIndex ev ∈ rowIndices
       ∧ ev_rowIndex ev < length (ss_rows sheetData))
  ∧ validateSpecificRows_launched sheetDefinition sheetData allData ∅ = [].
Proof.
  split_and!.
  - apply validateSpecificRows_launched_as_filter.
  - rewrite validateSpecificRows_launched_as_filter. apply sublist_filter.
  - intros ev Hev. rewrite validateSpecificRows_launched_as_filter in Hev.
    apply list_elem_of_filter in Hev as [Hin Hev].
    apply elem_of_validateSheet_launched in Hev
      as (Hsheet & columnDefinition & row & _ & Hrow & _).
    split_and!; [done|done|by eapply lookup_lt_Some].
  - rewrite validateSpecificRows_launched_as_filter.
    apply filter_nil_all. intros ev _. apply not_elem_of_empty.
Qed.

Lemma settleAll_filter (P : Evaluation → Prop) `{!∀ ev, Decision (P ev)}
    (Q : ImporterValidationError → Prop) `{!∀ e, Decision (Q e)}
    (order : list Evaluation) errors :
  (∀ ev e, evaluationError ev = Some e → (Q e ↔ P ev)) →
  settleAll order = Fulfilled errors →
  settleAll (filter P order) = Fulfilled (filter Q errors).
Proof.
  intros HPQ. revert errors.
  induction order as [|ev order IH]; intros errors Hsettle.
  - by injection Hsettle as <-.
  - simpl in Hsettle. rewrite filter_cons.
    destruct (ev_result ev) as [[message|]|] eqn:Hresult; simpl in Hsettle;
      [| |done];
      destruct (settleAll order) as [errors'|]; simpl in Hsettle; [|done| |done];
      injection Hsettle as <-; specialize (IH _ eq_refl).
    + assert (evaluationError ev
              = Some (mkError (ev_sheetId ev) (ev_columnId ev) (ev_rowIndex ev)
                        message)) as Herror
        by (unfold evaluationError; by rewrite Hresult).
      specialize (HPQ _ _ Herror). rewrite filter_cons.
      destruct (decide (P ev)) as [HP|HP].
      * simpl. rewrite Hresult, IH. simpl.
        by rewrite decide_True by tauto.
      * rewrite IH. by rewrite decide_False by tauto.
    + destruct (decide (P ev)); [|done]. simpl. by rewrite Hresult, IH.
Qed.

(** The errors of a fulfilled sheet validation are on the sheet. *)
Lemma validateSheet_sheetId sheetDefinition sheetData allData errors e :
  validateSheet sheetDefinition sheetData allData = Fulfilled errors →
  e ∈ errors → ve_sheetId e = sd_id sheetDefinition.
Proof.
  intros Hsettle He. apply settleAll_Fulfilled in Hsettle as ->.
  apply list_elem_of_omap in He as (ev & Hev & Herr).
  apply elem_of_validateSheet_launched in Hev as [Hsheet _].
  unfold evaluationError in Herr.
  destruct (ev_result ev) as [[message|]|]; try done. by injection Herr as <-.
Qed.

(** The incremental run is the run without existing errors, with the existing
    errors that are not on dirty rows put in front. *)
Lemma incremental_merge_replaces_dirty_rows_aux
    (sheetDefinitions : list SheetDefinition) (sheetStates : list SheetState)
    (existingErrors : list ImporterValidationError)
    (dirtyRows : gmap string (gset nat)) :
  applyValidationsToSpecificRows sheetDefinitions sheetStates existingErrors
    dirtyRows
  = (fresh ← applyValidationsToSpecificRows sheetDefinitions sheetStates []
               dirtyRows;
     mret (filter (notDirty dirtyRows) existingErrors ++ fresh)).
Proof.
  unfold applyValidationsToSpecificRows.
  destruct (promiseAll _) as [newErrors|]; simpl; [|done].
  by rewrite !mergeErrors_spec.
Qed.

(** What the incremental run returns for one sheet, when the full run is
    fulfilled for it. *)
Lemma specificRows_of_full (sheetStates : list SheetState)
    (dirtyRows : gmap string (gset nat)) (sheetDefinition : SheetDefinition)
    (errors : list ImporterValidationError) :
  match findSheet sheetStates (sd_id sheetDefinition) with
  | Some sheetData => validateSheet sheetDefinition sheetData sheetStates
  | None => Fulfilled []
  end = Fulfilled errors →
  match specificRowsPromise dirtyRows sheetStates sheetDefinition with
  | Some (sheetData, dirtyRowIndices) =>
      validateSpecificRows sheetDefinition sheetData sheetStates dirtyRowIndices
  | None => Fulfilled []
  end = Fulfilled (filter (onDirtyRow dirtyRows) errors)
  ∧ Forall (λ e, ve_sheetId e = sd_id sheetDefinition) errors.
Proof.
  intros Hfull. unfold specificRowsPromise.
  destruct (findSheet sheetStates (sd_id sheetDefinition)) as [sheetData|];
    [|injection Hfull as <-; by split].
  assert (Forall (λ e, ve_sheetId e = sd_id sheetDefinition) errors) as Hsheet.
  { apply Forall_forall. intros e He. by eapply validateSheet_sheetId. }
  split; [|done].
  assert (∀ rowIndices,
            dirtyRows !! sd_id sheetDefinition = Some rowIndices →
            validateSpecificRows sheetDefinition sheetData sheetStates rowIndices
            = Fulfilled (filter (onDirtyRow dirtyRows) errors)) as Hsome.
  { intros rowIndices Hlook. unfold validateSpecificRows.
    rewrite validateSpecificRows_launched_as_filter.
    rewrite (settleAll_filter _ (λ e, ve_rowIndex e ∈ rowIndices) _ errors);
      [|intros ev e He; unfold evaluationError in He;
        destruct (ev_result ev) as [[?|]|]; try done; by injection He as <-
       |done].
    f_equal. apply filter_iff_in. intros e He.
    rewrite Forall_forall in Hsheet. unfold onDirtyRow, isDirty.
    rewrite (Hsheet e He), Hlook. split.
    - intros ?. eauto.
    - by intros (? & [= <-] & ?). }
  assert (filter (onDirtyRow dirtyRows) errors = []
          ∨ ∃ rowIndices, dirtyRows !! sd_id sheetDefinition = Some rowIndices
                          ∧ 0 < size rowIndices) as [Hnone|(rowIndices & Hlook & Hsize)].
  { destruct (dirtyRows !! sd_id sheetDefinition) as [rowIndices|] eqn:Hlook.
    - destruct (decide (0 < size rowIndices)); [by eauto|left].
      assert (rowIndices = ∅) as ->
        by (apply leibniz_equiv, size_empty_iff; lia).
      apply filter_nil_all. intros e He (rowIndices & Hlook' & Hin).
      rewrite Forall_forall in Hsheet. rewrite (Hsheet e He), Hlook in Hlook'.
      injection Hlook' as <-. set_solver.
    - left. apply filter_nil_all. intros e He (rowIndices & Hlook' & Hin).
      rewrite Forall_forall in Hsheet. rewrite (Hsheet e He), Hlook in Hlook'.
      done. }
  - destruct (dirtyRows !! sd_id sheetDefinition) as [rowIndices|] eqn:Hlook;
      [|by rewrite Hnone].
    case_bool_decide; [by apply Hsome|by rewrite Hnone].
  - rewrite Hlook, bool_decide_eq_true_2 by done. by apply Hsome.
Qed.

Lemma promiseAll_Fulfilled_inv {A} (ps : list (Settled A)) (values : list A) :
  promiseAll ps = Fulfilled values ↔ ps = Fulfilled <$> values.
Proof.
  revert values. induction ps as [|p ps IH]; intros values; simpl.
  - split; [by intros [= <-]|]. by destruct values.
  - destruct p as [a|]; simpl; [|split; [done|by destruct values]].
    destruct (promiseAll ps) as [as'|] eqn:Hps; simpl.
    + split.
      * intros [= <-]. rewrite fmap_cons. f_equal. by apply IH.
      * destruct values as [|v values]; [done|]. rewrite fmap_cons.
        intros [= -> Hrest]. apply IH in Hrest. by injection Hrest as <-.
    + split; [done|]. destruct values as [|v values]; [done|].
      rewrite fmap_cons. intros [= -> Hrest]. by apply IH in Hrest.
Qed.

(** The fresh errors of an incremental run are the errors of the full run
    that are on dirty rows. *)
Lemma fresh_errors_of_full sheetDefinitions sheetStates dirtyRows errors :
  applyValidations sheetDefinitions sheetStates = Fulfilled errors →
  applyValidationsToSpecificRows sheetDefinitions sheetStates [] dirtyRows
  = Fulfilled (filter (onDirtyRow dirtyRows) errors).
Proof.
  unfold applyValidations, applyValidationsToSpecificRows.
  destruct (promiseAll _) as [perSheet|] eqn:Hfull; simpl; [|done].
  intros [= <-]. apply promiseAll_Fulfilled_inv in Hfull.
  assert (promiseAll
            ((λ sheetDefinition,
                match specificRowsPromise dirtyRows sheetStates sheetDefinition with
                | Some (sheetData, dirtyRowIndices) =>
                    validateSpecificRows sheetDefinition sheetData sheetStates
                      dirtyRowIndices
                | None => Fulfilled []
                end) <$> sheetDefinitions)
          = Fulfilled (filter (onDirtyRow dirtyRows) <$> perSheet)) as ->.
  { apply promiseAll_Fulfilled_inv. revert perSheet Hfull.
    induction sheetDefinitions as [|def defs IH]; intros perSheet Hfull.
    - by destruct perSheet.
    - destruct perSheet as [|errors perSheet]; [done|].
      rewrite !fmap_cons in Hfull |- *. injection Hfull as Hdef Hdefs.
      rewrite (IH _ Hdefs).
      destruct (specificRows_of_full sheetStates dirtyRows def errors Hdef)
        as [Hinc _].
      simpl. by rewrite Hinc. }
  simpl. unfold mergeErrors. simpl. by rewrite filter_concat.
Qed.

(** X3.  Incremental validation is as good as full validation when the
    existing errors are up to date outside the dirty rows: if full validation
    of the sheet states is fulfilled with errors [F] and the existing errors
    [E] agree with [F] on the rows that are not dirty, the incremental run is
    fulfilled with the errors of [F] off the dirty rows followed by those on
    them, a rearrangement of [F]. *)
Theorem incremental_validation_sound
    (sheetDefinitions : list SheetDefinition) (sheetStates : list SheetState)
    (existingErrors fullErrors : list ImporterValidationError)
    (dirtyRows : gmap string (gset nat)) :
  applyValidations sheetDefinitions sheetStates = Fulfilled fullErrors →
  filter (notDirty dirtyRows) existingErrors
  = filter (notDirty dirtyRows) fullErrors →
  applyValidationsToSpecificRows sheetDefinitions sheetStates existingErrors
    dirtyRows
  = Fulfilled (filter (notDirty dirtyRows) fullErrors
               ++ filter (onDirtyRow dirtyRows) fullErrors)
  ∧ filter (notDirty dirtyRows) fullErrors
    ++ filter (onDirtyRow dirtyRows) fullErrors ≡ₚ fullErrors.
Proof.
  intros Hfull Hcurrent. split.
  - pose proof (fresh_errors_of_full _ _ dirtyRows _ Hfull) as Hfresh.
    rewrite incremental_merge_replaces_dirty_rows_aux, Hfresh. simpl.
    by rewrite <-Hcurrent.
  - rewrite Permutation_app_comm. apply filter_app_complement.
Qed.

(** The errors an incremental sheet run is fulfilled with are on dirty
    rows. *)
Lemma specificRows_errors_dirty (sheetStates : list SheetState)
    (dirtyRows : gmap string (gset nat)) (sheetDefinition : SheetDefinition)
    (out : Settled (list ImporterValidationError)) errors :
  match specificRowsPromise dirtyRows sheetStates sheetDefinition with
  | Some (sheetData, dirtyRowIndices) =>
      settlesTo (validateSpecificRows_launched sheetDefinition sheetData
                   sheetStates dirtyRowIndices) out
  | None => out = Fulfilled []
  end →
  out = Fulfilled errors →
  Forall (onDirtyRow dirtyRows) errors.
Proof.
  intros Hsettles ->. apply Forall_forall. intros e He.
  unfold specificRowsPromise in Hsettles.
  destruct (findSheet sheetStates (sd_id sheetDefinition)) as [sheetData|];
    [|simplify_eq; by apply elem_of_nil in He].
  destruct (dirtyRows !! sd_id sheetDefinition) as [rowIndices|] eqn:Hdirty;
    [|simplify_eq; by apply elem_of_nil in He].
  case_bool_decide; [|simplify_eq; by apply elem_of_nil in He].
  rewrite validateSpecificRows_launched_as_filter in Hsettles.
  destruct Hsettles as (order & Hperm & Hsettle).
  symmetry in Hsettle. apply settleAll_Fulfilled in Hsettle as ->.
  apply list_elem_of_omap in He as (ev & Hev & Herr). rewrite Hperm in Hev.
  apply list_elem_of_filter in Hev as [Hin Hev].
  apply elem_of_validateSheet_launched in Hev as [Hsheet _].
  unfold evaluationError in Herr.
  destruct (ev_result ev) as [[message|]|]; try done. injection Herr as <-.
  exists rowIndices. simpl. by rewrite Hsheet.
Qed.

(** However the evaluations resolve, a fulfilled incremental run keeps the
    existing errors off the dirty rows and adds errors on dirty rows only. *)
Lemma incremental_settles_clean_rows
    (sheetDefinitions : list SheetDefinition) (sheetStates : list SheetState)
    (existingErrors : list ImporterValidationError)
    (dirtyRows : gmap string (gset nat)) errors :
  applyValidationsToSpecificRows_settles sheetDefinitions sheetStates
    existingErrors dirtyRows (Fulfilled errors) →
  ∃ fresh,
    errors = filter (notDirty dirtyRows) existingErrors ++ fresh
    ∧ Forall (onDirtyRow dirtyRows) fresh.
Proof.
  intros (outs & Houts & Hall).
  destruct (promiseAll outs) as [perSheet|] eqn:Hper; [|done].
  injection Hall as ->. apply promiseAll_Fulfilled_inv in Hper as ->.
  exists (concat perSheet). split; [by rewrite mergeErrors_spec|].
  apply Forall_forall. intros e He.
  apply elem_of_concat in He as (errors & He & Herrors).
  apply list_elem_of_lookup in Herrors as [k Hk].
  assert ((Fulfilled <$> perSheet) !! k = Some (Fulfilled errors)) as Hout
    by (by rewrite list_lookup_fmap, Hk).
  destruct (Forall2_lookup_r _ _ _ _ _ Houts Hout) as (def & Hdef & Hsettles).
  eapply Forall_forall; [|exact He].
  by eapply specificRows_errors_dirty.
Qed.

End IncrementalSoundness.

(** ** The key of a dirty row *)

(** X1.  The keys [applyValidationsToSpecificRows] builds to drop existing
    errors are unambiguous for row indices that are natural numbers: two keys
    are equal only for the same sheet id and the same row index, whatever
    dashes the sheet ids contain, so the set of
    keys holds the key of an error exactly when the row of the error is
    dirty, and the errors kept are those whose row is not dirty. *)
Theorem dirtyRowKeys_unambiguous :
  (∀ sheetId1 sheetId2 rowIndex1 rowIndex2,
     rowKey sheetId1 rowIndex1 = rowKey sheetId2 rowIndex2
     ↔ sheetId1 = sheetId2 ∧ rowIndex1 = rowIndex2)
  ∧ (∀ dirtyRows sheetId rowIndex,
       rowKey sheetId rowIndex ∈ dirtyRowKeys dirtyRows
       ↔ ∃ rowIndices,
           dirtyRows !! sheetId = Some rowIndices ∧ rowIndex ∈ rowIndices)
  ∧ (∀ existingErrors dirtyRows e,
       e ∈ mergeErrors existingErrors dirtyRows []
       ↔ e ∈ existingErrors
         ∧ ¬ ∃ rowIndices,
               dirtyRows !! ve_sheetId e = Some rowIndices
               ∧ ve_rowIndex e ∈ rowIndices).
Proof.
  split_and!.
  - intros sheetId1 sheetId2 rowIndex1 rowIndex2. split.
    + apply rowKey_inj.
    + by intros [-> ->].
  - intros dirtyRows sheetId rowIndex. apply elem_of_dirtyRowKeys.
  - intros existingErrors dirtyRows e. rewrite mergeErrors_spec. simpl.
    rewrite app_nil_r, list_elem_of_filter. unfold isDirty. tauto.
Qed.

(** ** Where errors can be, and when a run is rejected *)

Section ErrorsAndEdges.
Context `{Collaborators}.

Lemma settlesTo_wellPlaced sheetDefinitions sheetStates sheetDefinition
    sheetData errors :
  sheetDefinition ∈ sheetDefinitions →
  findSheet sheetStates (sd_id sheetDefinition) = Some sheetData →
  settlesTo (validateSheet_launched sheetDefinition sheetData sheetStates)
    (Fulfilled errors) →
  Forall (wellPlaced sheetDefinitions sheetStates) errors.
Proof.
  intros Hdef Hfind (order & Hperm & Hsettle). apply Forall_forall. intros e He.
  symmetry in Hsettle. apply settleAll_Fulfilled in Hsettle as ->.
  apply list_elem_of_omap in He as (ev & Hev & Herr). rewrite Hperm in Hev.
  apply elem_of_validateSheet_launched in Hev
    as (Hsheet & columnDefinition & row & Hcol & Hrow & Hid & _).
  unfold evaluationError in Herr.
  destruct (ev_result ev) as [[message|]|]; try done. injection Herr as <-.
  exists sheetDefinition, sheetData, columnDefinition. simpl.
  rewrite Hsheet. split_and!; try done. by eapply lookup_lt_Some.
Qed.

(** X4.  Errors are on cells that exist.  Every error of a fulfilled full
    validation names a sheet definition that has a sheet state, one of its
    columns, and a row index within the rows of that sheet state, whatever
    the order in which the evaluations resolve; and an incremental run whose
    existing errors are such returns only such errors. *)
Theorem validation_errors_are_on_existing_cells
    (sheetDefinitions : list SheetDefinition) (sheetStates : list SheetState) :
  (∀ errors,
     applyValidations_settles sheetDefinitions sheetStates (Fulfilled errors) →
     Forall (wellPlaced sheetDefinitions sheetStates) errors)
  ∧ (∀ existingErrors dirtyRows errors,
       Forall (wellPlaced sheetDefinitions sheetStates) existingErrors →
       applyValidationsToSpecificRows_settles sheetDefinitions sheetStates
         existingErrors dirtyRows (Fulfilled errors) →
       Forall (wellPlaced sheetDefinitions sheetStates) errors).
Proof.
  split.
  - intros errors (outs & Houts & Hall).
    destruct (promiseAll outs) as [perSheet|] eqn:Hper; [|done].
    injection Hall as ->. apply promiseAll_Fulfilled_inv in Hper as ->.
    apply Forall_forall. intros e He.
    apply elem_of_concat in He as (errors & He & Herrors).
    apply list_elem_of_lookup in Herrors as [k Hk].
    assert ((Fulfilled <$> perSheet) !! k = Some (Fulfilled errors)) as Hout
      by (by rewrite list_lookup_fmap, Hk).
    destruct (Forall2_lookup_r _ _ _ _ _ Houts Hout) as (def & Hdef & Hsettles).
    destruct (findSheet sheetStates (sd_id def)) as [sheetData|] eqn:Hfind.
    + eapply Forall_forall; [|exact He].
      eapply settlesTo_wellPlaced; [|exact Hfind|exact Hsettles].
      by eapply list_elem_of_lookup_2.
    + simplify_eq. by apply elem_of_nil in He.
  - intros existingErrors dirtyRows errors Hexisting (outs & Houts & Hall).
    destruct (promiseAll outs) as [perSheet|] eqn:Hper; [|done].
    injection Hall as ->. apply promiseAll_Fulfilled_inv in Hper as ->.
    rewrite mergeErrors_spec. apply Forall_app. split.
    + apply Forall_forall. intros e [_ He]%list_elem_of_filter.
      by eapply Forall_forall in Hexisting.
    + apply Forall_forall. intros e He.
      apply elem_of_concat in He as (errors & He & Herrors).
      apply list_elem_of_lookup in Herrors as [k Hk].
      assert ((Fulfilled <$> perSheet) !! k = Some (Fulfilled errors)) as Hout
        by (by rewrite list_lookup_fmap, Hk).
      destruct (Forall2_lookup_r _ _ _ _ _ Houts Hout) as (def & Hdef & Hsettles).
      unfold specificRowsPromise in Hsettles.
      destruct (findSheet sheetStates (sd_id def)) as [sheetData|] eqn:Hfind;
        [|simplify_eq; by apply elem_of_nil in He].
      destruct (dirtyRows !! sd_id def) as [rowIndices|];
        [|simplify_eq; by apply elem_of_nil in He].
      case_bool_decide;
        [|simplify_eq; by apply elem_of_nil in He].
      rewrite validateSpecificRows_launched_as_filter in Hsettles.
      destruct Hsettles as (order & Hperm & Hsettle).
      symmetry in Hsettle. apply settleAll_Fulfilled in Hsettle as ->.
      apply list_elem_of_omap in He as (ev & Hev & Herr). rewrite Hperm in Hev.
      apply list_elem_of_filter in Hev as [_ Hev].
      apply elem_of_validateSheet_launched in Hev
        as (Hsheet & columnDefinition & row & Hcol & Hrow & Hid & _).
      unfold evaluationError in Herr.
      destruct (ev_result ev) as [[message|]|]; try done. injection Herr as <-.
      exists def, sheetData, columnDefinition. simpl.
      rewrite Hsheet. split_and!; try done.
      * by eapply list_elem_of_lookup_2.
      * by eapply lookup_lt_Some.
Qed.

Lemma settleAll_rejected_inv (order : list Evaluation) :
  settleAll order = Rejected →
  ∃ ev, ev ∈ order ∧ ev_result ev = Rejected.
Proof.
  induction order as [|ev order IH]; [done|]. simpl.
  destruct (ev_result ev) as [result|] eqn:Hresult; simpl.
  - destruct (settleAll order); [done|]. intros _.
    destruct IH as (ev' & Hin & Hrejected); [done|].
    exists ev'. split; [by right|done].
  - intros _. exists ev. split; [by left|done].
Qed.

Lemma promiseAll_rejected_inv {A} (outs : list (Settled A)) :
  promiseAll outs = Rejected → Rejected ∈ outs.
Proof.
  induction outs as [|o outs IH]; [done|]. simpl.
  destruct o as [a|]; simpl; [|intros _; by left].
  destruct (promiseAll outs); [done|]. intros _. right. by apply IH.
Qed.

(** X5.  No partial result: in whatever order the validator evaluations
    resolve, full validation is rejected exactly when one of the evaluations
    it launched is rejected, and fulfilled otherwise. *)
Theorem applyValidations_rejected_iff
    (sheetDefinitions : list SheetDefinition) (sheetStates : list SheetState)
    (o : Settled (list ImporterValidationError)) :
  applyValidations_settles sheetDefinitions sheetStates o →
  o = Rejected
  ↔ ∃ ev, ev ∈ applyValidations_launched sheetDefinitions sheetStates
          ∧ ev_result ev = Rejected.
Proof.
  intros Hsettles. split.
  - intros ->. destruct Hsettles as (outs & Houts & Hall).
    destruct (promiseAll outs) as [values|] eqn:Houtcome; [done|].
    apply promiseAll_rejected_inv, list_elem_of_lookup in Houtcome as [k Hk].
    destruct (Forall2_lookup_r _ _ _ _ _ Houts Hk) as (def & Hdef & Hsettles).
    destruct (findSheet sheetStates (sd_id def)) as [sheetData|] eqn:Hfind;
      [|done].
    destruct Hsettles as (order & Hperm & Hsettle). symmetry in Hsettle.
    apply settleAll_rejected_inv in Hsettle as (ev & Hev & Hrejected).
    exists ev. split; [|done].
    unfold applyValidations_launched. apply list_elem_of_bind.
    exists def. split; [|by eapply list_elem_of_lookup_2].
    rewrite Hfind. by rewrite <-Hperm.
  - intros (ev & Hev & Hrejected).
    by eapply applyValidations_settles_rejected.
Qed.

(** X6.  Nothing to validate: when no row of any sheet state has data (in
    particular when there is no sheet state, or no row), full validation
    launches no evaluation and is fulfilled without errors, whatever the
    validators. *)
Theorem applyValidations_without_data
    (sheetDefinitions : list SheetDefinition) (sheetStates : list SheetState) :
  Forall (λ sheetState,
            Forall (λ row, hasData row = false) (ss_rows sheetState))
    sheetStates →
  applyValidations_launched sheetDefinitions sheetStates = []
  ∧ applyValidations sheetDefinitions sheetStates = Fulfilled []
  ∧ ∀ o, applyValidations_settles sheetDefinitions sheetStates o →
         o = Fulfilled [].
Proof.
  intros Hnodata.
  assert (∀ def sheetData,
            findSheet sheetStates (sd_id def) = Some sheetData →
            validateSheet_launched def sheetData sheetStates = []) as Hnone.
  { intros def sheetData Hfind. apply findSheet_Some in Hfind as [Hin _].
    rewrite Forall_forall in Hnodata. specialize (Hnodata _ Hin).
    rewrite Forall_forall in Hnodata.
    destruct (decide (validateSheet_launched def sheetData sheetStates = []))
      as [|Hne]; [done|].
    destruct (validateSheet_launched def sheetData sheetStates) as [|ev evs]
      eqn:Hlaunched; [done|].
    assert (ev ∈ validateSheet_launched def sheetData sheetStates) as Hev
      by (rewrite Hlaunched; left).
    apply elem_of_validateSheet_launched in Hev
      as (_ & columnDefinition & row & _ & Hrow & _ & Hvalidated).
    apply list_elem_of_lookup_2, Hnodata in Hrow.
    unfold validatedCell in Hvalidated. by rewrite Hrow in Hvalidated. }
  assert (applyValidations_launched sheetDefinitions sheetStates = [])
    as Hlaunched.
  { unfold applyValidations_launched. apply list_bind_nil_all. intros def _.
    destruct (findSheet sheetStates (sd_id def)) eqn:Hfind; [|done].
    by apply Hnone. }
  assert (∀ o, applyValidations_settles sheetDefinitions sheetStates o →
               o = Fulfilled []) as Hsettles.
  { intros o (outs & Houts & ->).
    assert (outs = Fulfilled <$> replicate (length sheetDefinitions) []) as ->.
    { clear Hlaunched. induction Houts as [|def out defs outs Hout _ IH]; [done|].
      simpl. rewrite IH. f_equal.
      destruct (findSheet sheetStates (sd_id def)) eqn:Hfind; [|done].
      rewrite (Hnone _ _ Hfind) in Hout. by apply settlesTo_nil in Hout. }
    assert (promiseAll (Fulfilled <$> replicate (length sheetDefinitions)
                          (@nil ImporterValidationError))
            = Fulfilled (replicate (length sheetDefinitions) [])) as ->
      by (by apply promiseAll_Fulfilled_inv).
    simpl. f_equal. generalize (length sheetDefinitions). intros n.
    induction n as [|n IH]; [done|]. exact IH. }
  split_and!; [done| |done].
  apply Hsettles, applyValidations_settles_launch_order.
Qed.

Lemma foldl_insert_lookup_last {A V} (key : A → string) (val : A → V)
    (l : list A) (m : gmap string V) (k : string) :
  foldl (λ obj x, <[key x := val x]> obj) m l !! k
  = match List.find (λ x, bool_decide (key x = k)) (rev l) with
    | Some x => Some (val x)
    | None => m !! k
    end.
Proof.
  revert m. induction l as [|x l IH] using rev_ind; intros m; [done|].
  rewrite foldl_app, rev_app_distr. simpl.
  case_bool_decide as Hkey.
  - rewrite <-Hkey. apply lookup_insert_eq.
  - rewrite lookup_insert_ne by done. apply IH.
Qed.

(** X7.  Columns sharing an id share the validators of the last of them:
    the validators kept for a column id are those built from the explicit
    and automatic definitions of the last column of the sheet definition
    that carries the id, and there is none for an id no column carries. *)
Theorem validatorsByColumnId_last_wins
    (sheetDefinition : SheetDefinition) (allData : list SheetState)
    (columnId : string) :
  validatorsByColumnId sheetDefinition allData !! columnId
  = (λ columnDefinition,
       buildValidatorFromDefinition
         <$> validatorDefinitions columnDefinition allData)
    <$> lastColumnWithId (sd_columns sheetDefinition) columnId.
Proof.
  unfold validatorsByColumnId, lastColumnWithId.
  rewrite (foldl_insert_lookup_last col_id
             (λ c, buildValidatorFromDefinition <$> validatorDefinitions c allData)).
  by destruct (List.find _ _).
Qed.

End ErrorsAndEdges.

(** ** Pipelines and the whole-sheet transform *)

Section BatchTransform.
Context `{Collaborators}.

(** The pipeline kept for a column id, read in the map. *)
Lemma buildPipelineByColumnId_last (sheetDefinition : SheetDefinition)
    (columnId : string) :
  buildPipelineByColumnId sheetDefinition !! columnId
  = (λ columnDefinition, mkPipeline (columnSteps columnDefinition))
    <$> lastColumnWithId (sd_columns sheetDefinition) columnId.
Proof.
  unfold buildPipelineByColumnId, lastColumnWithId.
  rewrite (foldl_insert_lookup_last col_id
             (λ c, match col_transformers c with
                   | None => mkPipeline []
                   | Some transformers =>
                       foldl (λ pipeline transformerDefinition,
                                Pipeline_push pipeline
                                  (buildTransformerFromDefinition
                                     transformerDefinition))
                             (mkPipeline []) transformers
                   end)).
  destruct (List.find _ _) as [c|]; [|done]. simpl. unfold columnSteps.
  destruct (col_transformers c) as [transformers|]; [|done].
  by rewrite foldl_Pipeline_push.
Qed.

(** X8.  Pipelines compose: pushing a step makes the pipeline apply it after
    the steps it already had, and an empty pipeline changes nothing.  The map
    [buildPipelineByColumnId] builds holds, for a column id, the pipeline of
    the transformers of the last column carrying that id, in the order of
    their definitions, and no entry for an id no column carries; so it has an
    entry for every column id of the sheet definition. *)
Theorem Pipeline_push_transform (pipeline : Pipeline) (step : Transformer)
    (value : ImporterOutputFieldType) :
  Pipeline_transform (Pipeline_push pipeline step) value
  = transform step (Pipeline_transform pipeline value)
  ∧ Pipeline_transform (mkPipeline []) value = value
  ∧ (∀ sheetDefinition columnId,
       buildPipelineByColumnId sheetDefinition !! columnId
       = (λ columnDefinition, mkPipeline (columnSteps columnDefinition))
         <$> lastColumnWithId (sd_columns sheetDefinition) columnId)
  ∧ ∀ sheetDefinition,
      coversColumns (buildPipelineByColumnId sheetDefinition) sheetDefinition.
Proof.
  split_and!.
  - unfold Pipeline_transform, Pipeline_push. simpl. by rewrite foldl_app.
  - done.
  - apply buildPipelineByColumnId_last.
  - intros sheetDefinition. apply Forall_forall. intros columnDefinition Hcol.
    rewrite buildPipelineByColumnId_last. unfold lastColumnWithId.
    destruct (List.find _ _) as [c|] eqn:Hfind; [by eexists|].
    assert (In columnDefinition (rev (sd_columns sheetDefinition))) as Hin
      by (apply in_rev; rewrite rev_involutive; by apply list_elem_of_In).
    pose proof (find_none _ _ Hfind columnDefinition Hin) as Hnot.
    simpl in Hnot. by rewrite bool_decide_eq_true_2 in Hnot.
Qed.

Lemma transformCell_dom pipelineByColumnId (row : SheetRow) columnDefinition :
  isEmptyCell FUndefined = true →
  dom (transformCell pipelineByColumnId row columnDefinition) = dom row.
Proof.
  intros Hundefined. unfold transformCell. simpl.
  destruct (isEmptyCell (rowGet row (col_id columnDefinition))) eqn:Hempty;
    simpl; [done|].
  apply dom_insert_lookup_L. unfold rowGet in Hempty.
  destruct (row !! col_id columnDefinition); [done|]. simpl in Hempty.
  congruence.
Qed.

(** X9.  [transformRow] neither adds nor removes a key of the row: the
    transformed row has the keys of the row.  This is for a sheet definition
    none of whose column ids is the name of a property rows inherit from
    [Object.prototype], pipelines that have an entry for each of its column
    ids, and an [isEmptyCell] for which [undefined] is empty. *)
Theorem transformRow_keeps_keys (row : SheetRow)
    (pipelineByColumnId : gmap string Pipeline)
    (sheetDefinition : SheetDefinition) :
  isEmptyCell FUndefined = true →
  plainColumnIds sheetDefinition →
  coversColumns pipelineByColumnId sheetDefinition →
  dom (transformRow row pipelineByColumnId sheetDefinition) = dom row.
Proof.
  intros Hundefined _ _. rewrite transformRow_unfold.
  destruct (hasData row); [|done].
  generalize (sd_columns sheetDefinition). intros columns. revert row.
  induction columns as [|c columns IH]; intros row; [done|]. simpl.
  by rewrite IH, transformCell_dom.
Qed.

(** The column loop and the row loop of [transformSheet] can be swapped. *)
Lemma transformSheet_rows sheetDefinition sheetData :
  transformSheet sheetDefinition sheetData
  = transformSheetRow (buildPipelineByColumnId sheetDefinition) sheetDefinition
      <$> ss_rows sheetData.
Proof.
  unfold transformSheet, transformSheetRow.
  generalize (sd_columns sheetDefinition) (ss_rows sheetData).
  intros columns. induction columns as [|c columns IH]; intros rows; simpl.
  - by rewrite list_fmap_id.
  - rewrite IH, <-list_fmap_compose. done.
Qed.

Lemma transformSheetRow_no_data pipelineByColumnId sheetDefinition
    (row : SheetRow) :
  hasData row = false →
  transformSheetRow pipelineByColumnId sheetDefinition row = row.
Proof.
  intros Hdata. unfold transformSheetRow.
  induction (sd_columns sheetDefinition) as [|c columns IH]; [done|]. simpl.
  unfold transformSheetCell at 2. by rewrite Hdata.
Qed.

Lemma transformSheetRow_keepsData sheetDefinition (row : SheetRow) :
  keepsData sheetDefinition →
  transformSheetRow (buildPipelineByColumnId sheetDefinition) sheetDefinition row
  = transformRow row (buildPipelineByColumnId sheetDefinition) sheetDefinition.
Proof.
  intros Hkeeps. rewrite transformRow_unfold.
  destruct (hasData row) eqn:Hdata; [|by apply transformSheetRow_no_data].
  unfold transformSheetRow, keepsData in *.
  set (pipes := buildPipelineByColumnId sheetDefinition) in *.
  assert (∀ columns row,
            (∀ c, c ∈ columns → c ∈ sd_columns sheetDefinition) →
            hasData row = true →
            foldl (λ row c, transformSheetCell pipes c row) row columns
            = foldl (transformCell pipes) row columns) as Hloop.
  { intros columns. induction columns as [|c columns IH]; intros r Hsub Hr;
      [done|]. simpl. unfold transformSheetCell at 2. rewrite Hr. simpl.
    apply IH.
    - intros c' Hc'. apply Hsub. by right.
    - apply Hkeeps; [|done]. apply Hsub. by left. }
  by apply Hloop.
Qed.

(** X10.  The whole-sheet transform works row by row: the row at an index
    depends on that row only, and a row without data is left as it is.  For
    a sheet definition none of whose transformers empties a row that has
    data, it gives each row what [transformRow] gives it, so transforming
    one row with [applyTransformationsToSingleRow] gives that row the value
    the whole-sheet transform gives it. *)
Theorem transformSheet_row_by_row
    (sheetDefinition : SheetDefinition) (sheetData : SheetState) :
  length (transformSheet sheetDefinition sheetData) = length (ss_rows sheetData)
  ∧ (∀ i row,
       ss_rows sheetData !! i = Some row →
       transformSheet sheetDefinition sheetData !! i
       = Some (transformSheetRow (buildPipelineByColumnId sheetDefinition)
                 sheetDefinition row)
       ∧ (hasData row = false →
          transformSheet sheetDefinition sheetData !! i = Some row))
  ∧ (keepsData sheetDefinition →
     transformSheet sheetDefinition sheetData
     = (λ row, transformRow row (buildPipelineByColumnId sheetDefinition)
                 sheetDefinition) <$> ss_rows sheetData)
  ∧ (keepsData sheetDefinition →
     ∀ sheetDefinitions sheetStates k i,
       sheetStates !! k = Some sheetData →
       List.find (λ def, bool_decide (sd_id def = ss_sheetId sheetData))
         sheetDefinitions = Some sheetDefinition →
       i < length (ss_rows sheetData) →
       ∃ sheetState',
         applyTransformationsToSingleRow sheetDefinitions sheetStates
           (ss_sheetId sheetData) i !! k = Some sheetState'
         ∧ ss_rows sheetState' !! i
           = transformSheet sheetDefinition sheetData !! i).
Proof.
  assert (keepsData sheetDefinition →
          transformSheet sheetDefinition sheetData
          = (λ row, transformRow row (buildPipelineByColumnId sheetDefinition)
                      sheetDefinition) <$> ss_rows sheetData) as Hbatch.
  { intros Hkeeps. rewrite transformSheet_rows. apply list_fmap_ext.
    intros _ row _. by apply transformSheetRow_keepsData. }
  split_and!.
  - by rewrite transformSheet_rows, length_fmap.
  - intros i row Hrow. rewrite transformSheet_rows, list_lookup_fmap, Hrow.
    split; [done|]. intros Hdata. simpl.
    by rewrite transformSheetRow_no_data.
  - done.
  - intros Hkeeps sheetDefinitions sheetStates k i Hk Hfind Hi.
    destruct (lookup_lt_is_Some_2 _ _ Hi) as [row Hrow].
    unfold applyTransformationsToSingleRow.
    rewrite list_lookup_fmap, Hk. simpl.
    rewrite bool_decide_eq_true_2 by done. simpl. rewrite Hfind, Hrow.
    eexists. split; [reflexivity|]. simpl.
    rewrite list_lookup_insert_eq by done.
    by rewrite Hbatch, list_lookup_fmap, Hrow.
Qed.

Lemma findSheetIndex_Some (sheetStates : list SheetState) (id : string) k :
  findSheetIndex sheetStates id = Some k →
  ∃ sheetState,
    sheetStates !! k = Some sheetState
    ∧ ss_sheetId sheetState = id
    ∧ findSheet sheetStates id = Some sheetState.
Proof.
  revert k. induction sheetStates as [|s states IH]; intros k; [done|].
  unfold findSheet. simpl. case_bool_decide as Hid.
  - intros [= <-]. by exists s.
  - destruct (findSheetIndex states id) as [k'|]; [|done]. intros [= <-].
    destruct (IH k' eq_refl) as (s' & ? & ? & ?). by exists s'.
Qed.

Lemma findSheetIndex_None (sheetStates : list SheetState) (id : string) :
  findSheetIndex sheetStates id = None → findSheet sheetStates id = None.
Proof.
  induction sheetStates as [|s states IH]; [done|].
  unfold findSheet. simpl. case_bool_decide; [done|].
  destruct (findSheetIndex states id); [done|]. intros _. by apply IH.
Qed.

Lemma findSheetIndex_ids (states1 states2 : list SheetState) (id : string) :
  ss_sheetId <$> states1 = ss_sheetId <$> states2 →
  findSheetIndex states1 id = findSheetIndex states2 id.
Proof.
  revert states2. induction states1 as [|s1 states1 IH];
    intros [|s2 states2] Hids; try done.
  rewrite !fmap_cons in Hids. injection Hids as Hid Hids. simpl.
  rewrite Hid. by rewrite (IH _ Hids).
Qed.

(** What holds after the loop of [applyTransformations] over definitions with
    distinct ids. *)
Lemma applyTransformations_loop_invariant
    (sheetDefinitions : list SheetDefinition) (sheetStates : list SheetState) :
  NoDup (sd_id <$> sheetDefinitions) →
  let acc := applyTransformations_loop sheetDefinitions sheetStates in
  ss_sheetId <$> am_store acc = ss_sheetId <$> sheetStates
  ∧ (∀ k s, sheetStates !! k = Some s →
            ss_sheetId s ∉ sd_id <$> sheetDefinitions →
            am_store acc !! k = Some s)
  ∧ Forall (λ made, made.1 ∈ sd_id <$> sheetDefinitions
                    ∧ ∃ s, am_store acc !! made.2 = Some s
                           ∧ ss_sheetId s = made.1) (am_made acc)
  ∧ omap (resolveMade (am_store acc)) (am_made acc)
    = omap (λ def, sheetData ← findSheet sheetStates (sd_id def);
                   Some (mkSheetState (sd_id def) (transformSheet def sheetData)))
        sheetDefinitions.
Proof.
  induction sheetDefinitions as [|d defs IH] using rev_ind; intros Hnd acc.
  { split_and!; try done. }
  rewrite fmap_app in Hnd. apply NoDup_app in Hnd as (Hnd & Hfresh & _).
  assert (sd_id d ∉ sd_id <$> defs) as Hd.
  { intros Hin. apply (Hfresh _ Hin). simpl. left. }
  destruct (IH Hnd) as (Hids & Huntouched & Hmade & Hresult). clear IH.
  unfold acc, applyTransformations_loop. rewrite foldl_app. simpl.
  fold (applyTransformations_loop defs sheetStates).
  set (old := applyTransformations_loop defs sheetStates) in *.
  rewrite (findSheetIndex_ids _ _ _ Hids), omap_app. simpl.
  destruct (findSheetIndex sheetStates (sd_id d)) as [k|] eqn:Hindex.
  - destruct (findSheetIndex_Some _ _ _ Hindex) as (s0 & Hk & Hid & Hfind).
    rewrite Hfind. simpl.
    assert (am_store old !! k = Some s0) as Hstore
      by (apply Huntouched; [done|by rewrite Hid]).
    rewrite Hstore. simpl. split_and!.
    + rewrite list_fmap_insert. simpl. rewrite list_insert_id; [done|].
      by rewrite list_lookup_fmap, Hstore.
    + intros k' s Hk' Hs. rewrite fmap_app in Hs.
      apply not_elem_of_app in Hs as [Hs Hsd].
      rewrite list_lookup_insert_ne; [by apply Huntouched|].
      intros ->. rewrite Hk in Hk'. injection Hk' as ->.
      apply Hsd. rewrite Hid. left.
    + apply Forall_app. split.
      * eapply Forall_impl; [exact Hmade|]. intros [id k'] (Hin & s & Hs & Hsid).
        simpl in *. split; [rewrite fmap_app; apply elem_of_app; by left|].
        exists s. split; [|done]. rewrite list_lookup_insert_ne; [done|].
        intros ->. rewrite Hstore in Hs. injection Hs as <-. congruence.
      * constructor; [|done]. simpl. split.
        -- rewrite fmap_app. apply elem_of_app. right. left.
        -- eexists. split;
             [apply list_lookup_insert_eq; by eapply lookup_lt_Some|exact Hid].
    + rewrite omap_app. f_equal.
      * rewrite <-Hresult. apply list_omap_ext, Forall_Forall2_diag.
        eapply Forall_impl; [exact Hmade|].
        intros [id k'] (Hin & s & Hs & Hsid). unfold resolveMade. simpl in *.
        rewrite list_lookup_insert_ne; [done|].
        intros ->. rewrite Hstore in Hs. injection Hs as <-. congruence.
      * simpl. unfold resolveMade. simpl.
        rewrite list_lookup_insert_eq by (by eapply lookup_lt_Some).
        reflexivity.
  - rewrite (findSheetIndex_None _ _ Hindex). simpl. rewrite !app_nil_r.
    split_and!; try done.
    + intros k s Hk Hs. apply Huntouched; [done|].
      rewrite fmap_app in Hs. by apply not_elem_of_app in Hs as [? _].
    + eapply Forall_impl; [exact Hmade|]. intros [id k'] (Hin & Hs).
      split; [|done]. rewrite fmap_app. apply elem_of_app. by left.
Qed.

(** X11.  [applyTransformations], for sheet definitions with distinct ids:
    it returns one new sheet state per definition that has a sheet state, in
    the order of the definitions, holding the transformed rows of that sheet
    state; a sheet state no definition names gets no new sheet state, and in
    the caller's sheet states it is left as it was. *)
Theorem applyTransformations_by_definition
    (sheetDefinitions : list SheetDefinition) (sheetStates : list SheetState) :
  NoDup (sd_id <$> sheetDefinitions) →
  applyTransformations sheetDefinitions sheetStates
  = omap (λ def, sheetData ← findSheet sheetStates (sd_id def);
                 Some (mkSheetState (sd_id def) (transformSheet def sheetData)))
      sheetDefinitions
  ∧ (∀ k s, sheetStates !! k = Some s →
            ss_sheetId s ∉ sd_id <$> sheetDefinitions →
            am_store (applyTransformations_loop sheetDefinitions sheetStates) !! k
            = Some s
            ∧ ∀ s', s' ∈ applyTransformations sheetDefinitions sheetStates →
                    ss_sheetId s' ≠ ss_sheetId s).
Proof.
  intros Hnd.
  destruct (applyTransformations_loop_invariant _ sheetStates Hnd)
    as (_ & Huntouched & _ & Hresult).
  assert (applyTransformations sheetDefinitions sheetStates
          = omap (λ def, sheetData ← findSheet sheetStates (sd_id def);
                         Some (mkSheetState (sd_id def)
                                 (transformSheet def sheetData)))
              sheetDefinitions) as Happly by exact Hresult.
  split; [done|]. intros k s Hk Hs. split; [by apply Huntouched|].
  intros s' Hs'. rewrite Happly in Hs'.
  apply list_elem_of_omap in Hs' as (def & Hdef & Hmade).
  destruct (findSheet sheetStates (sd_id def)); [|done].
  injection Hmade as <-. simpl. intros Heq. apply Hs. rewrite <-Heq.
  by apply list_elem_of_fmap_2.
Qed.

(** X15.  When [applyTransformationsToSingleRow] changes nothing: if for
    every sheet state with the target id there is no sheet definition with
    that id, or the target index is past its rows, or the target row has no
    data, the sheet states returned are the ones handed in. *)
Theorem applyTransformationsToSingleRow_identity
    (sheetDefinitions : list SheetDefinition) (sheetStates : list SheetState)
    (targetSheetId : string) (targetRowIndex : nat) :
  (∀ sheetState,
     sheetState ∈ sheetStates →
     ss_sheetId sheetState = targetSheetId →
     List.find (λ def, bool_decide (sd_id def = targetSheetId)) sheetDefinitions
     = None
     ∨ length (ss_rows sheetState) ≤ targetRowIndex
     ∨ ∃ row, ss_rows sheetState !! targetRowIndex = Some row
              ∧ hasData row = false) →
  applyTransformationsToSingleRow sheetDefinitions sheetStates targetSheetId
    targetRowIndex
  = sheetStates.
Proof.
  intros Hidle. unfold applyTransformationsToSingleRow.
  apply list_eq. intros k. rewrite list_lookup_fmap.
  destruct (sheetStates !! k) as [[sheetId rows]|] eqn:Hk; [|done]. simpl.
  f_equal. case_bool_decide as Hid; [|done]. simpl.
  destruct (List.find _ sheetDefinitions) as [sheetDefinition|] eqn:Hfind;
    [|done].
  destruct (Hidle _ (list_elem_of_lookup_2 _ _ _ Hk) Hid)
    as [Hnone | [Hpast | (row & Hrow & Hempty)]]; simpl in *.
  - congruence.
  - by rewrite (lookup_ge_None_2 _ _ Hpast).
  - rewrite Hrow. f_equal. apply list_insert_id.
    unfold transformRow. by rewrite Hempty.
Qed.

End BatchTransform.

(** ** importer/state.tsx: the builders, for any reducer *)

Section Builders.
Context `{Collaborators}.
Variable reducer : ImporterState → ImporterAction → ImporterState.

(** X12.  [getState] with dirty rows leaves the errors of the other rows
    alone.  When the folded state has a dirty row, then however the validator
    evaluations resolve, and whether the run is fulfilled or rejected, the
    errors of the state [getState] resolves to that are not on a dirty row
    are those of the folded state, in their order, every other error is on a
    dirty row, and the dirty rows and the sheet data are those of the folded
    state: [getState] does not clear the dirty rows. *)
Theorem getState_keeps_errors_of_clean_rows (builder : StateBuilder)
    (result : ImporterState) (dirty : gmap string (gset nat)) :
  let state := foldedState reducer builder in
  getState_settles reducer builder result →
  hasDirtyRows state = true →
  dirtyRows state = Some dirty →
  filter (notDirty dirty) (validationErrors result)
  = filter (notDirty dirty) (validationErrors state)
  ∧ (∀ e, e ∈ validationErrors result →
          e ∈ validationErrors state ∨ onDirtyRow dirty e)
  ∧ dirtyRows result = Some dirty
  ∧ sheetData result = sheetData state.
Proof.
  intros state (o & Hsettles & ->) Hdirty Hmap.
  unfold chosenValidation_settles in Hsettles.
  fold state in Hsettles |- *. rewrite Hdirty, Hmap in Hsettles.
  simpl in Hsettles. simpl. split_and!; [| |done|done].
  - destruct o as [errors|]; simpl; [|done].
    apply incremental_settles_clean_rows in Hsettles as (fresh & -> & Hfresh).
    rewrite filter_app, list_filter_filter.
    rewrite (filter_nil_all (notDirty dirty) fresh).
    + rewrite app_nil_r. apply filter_iff_in. intros e _. tauto.
    + intros e He Hclean. apply Hclean.
      by eapply Forall_forall in Hfresh.
  - intros e He. destruct o as [errors|]; simpl in He; [|by left].
    apply incremental_settles_clean_rows in Hsettles as (fresh & -> & Hfresh).
    apply elem_of_app in He as [He|He].
    + left. by apply list_elem_of_filter in He as [_ ?].
    + right. by eapply Forall_forall in Hfresh.
Qed.

(** What a run of dispatches does, for any reducer. *)
Lemma foldl_dispatch_any (w : Runtime) (steps : list ImporterAction) :
  let w' := foldl (λ w step, dispatch reducer step w) w steps in
  store w' = foldl reducer (store w) steps
  ∧ (history w').*2 = (history w).*2 ++ steps
  ∧ orchestrator w' = orchestrator w
  ∧ timeouts w' = timeouts w
  ∧ nextTimeoutId w' = nextTimeoutId w
  ∧ inFlight w' = inFlight w.
Proof.
  revert w. induction steps as [|step steps IH]; intros w; simpl.
  - by rewrite app_nil_r.
  - destruct (IH (dispatch reducer step w)) as (-> & -> & -> & -> & -> & ->).
    simpl. rewrite fmap_app. simpl. by rewrite <-app_assoc.
Qed.

Lemma dispatchChange_any (runId : string) (w : Runtime) :
  let steps := buildSteps (base (orchestrator w)) in
  let w' := dispatchChange reducer runId w in
  base (orchestrator w') = base (orchestrator w)
  ∧ (history w').*2 = (history w).*2 ++ dispatched runId steps
  ∧ store w' = foldl reducer (store w) (dispatched runId steps)
  ∧ inFlight w' = inFlight w.
Proof.
  intros steps w'. unfold w', dispatchChange, dispatched. fold steps.
  destruct (existsb requiresValidation steps).
  - destruct (foldl_dispatch_any (dispatch reducer (VALIDATION_STARTED runId) w)
                steps) as (Hstore & Hhistory & Horch & _ & _ & Hflight).
    simpl. rewrite Horch, Hstore, Hhistory, Hflight. simpl.
    rewrite fmap_app. simpl. by rewrite <-app_assoc.
  - destruct (foldl_dispatch_any w steps)
      as (Hstore & Hhistory & Horch & _ & _ & Hflight).
    simpl. by rewrite Horch, Hstore, Hhistory, Hflight.
Qed.

(** X13.  [dispatchChange] never empties the build steps.  For any reducer
    and any state of the builder, a call dispatches the build steps in their
    order, after [VALIDATION_STARTED] when one of them requires validation,
    and leaves them in the builder, so a second call dispatches all of them
    again; and when no step requires validation, no timeout is set or
    cleared. *)
Theorem dispatchChange_keeps_buildSteps (runId : string) (w : Runtime) :
  let steps := buildSteps (base (orchestrator w)) in
  let w' := dispatchChange reducer runId w in
  buildSteps (base (orchestrator w')) = steps
  ∧ (history w').*2 = (history w).*2 ++ dispatched runId steps
  ∧ store w' = foldl reducer (store w) (dispatched runId steps)
  ∧ (∀ runId2,
       (history (dispatchChange reducer runId2 w')).*2
       = (history w).*2 ++ dispatched runId steps ++ dispatched runId2 steps
       ∧ store (dispatchChange reducer runId2 w')
         = foldl reducer (store w)
             (dispatched runId steps ++ dispatched runId2 steps))
  ∧ (existsb requiresValidation steps = false →
     orchestrator w' = orchestrator w
     ∧ timeouts w' = timeouts w
     ∧ nextTimeoutId w' = nextTimeoutId w).
Proof.
  intros steps w'.
  destruct (dispatchChange_any runId w) as (Hbase & Hhistory & Hstore & _).
  fold steps w' in Hbase, Hhistory, Hstore. split_and!.
  - by rewrite Hbase.
  - done.
  - done.
  - intros runId2.
    destruct (dispatchChange_any runId2 w') as (_ & Hhistory2 & Hstore2 & _).
    rewrite Hbase in Hhistory2, Hstore2. fold steps in Hhistory2, Hstore2.
    rewrite Hhistory2, Hstore2, Hhistory, Hstore.
    by rewrite foldl_app, <-app_assoc.
  - intros Hnone. unfold w', dispatchChange. fold steps. rewrite Hnone.
    by destruct (foldl_dispatch_any w steps) as (_ & _ & -> & -> & -> & _).
Qed.

(** X16.  The debounced validation reads the build steps when the timeout
    fires, not when [dispatchChange] was called.  If build steps are pushed
    after a [dispatchChange] that requires validation and before its timeout
    fires, the validation that starts is the one of [getState] over all the
    steps, the later ones included, under the run id of that call, while the
    later steps have not been dispatched. *)
Theorem validation_reads_steps_at_fire_time (runId : string) (w : Runtime)
    (later : list ImporterAction) :
  existsb requiresValidation (buildSteps (base (orchestrator w))) = true →
  timeoutRegistered w →
  let w1 := push later (dispatchChange reducer runId w) in
  ∃ w2,
    timeoutFires reducer (nextTimeoutId w) w1 = Some w2
    ∧ inFlight w2
      = inFlight w
        ++ [mkPendingValidation runId
              (getState reducer
                 (foldl pushStep (base (orchestrator w)) later))]
    ∧ (history w2).*2
      = (history w).*2
        ++ VALIDATION_STARTED runId :: buildSteps (base (orchestrator w))
    ∧ timeouts w2 = []
    ∧ validationTimeoutId (orchestrator w2) = None.
Proof.
  intros Hvalidate Hregistered w1.
  assert (timeouts (dispatchChange reducer runId w)
          = [mkTimeout (nextTimeoutId w) runId]
          ∧ base (orchestrator (dispatchChange reducer runId w))
            = base (orchestrator w)
          ∧ (history (dispatchChange reducer runId w)).*2
            = (history w).*2
              ++ VALIDATION_STARTED runId :: buildSteps (base (orchestrator w))
          ∧ inFlight (dispatchChange reducer runId w) = inFlight w)
    as (Htimeouts & Hbase & Hhistory & Hflight).
  { unfold dispatchChange. rewrite Hvalidate.
    destruct (foldl_dispatch_any
                (dispatch reducer (VALIDATION_STARTED runId) w)
                (buildSteps (base (orchestrator w))))
      as (_ & Hhistory & Horch & Htimeouts & Hnext & Hflight).
    simpl in *. rewrite Horch, Htimeouts, Hnext, Hhistory, Hflight.
    split_and!; try done.
    - unfold timeoutRegistered in Hregistered.
      destruct (validationTimeoutId (orchestrator w)) as [id|].
      + destruct Hregistered as [runId' ->]. simpl.
        by rewrite bool_decide_eq_true_2.
      + by rewrite Hregistered.
    - rewrite fmap_app. simpl. by rewrite <-app_assoc. }
  unfold timeoutFires, w1, push. simpl. rewrite Htimeouts. simpl.
  rewrite bool_decide_eq_true_2 by done. simpl.
  eexists. split; [reflexivity|]. simpl.
  by rewrite Hbase, Hhistory, Hflight.
Qed.

End Builders.

(** ** importer/state.tsx: the initial state and the persisted one *)

Section Persistence.
Context `{Storage}.

(** X14.  [buildState] is rejected exactly when there is no sheet definition:
    the default state is built before the [try].  Otherwise it is fulfilled,
    with the persisted state when persistence is enabled and a state is
    loaded, whatever that state holds, and with the default state in every
    other case, also when loading or saving fails. *)
Theorem buildState_rejected_iff (sheetDefinitions : list SheetDefinition)
    (persistenceConfig : PersistenceConfig) :
  (buildState sheetDefinitions persistenceConfig = Rejected
   ↔ sheetDefinitions = [])
  ∧ (∀ defaultState,
       buildInitialState sheetDefinitions = Some defaultState →
       buildState sheetDefinitions persistenceConfig
       = Fulfilled
           (if enabled persistenceConfig
            then match getIndexedDBState sheetDefinitions
                         (customKey persistenceConfig) with
                 | Fulfilled (Some persisted) => persisted
                 | _ => defaultState
                 end
            else defaultState)).
Proof.
  unfold buildState, buildStateWithIndexedDB. split.
  - destruct sheetDefinitions as [|first rest]; [done|]. simpl.
    split; [|done].
    destruct (enabled persistenceConfig); simpl; [|done].
    destruct (getIndexedDBState _ _) as [[persisted|]|]; simpl; try done.
    by destruct (setIndexedDBState _ _).
  - intros defaultState ->. simpl.
    destruct (enabled persistenceConfig); simpl; [|done].
    destruct (getIndexedDBState _ _) as [[persisted|]|]; simpl; try done.
    by destruct (setIndexedDBState _ _).
Qed.

End Persistence.

(** * The properties on the worked example *)

Section Witnesses.
Import Fixture.
#[local] Existing Instance SpecModel.collaborators.

Lemma incremental_all_dirty_agrees_with_full_witness :
  (allRowsDirty sheetStates everyRow ∧ coveredBy staleErrors everyRow)
  ∧ applyValidationsToSpecificRows [people] sheetStates staleErrors everyRow
    = applyValidations [people] sheetStates
  ∧ ∀ oFull oIncremental,
      applyValidations_settles [people] sheetStates oFull →
      applyValidationsToSpecificRows_settles [people] sheetStates staleErrors
        everyRow oIncremental →
      sameErrorSet oFull oIncremental.
Proof.
  assert (allRowsDirty sheetStates everyRow) as Hall
    by (apply (bool_decide_unpack _); vm_compute; exact I).
  assert (coveredBy staleErrors everyRow) as Hcov
    by (apply (bool_decide_unpack _); vm_compute; exact I).
  split; [exact (conj Hall Hcov)|].
  exact (incremental_all_dirty_agrees_with_full [people] sheetStates
           staleErrors everyRow Hall Hcov).
Defined.

(** Scenario B: an old error on row 1 survives the revalidation of row 0,
    and the fresh errors of row 0 follow it. *)
Example incremental_merge_keeps_untouched_row :
  applyValidationsToSpecificRows [people] sheetStates staleErrors
    {[ "people" := {[0]} ]}
  = Fulfilled [mkError "people" "age" 1 "stale";
               mkError "people" "age" 0 SpecModel.requiredMessage].
Proof. vm_compute. reflexivity. Qed.

Lemma dispatchChange_debounces_validation_witness :
  ∃ w1 w entries errors,
    run SpecModel.reducer (newRuntime [people] startState) twoEdits = Some w1
    ∧ run SpecModel.reducer (dispatchChange SpecModel.reducer "run-3" w1) settle
      = Some w
    ∧ quiescent w
    ∧ history w
      = history (dispatchChange SpecModel.reducer "run-3" w1) ++ entries
    ∧ omap appliedCompletion (history w) = [("run-3", errors)]
    ∧ validationErrors (store w) = errors
    ∧ validationRunId (store w) = Some "run-3".
Proof.
  destruct (dispatchChange_debounces_validation [people] startState)
    as (_ & _ & Hwindow).
  set (start := newRuntime [people] startState) in *.
  set (w1 := default start (run SpecModel.reducer start twoEdits)).
  set (w := default start
              (run SpecModel.reducer
                 (dispatchChange SpecModel.reducer "run-3" w1) settle)).
  assert (run SpecModel.reducer start twoEdits = Some w1) as Hrun1
    by (vm_compute; reflexivity).
  assert (run SpecModel.reducer (dispatchChange SpecModel.reducer "run-3" w1)
            settle = Some w) as Hrun
    by (vm_compute; reflexivity).
  assert (quiescent w) as Hquiescent by (split; vm_compute; reflexivity).
  destruct (Hwindow twoEdits "run-3" settle w1 w Hrun1)
    as (entries & Hhistory & _ & _ & Hcommitted & Hwindowed);
    [vm_compute; reflexivity
    |apply (bool_decide_unpack _); vm_compute; exact I
    |vm_compute; reflexivity
    |exact Hrun
    |].
  destruct (Hcommitted Hquiescent) as (errors & Happlied & Herrors & _ & Hid).
  exists w1, w, entries, errors.
  split; [exact Hrun1|]. split; [exact Hrun|]. split; [exact Hquiescent|].
  split; [exact Hhistory|]. split; [|split; [exact Herrors|exact Hid]].
  rewrite Hwindowed; [exact Happlied|]. vm_compute. reflexivity.
Defined.

Lemma getState_spec_witness :
  let state := foldedState SpecModel.reducer flakyBuilder in
  hasDirtyRows state = true
  ∧ validationErrors state = staleErrors
  ∧ getState SpecModel.reducer flakyBuilder = state.
Proof.
  destruct (getState_spec SpecModel.reducer flakyBuilder)
    as (_ & Hsettles & Hresult).
  split; [vm_compute; reflexivity|]. split; [vm_compute; reflexivity|].
  destruct (Hresult _ Hsettles) as [_ Hrejected].
  apply (Hrejected (mkEvaluation "people" "name" 0 Rejected)).
  - apply (list_elem_of_lookup_2 _ 0). vm_compute. reflexivity.
  - reflexivity.
Defined.

(** The lookup stops at the first ['required'] definition: a later one
    without [when] does not make the column required. *)
Example fieldIsRequired_first_required_decides :
  fieldIsRequired twiceRequired true = true
  ∧ fieldIsRequired twiceRequired false = false.
Proof. split; reflexivity. Qed.

Lemma fieldIsRequired_spec_witness :
  atMostOneRequired (default [] (col_validators age))
  ∧ fieldIsRequired age false = true
  ∧ fieldIsRequired name true = false.
Proof.
  destruct (fieldIsRequired_spec age) as (_ & _ & Hone).
  destruct (fieldIsRequired_spec name) as (Hskip & _ & _).
  assert (atMostOneRequired (default [] (col_validators age))) as Hage
    by (vm_compute; lia).
  split; [exact Hage|]. split.
  - apply (Hone Hage). exists (RequiredValidatorDefinition None).
    split; [|split; reflexivity]. apply (list_elem_of_lookup_2 _ 0). reflexivity.
  - destruct (fieldIsRequired name true) eqn:Hname; [|reflexivity].
    destruct (proj1 Hskip eq_refl) as (v & Hin & _).
    exfalso. exact (proj1 (elem_of_nil v) Hin).
Defined.

Lemma validateSheet_validates_each_cell_witness :
  let errors := [mkError "people" "age" 0 SpecModel.requiredMessage;
                 mkError "people" "status" 1 SpecModel.includesMessage] in
  (NoDup (col_id <$> sd_columns people)
   ∧ plainColumnIds people
   ∧ validateSheet people (mkSheetState "people" [ann; bob; cy]) sheetStates
     = Fulfilled errors)
  ∧ filter (onCell "age" 0) errors
    = [mkError "people" "age" 0 SpecModel.requiredMessage].
Proof.
  intros errors.
  assert (NoDup (col_id <$> sd_columns people)) as Hnd
    by (apply (bool_decide_unpack _); vm_compute; exact I).
  assert (plainColumnIds people) as Hplain
    by (apply (bool_decide_unpack _); vm_compute; exact I).
  assert (validateSheet people (mkSheetState "people" [ann; bob; cy]) sheetStates
          = Fulfilled errors) as Hrun by (vm_compute; reflexivity).
  split; [exact (conj Hnd (conj Hplain Hrun))|].
  assert (settlesTo
            (validateSheet_launched people (mkSheetState "people" [ann; bob; cy])
               sheetStates) (Fulfilled errors)) as Hsettles.
  { rewrite <-Hrun. apply settlesTo_launch_order. }
  destruct (validateSheet_validates_each_cell people
              (mkSheetState "people" [ann; bob; cy]) sheetStates Hnd Hplain)
    as [_ Herrors].
  destruct (Herrors errors Hsettles) as (_ & _ & Hrequired).
  apply (Hrequired age 0 ann SpecModel.requiredMessage);
    [apply (list_elem_of_lookup_2 _ 1)|..]; reflexivity.
Defined.

Lemma automatic_validators_of_enum_and_reference_witness :
  let errors := [mkError "people" "age" 0 SpecModel.requiredMessage;
                 mkError "people" "status" 1 SpecModel.includesMessage] in
  filter (onCell "status" 1) errors
  = [mkError "people" "status" 1 SpecModel.includesMessage]
  ∧ filter (onCell "status" 2) errors = [].
Proof.
  intros errors.
  destruct automatic_validators_of_enum_and_reference as (_ & _ & Henum & _).
  assert (NoDup (col_id <$> sd_columns people)) as Hnd
    by (apply (bool_decide_unpack _); vm_compute; exact I).
  assert (settlesTo
            (validateSheet_launched people (mkSheetState "people" [ann; bob; cy])
               sheetStates) (Fulfilled errors)) as Hsettles.
  { assert (validateSheet people (mkSheetState "people" [ann; bob; cy])
              sheetStates = Fulfilled errors) as <- by (vm_compute; reflexivity).
    apply settlesTo_launch_order. }
  assert (status ∈ sd_columns people) as Hstatus
    by (apply (list_elem_of_lookup_2 _ 2); reflexivity).
  split.
  - etrans;
      [exact (Henum people _ sheetStates errors status _ 1 bob (FText "pending")
                Hnd Hsettles Hstatus eq_refl eq_refl eq_refl eq_refl eq_refl)|].
    vm_compute. reflexivity.
  - etrans;
      [exact (Henum people _ sheetStates errors status _ 2 cy (FText "active")
                Hnd Hsettles Hstatus eq_refl eq_refl eq_refl eq_refl eq_refl)|].
    vm_compute. reflexivity.
Defined.

(** The allowed values of a reference column follow the sheet states handed
    to the call: [bob] may be referenced while the people sheet holds him. *)
Example reference_values_follow_the_data :
  applyValidations [team] (mkSheetState "team" [onBob] :: sheetStates)
  = Fulfilled []
  ∧ applyValidations [team]
      [mkSheetState "team" [onBob]; mkSheetState "people" [ann; cy]]
    = Fulfilled [mkError "team" "lead" 0 SpecModel.includesMessage].
Proof. split; vm_compute; reflexivity. Qed.

Lemma applyTransformationsToSingleRow_frame_witness :
  ∃ sheetState' row',
    applyTransformationsToSingleRow [people] sheetStates "people" 1 !! 0
    = Some sheetState'
    ∧ ss_rows sheetState' !! 0 = Some ann
    ∧ ss_rows sheetState' !! 2 = Some cy
    ∧ ss_rows sheetState' !! 1 = Some row'
    ∧ row' !! "name" = Some (FText "Bob!")
    ∧ row' !! "age" = Some (FNumber 30).
Proof.
  destruct (applyTransformationsToSingleRow_frame [people] sheetStates "people" 1)
    as [_ Hframe].
  destruct (Hframe 0 (mkSheetState "people" [ann; bob; cy]) eq_refl)
    as (sheetState' & Hresult & _ & _ & _ & Hother & Hrow).
  destruct (Hrow bob eq_refl) as (row' & Hlookup & Hcells).
  assert (Forall plainColumnIds [people]) as Hplain
    by (apply (bool_decide_unpack _); vm_compute; exact I).
  destruct (Hcells Hplain) as (_ & _ & Hvalue).
  assert (NoDup (col_id <$> sd_columns people)) as Hnd
    by (apply (bool_decide_unpack _); vm_compute; exact I).
  exists sheetState', row'.
  split; [exact Hresult|]. split; [|split; [|split; [exact Hlookup|split]]].
  - rewrite (Hother 0) by lia. reflexivity.
  - rewrite (Hother 2) by lia. reflexivity.
  - etrans; [apply (Hvalue people name eq_refl eq_refl Hnd)|reflexivity];
      [apply (list_elem_of_lookup_2 _ 0)|..]; reflexivity.
  - etrans; [apply (Hvalue people age eq_refl eq_refl Hnd)|reflexivity];
      [apply (list_elem_of_lookup_2 _ 1)|..]; reflexivity.
Defined.

Lemma incremental_with_nothing_to_validate_witness :
  allSetsEmpty noRow
  ∧ applyValidationsToSpecificRows_launched [people] sheetStates noRow = []
  ∧ applyValidationsToSpecificRows [people] sheetStates staleErrors noRow
    = Fulfilled staleErrors.
Proof.
  assert (allSetsEmpty noRow) as Hempty
    by (apply (bool_decide_unpack _); vm_compute; exact I).
  split; [exact Hempty|].
  destruct (incremental_with_nothing_to_validate [people] sheetStates
              staleErrors noRow (or_introl Hempty)) as (Hlaunched & _ & Hsame).
  split; [exact Hlaunched|]. apply Hsame. left. exact Hempty.
Defined.

(** A dirty-row map that names only a sheet without sheet state still drops
    the existing errors of that sheet's marked rows. *)
Lemma incremental_with_unknown_sheet_drops_errors :
  namesNoSheetOf elsewhere sheetStates
  ∧ applyValidationsToSpecificRows_launched [people; archive] sheetStates
      elsewhere = []
  ∧ applyValidationsToSpecificRows [people; archive] sheetStates archiveErrors
      elsewhere
    ≠ Fulfilled archiveErrors.
Proof.
  split_and!.
  - apply (bool_decide_unpack _). vm_compute. exact I.
  - vm_compute. reflexivity.
  - vm_compute. discriminate.
Qed.

Lemma buildInitialState_spec_witness :
  ∃ state,
    buildInitialState [people] = Some state
    ∧ sheetData state = [mkSheetState "people" []]
    ∧ buildState (H := brokenStorage) [people] (mkPersistenceConfig true None)
      = Fulfilled state
    ∧ buildState (H := brokenStorage) [people] (mkPersistenceConfig false None)
      = Fulfilled state.
Proof.
  destruct (buildInitialState_spec (H := brokenStorage) [people])
    as (_ & Hfields & Hbuild).
  destruct (Hfields people [] eq_refl)
    as (state & Hstate & _ & _ & _ & _ & _ & _ & Hdata & _).
  exists state. split; [exact Hstate|]. split; [exact Hdata|]. split.
  - apply Hbuild; [exact Hstate|]. right. left. reflexivity.
  - apply Hbuild; [exact Hstate|]. left. reflexivity.
Defined.

End Witnesses.

(** * The further properties on the worked example *)

Section FurtherWitnesses.
Import Fixture Scenario.
#[local] Existing Instance SpecModel.collaborators.

Lemma validateSpecificRows_launched_filter_witness :
  ∃ ev,
    ev ∈ validateSpecificRows_launched people
           (mkSheetState "people" [ann; bob; cy]) sheetStates {[1]}
    ∧ ev_sheetId ev = sd_id people
    ∧ ev_rowIndex ev ∈ ({[1]} : gset nat)
    ∧ ev_rowIndex ev < length (ss_rows (mkSheetState "people" [ann; bob; cy])).
Proof.
  destruct (validateSpecificRows_launched_filter people
              (mkSheetState "people" [ann; bob; cy]) sheetStates {[1]})
    as (_ & _ & Hin & _).
  eexists. split.
  - apply (list_elem_of_lookup_2 _ 0). vm_compute. reflexivity.
  - apply Hin. apply (list_elem_of_lookup_2 _ 0). vm_compute. reflexivity.
Defined.

Lemma incremental_validation_sound_witness :
  let dirty : gmap string (gset nat) := {[ "people" := {[0]} ]} in
  let fullErrors := catch (applyValidations [people] sheetStates) [] in
  let existingErrors :=
    filter (notDirty dirty) fullErrors ++ [mkError "people" "age" 0 "stale"] in
  applyValidationsToSpecificRows [people] sheetStates existingErrors dirty
  = Fulfilled (filter (notDirty dirty) fullErrors
               ++ filter (onDirtyRow dirty) fullErrors)
  ∧ filter (notDirty dirty) fullErrors ++ filter (onDirtyRow dirty) fullErrors
    ≡ₚ fullErrors.
Proof.
  intros dirty fullErrors existingErrors.
  apply (incremental_validation_sound [people] sheetStates existingErrors
           fullErrors dirty).
  - vm_compute. reflexivity.
  - vm_compute. reflexivity.
Defined.

Lemma validation_errors_are_on_existing_cells_witness :
  Forall (wellPlaced [people] sheetStates)
    (catch (applyValidations [people] sheetStates) [])
  ∧ Forall (wellPlaced [people] sheetStates)
      (catch (applyValidationsToSpecificRows [people] sheetStates []
                {[ "people" := {[0]} ]}) []).
Proof.
  destruct (validation_errors_are_on_existing_cells [people] sheetStates)
    as [Hfull Hincremental].
  split.
  - apply Hfull.
    pose proof (applyValidations_settles_launch_order [people] sheetStates)
      as Hsettles.
    assert (applyValidations [people] sheetStates
            = Fulfilled (catch (applyValidations [people] sheetStates) []))
      as Heq by (vm_compute; reflexivity).
    rewrite Heq in Hsettles at 1. exact Hsettles.
  - apply (Hincremental [] {[ "people" := {[0]} ]}); [apply Forall_nil_2|].
    pose proof (applyValidationsToSpecificRows_settles_launch_order [people]
                  sheetStates [] {[ "people" := {[0]} ]}) as Hsettles.
    assert (applyValidationsToSpecificRows [people] sheetStates []
              {[ "people" := {[0]} ]}
            = Fulfilled
                (catch (applyValidationsToSpecificRows [people] sheetStates []
                          {[ "people" := {[0]} ]}) []))
      as Heq by (vm_compute; reflexivity).
    rewrite Heq in Hsettles at 1. exact Hsettles.
Defined.

Lemma applyValidations_rejected_iff_witness :
  applyValidations [flaky] sheetStates = Rejected
  ∧ ∃ ev, ev ∈ applyValidations_launched [flaky] sheetStates
          ∧ ev_result ev = Rejected.
Proof.
  assert (applyValidations [flaky] sheetStates = Rejected) as Heq
    by (vm_compute; reflexivity).
  split; [exact Heq|].
  pose proof (applyValidations_settles_launch_order [flaky] sheetStates)
    as Hsettles.
  rewrite Heq in Hsettles.
  exact (proj1 (applyValidations_rejected_iff [flaky] sheetStates Rejected
                  Hsettles) eq_refl).
Defined.

Lemma applyValidations_without_data_witness :
  applyValidations_launched [people] blank = []
  ∧ applyValidations [people] blank = Fulfilled []
  ∧ ∀ o, applyValidations_settles [people] blank o → o = Fulfilled [].
Proof.
  apply (applyValidations_without_data [people] blank).
  apply (bool_decide_unpack _). vm_compute. exact I.
Defined.

Lemma transformRow_keeps_keys_witness :
  dom (transformRow bob (buildPipelineByColumnId people) people) = dom bob.
Proof.
  apply (transformRow_keeps_keys bob (buildPipelineByColumnId people) people).
  - vm_compute. reflexivity.
  - apply (bool_decide_unpack _). vm_compute. exact I.
  - apply (bool_decide_unpack _). vm_compute. exact I.
Defined.

(** A row keeps having data when a non-empty value is written in it. *)
Lemma hasData_insert (row : SheetRow) (columnId : string)
    (value : ImporterOutputFieldType) :
  SpecModel.isEmptyCell value = false →
  SpecModel.hasData (<[columnId := value]> row) = true.
Proof.
  intros Hvalue. unfold SpecModel.hasData. apply existsb_exists.
  exists (columnId, value). split.
  - apply list_elem_of_In, elem_of_map_to_list, lookup_insert_eq.
  - simpl. by rewrite Hvalue.
Qed.

(** The transformer of the example makes no cell empty. *)
Lemma exclaim_not_empty (value : ImporterOutputFieldType) :
  SpecModel.isEmptyCell value = false →
  SpecModel.isEmptyCell (exclaim value) = false.
Proof.
  destruct value as [s| | |]; try done. intros _. simpl.
  apply bool_decide_eq_false_2. by destruct s.
Qed.

Lemma people_keepsData : keepsData people.
Proof.
  intros row columnDefinition Hcolumn Hrow. unfold transformCell.
  destruct (isEmptyCell (rowGet row (col_id columnDefinition))) eqn:Hempty;
    [exact Hrow|].
  simpl. apply hasData_insert.
  assert (pipelineOf (buildPipelineByColumnId people) "name"
          = mkPipeline [mkTransformer exclaim]) as Hname
    by (vm_compute; reflexivity).
  assert (pipelineOf (buildPipelineByColumnId people) "age" = mkPipeline [])
    as Hage by (vm_compute; reflexivity).
  assert (pipelineOf (buildPipelineByColumnId people) "status" = mkPipeline [])
    as Hstatus by (vm_compute; reflexivity).
  unfold people in Hcolumn. cbn [sd_columns] in Hcolumn.
  apply elem_of_cons in Hcolumn as [-> | Hcolumn];
    [|apply elem_of_cons in Hcolumn as [-> | Hcolumn];
      [|apply list_elem_of_singleton in Hcolumn as ->]].
  - change (col_id name) with "name" in *. rewrite Hname.
    by apply exclaim_not_empty.
  - change (col_id age) with "age" in *. rewrite Hage. exact Hempty.
  - change (col_id status) with "status" in *. rewrite Hstatus. exact Hempty.
Qed.

Lemma transformSheet_row_by_row_witness :
  transformSheet people (mkSheetState "people" [ann; bob; cy])
  = (λ row, transformRow row (buildPipelineByColumnId people) people)
    <$> [ann; bob; cy]
  ∧ ∃ sheetState',
      applyTransformationsToSingleRow [people] sheetStates "people" 1 !! 0
      = Some sheetState'
      ∧ ss_rows sheetState' !! 1
        = transformSheet people (mkSheetState "people" [ann; bob; cy]) !! 1.
Proof.
  destruct (transformSheet_row_by_row people
              (mkSheetState "people" [ann; bob; cy]))
    as (_ & _ & Hrows & Hsingle).
  split; [exact (Hrows people_keepsData)|].
  apply (Hsingle people_keepsData [people] sheetStates 0 1).
  - reflexivity.
  - vm_compute. reflexivity.
  - vm_compute. lia.
Defined.

Lemma applyTransformations_by_definition_witness :
  applyTransformations [people; archive] sheetStates
  = omap (λ def, sheetData ← findSheet sheetStates (sd_id def);
                 Some (mkSheetState (sd_id def) (transformSheet def sheetData)))
      [people; archive].
Proof.
  apply (applyTransformations_by_definition [people; archive] sheetStates).
  apply (bool_decide_unpack _). vm_compute. exact I.
Defined.

Lemma applyTransformationsToSingleRow_identity_witness :
  applyTransformationsToSingleRow [people] sheetStates "people" 7 = sheetStates.
Proof.
  apply (applyTransformationsToSingleRow_identity [people] sheetStates
           "people" 7).
  intros sheetState Hin _. right. left.
  apply list_elem_of_singleton in Hin as ->. vm_compute. lia.
Defined.

Lemma getState_keeps_errors_of_clean_rows_witness :
  let state := foldedState SpecModel.reducer editedBuilder in
  let dirty := default ∅ (dirtyRows state) in
  let result := getState SpecModel.reducer editedBuilder in
  hasDirtyRows state = true
  ∧ filter (notDirty dirty) (validationErrors result)
    = filter (notDirty dirty) (validationErrors state)
  ∧ dirtyRows result = Some dirty.
Proof.
  intros state dirty result.
  assert (hasDirtyRows state = true) as Hdirty by (vm_compute; reflexivity).
  assert (dirtyRows state = Some dirty) as Hmap by (vm_compute; reflexivity).
  destruct (getState_keeps_errors_of_clean_rows SpecModel.reducer editedBuilder
              result dirty
              (getState_settles_launch_order SpecModel.reducer editedBuilder)
              Hdirty Hmap) as (Hkept & _ & Hrows & _).
  exact (conj Hdirty (conj Hkept Hrows)).
Defined.

Lemma dispatchChange_keeps_buildSteps_witness :
  let w' := dispatchChange SpecModel.reducer "run-1" afterMapping in
  orchestrator w' = orchestrator afterMapping
  ∧ timeouts w' = timeouts afterMapping
  ∧ nextTimeoutId w' = nextTimeoutId afterMapping.
Proof.
  destruct (dispatchChange_keeps_buildSteps SpecModel.reducer "run-1"
              afterMapping) as (_ & _ & _ & _ & Hnone).
  apply Hnone. vm_compute. reflexivity.
Defined.

Lemma validation_reads_steps_at_fire_time_witness :
  let later := [CELL_CHANGED (mkCellChangedPayload "people" 1 bob)] in
  let w1 := push later (dispatchChange SpecModel.reducer "run-1" afterEdit) in
  ∃ w2,
    timeoutFires SpecModel.reducer (nextTimeoutId afterEdit) w1 = Some w2
    ∧ inFlight w2
      = inFlight afterEdit
        ++ [mkPendingValidation "run-1"
              (getState SpecModel.reducer
                 (foldl pushStep (base (orchestrator afterEdit)) later))]
    ∧ (history w2).*2
      = (history afterEdit).*2
        ++ VALIDATION_STARTED "run-1"
           :: buildSteps (base (orchestrator afterEdit))
    ∧ timeouts w2 = []
    ∧ validationTimeoutId (orchestrator w2) = None.
Proof.
  intros later.
  apply (validation_reads_steps_at_fire_time SpecModel.reducer "run-1"
           afterEdit later).
  - vm_compute. reflexivity.
  - vm_compute. reflexivity.
Defined.

Lemma buildState_rejected_iff_witness :
  buildState (H := loadedStorage) [people] (mkPersistenceConfig true None)
  = Fulfilled startState
  ∧ buildState (H := loadedStorage) [] (mkPersistenceConfig true None)
    = Rejected.
Proof.
  destruct (buildState_rejected_iff (H := loadedStorage) [people]
              (mkPersistenceConfig true None)) as [_ Hfulfilled].
  destruct (buildState_rejected_iff (H := loadedStorage) []
              (mkPersistenceConfig true None)) as [Hrejected _].
  split.
  - exact (Hfulfilled (default startState (buildInitialState [people]))
             eq_refl).
  - exact (proj2 Hrejected eq_refl).
Defined.

End FurtherWitnesses.
